(** * copilot-premium-usage-exporter: rate-limited API client, usage
      collector and metric publisher

    A shallow embedding of the Go sources

    - [internal/github/client.go]  (the rate-limited [Client]),
    - [internal/github/model.go]   (the decoded API payloads),
    - [internal/metrics.go]        (the three gauge series),
    - [internal/config/config.go]  ([Load]),
    - [cmd/main.go]                ([collect], the scrape handler),

    followed by the properties the specification states about them.

    Machine integers are [Z] with the 64-bit wrap-around written out,
    strings are byte strings, maps are stdpp's [gmap], effects are
    threaded through an explicit state with an event trace. *)

From Stdlib Require Import ZArith Lia List Ascii String.
From stdpp Require Import base option gmap strings list fin_maps.

Local Open Scope string_scope.
Local Open Scope Z_scope.

(** ** Go's [int] / [int64] *)

Module int64.

Definition min : Z := - 2 ^ 63.
Definition max : Z := 2 ^ 63 - 1.

(** Two's-complement wrap-around of a mathematical integer. *)
Definition wrap (z : Z) : Z := (z + 2 ^ 63) mod 2 ^ 64 - 2 ^ 63.

Definition add (a b : Z) : Z := wrap (a + b).
Definition sub (a b : Z) : Z := wrap (a - b).
Definition mul (a b : Z) : Z := wrap (a * b).

Definition in_range (z : Z) : Prop := min <= z <= max.

End int64.

(** ** [strconv]: decimal integer parsing and printing *)

Module strconv.

Definition digit (a : ascii) : option Z :=
  let n := Z.of_nat (nat_of_ascii a) in
  if (48 <=? n) && (n <=? 57) then Some (n - 48) else None.

(** Value of a non-empty run of decimal digits, most significant
    first; [None] on any other character. *)
Fixpoint digits (acc : Z) (s : string) : option Z :=
  match s with
  | EmptyString => Some acc
  | String a s' =>
      match digit a with
      | Some d => digits (10 * acc + d) s'
      | None => None
      end
  end.

Definition unsigned (s : string) : option Z :=
  match s with
  | EmptyString => None
  | _ => digits 0 s
  end.

(** [strconv.ParseInt(s, 10, 64)]: an optional sign, then one or more
    decimal digits; a syntax error or a value outside the int64 range
    is an error ([None]). *)
Definition ParseInt (s : string) : option Z :=
  let signed :=
    match s with
    | String "+" s' => unsigned s'
    | String "-" s' => Z.opp <$> unsigned s'
    | _ => unsigned s
    end in
  match signed with
  | Some n => if (int64.min <=? n) && (n <=? int64.max) then Some n else None
  | None => None
  end.

(** [strconv.Atoi(s)] is [ParseInt(s, 10, 0)] with [int] 64 bits wide. *)
Definition Atoi (s : string) : option Z := ParseInt s.

(** *** [strconv.ParseInt(s, 0, 64)]

    With base 0 the base is read off the prefix ([0b], [0o], [0x], a
    bare leading [0] for octal, decimal otherwise) and underscores may
    separate digits as in Go's integer literals. *)

Definition byte (a : ascii) : Z := Z.of_nat (nat_of_ascii a).

(** [lower(c)] is [c | ('x' - 'X')]. *)
Definition lower (a : ascii) : Z := Z.lor (byte a) 32.

(** The value of a digit character in the loop of [ParseUint]. *)
Definition digitVal (a : ascii) : option Z :=
  if (48 <=? byte a) && (byte a <=? 57) then Some (byte a - 48)
  else if (97 <=? lower a) && (lower a <=? 122) then Some (lower a - 97 + 10)
  else None.

(** The digit loop of [ParseUint] when the base was given as 0:
    underscores are skipped, any other character must be a digit below
    the base. The value is not cut off here; [ParseInt0] checks the
    range, and every error of the loop is an error of [ParseInt]. *)
Fixpoint digits0 (base acc : Z) (s : string) : option Z :=
  match s with
  | EmptyString => Some acc
  | String a s' =>
      if Ascii.eqb a "_" then digits0 base acc s'
      else
        match digitVal a with
        | Some d => if d <? base then digits0 base (base * acc + d) s' else None
        | None => None
        end
  end.

Definition hasUnderscore (s : string) : bool :=
  existsb (Ascii.eqb "_") (list_ascii_of_string s).

(** The kind of the character [underscoreOK] saw last: nothing yet, a
    digit or a base prefix, an underscore, anything else. *)
Inductive Seen := SeenStart | SeenDigit | SeenUnderscore | SeenOther.

Fixpoint underscoreScan (hex : bool) (i : Seen) (s : string) : bool :=
  match s with
  | EmptyString =>
      match i with
      | SeenUnderscore => false
      | _ => true
      end
  | String a s' =>
      if ((48 <=? byte a) && (byte a <=? 57))
         || (hex && (97 <=? lower a) && (lower a <=? 102))
      then underscoreScan hex SeenDigit s'
      else if Ascii.eqb a "_" then
        match i with
        | SeenDigit => underscoreScan hex SeenUnderscore s'
        | _ => false
        end
      else
        match i with
        | SeenUnderscore => false
        | _ => underscoreScan hex SeenOther s'
        end
  end.

(** [underscoreOK]: underscores appear only between digits, or between
    a base prefix and a digit. *)
Definition underscoreOK (s : string) : bool :=
  let s :=
    match s with
    | String "-" s' => s'
    | String "+" s' => s'
    | _ => s
    end in
  match s with
  | String "0" (String p s') =>
      if (lower p =? 98) || (lower p =? 111) || (lower p =? 120)
      then underscoreScan (lower p =? 120) SeenDigit s'
      else underscoreScan false SeenStart s
  | _ => underscoreScan false SeenStart s
  end.

(** [strconv.ParseUint(s, 0, 64)] short of its range check. *)
Definition ParseUint0 (s : string) : option Z :=
  match s with
  | EmptyString => None
  | String "0" (String p (String a s')) =>
      let n :=
        if lower p =? 98 then digits0 2 0 (String a s')
        else if lower p =? 111 then digits0 8 0 (String a s')
        else if lower p =? 120 then digits0 16 0 (String a s')
        else digits0 8 0 (String p (String a s')) in
      match n with
      | Some n => if hasUnderscore s && negb (underscoreOK s) then None else Some n
      | None => None
      end
  | String "0" s' =>
      match digits0 8 0 s' with
      | Some n => if hasUnderscore s && negb (underscoreOK s) then None else Some n
      | None => None
      end
  | _ =>
      match digits0 10 0 s with
      | Some n => if hasUnderscore s && negb (underscoreOK s) then None else Some n
      | None => None
      end
  end.

(** [strconv.ParseInt(s, 0, 64)]: an optional sign, then an unsigned
    number in the base its prefix announces; a syntax error or a value
    outside the int64 range is an error ([None]). *)
Definition ParseInt0 (s : string) : option Z :=
  match s with
  | EmptyString => None
  | String "+" s' =>
      match ParseUint0 s' with
      | Some n => if n <? 2 ^ 63 then Some n else None
      | None => None
      end
  | String "-" s' =>
      match ParseUint0 s' with
      | Some n => if n <=? 2 ^ 63 then Some (- n) else None
      | None => None
      end
  | _ =>
      match ParseUint0 s with
      | Some n => if n <? 2 ^ 63 then Some n else None
      | None => None
      end
  end.

Definition digit_char (d : Z) : ascii := ascii_of_nat (Z.to_nat (48 + d)).

Fixpoint itoa_pos (fuel : nat) (n : Z) (acc : string) : string :=
  match fuel with
  | O => acc
  | S fuel' =>
      let acc' := String (digit_char (n mod 10)) acc in
      if n <? 10 then acc' else itoa_pos fuel' (n / 10) acc'
  end.

(** The [%d] verb of [fmt]: decimal rendering of an integer. *)
Definition Itoa (n : Z) : string :=
  if n <? 0 then String "-" (itoa_pos 20 (- n) EmptyString)
  else itoa_pos 20 n EmptyString.

End strconv.

(** ** [unicode/utf8] *)

Module utf8.

(** A continuation byte within [lo, hi]. *)
Definition within (a : ascii) (lo hi : Z) : bool :=
  (lo <=? strconv.byte a) && (strconv.byte a <=? hi).

(** [utf8.ValidString]: the bytes are a sequence of well-formed UTF-8
    encodings. A byte below 128 stands for itself; 194 to 223 start a
    two-byte, 224 to 239 a three-byte, 240 to 244 a four-byte
    encoding, whose second byte is narrowed after 224, 237, 240 and 244
    (no overlong form, no surrogate, nothing above U+10FFFF); every
    other byte is invalid where an encoding starts. *)
Fixpoint ValidString (s : string) : bool :=
  match s with
  | EmptyString => true
  | String a s1 =>
      let b := strconv.byte a in
      if b <? 128 then ValidString s1
      else if (194 <=? b) && (b <=? 223) then
        match s1 with
        | String c1 s2 => within c1 128 191 && ValidString s2
        | _ => false
        end
      else if (224 <=? b) && (b <=? 239) then
        match s1 with
        | String c1 (String c2 s3) =>
            within c1 (if b =? 224 then 160 else 128) (if b =? 237 then 159 else 191)
            && within c2 128 191 && ValidString s3
        | _ => false
        end
      else if (240 <=? b) && (b <=? 244) then
        match s1 with
        | String c1 (String c2 (String c3 s4)) =>
            within c1 (if b =? 240 then 144 else 128) (if b =? 244 then 143 else 191)
            && within c2 128 191 && within c3 128 191 && ValidString s4
        | _ => false
        end
      else false
  end.

End utf8.

(** ** [time]: durations are int64 nanoseconds *)

Module time.

Definition Nanosecond : Z := 1.
Definition Second : Z := 1000000000.

(** An instant, in nanoseconds since the Unix epoch. *)
Definition Time := Z.

(** The zero [time.Time], January 1 of year 1 UTC. *)
Definition zero : Time := -62135596800 * Second.

(** [time.Unix(sec, 0)]. *)
Definition Unix (sec : Z) : Time := sec * Second.

(** [t.Sub(u)]: the difference, saturated to the Duration range. *)
Definition Sub (t u : Time) : Z :=
  Z.max int64.min (Z.min int64.max (t - u)).

(** [time.Until(t)] evaluated when the clock reads [now]. *)
Definition Until (now t : Time) : Z := Sub t now.

End time.

(** ** [net/http]: headers, requests, responses *)

Module http.

Abbreviation Header := (gmap string (list string)).

Definition is_lower (a : ascii) : bool :=
  let n := nat_of_ascii a in (97 <=? n)%nat && (n <=? 122)%nat.
Definition is_upper (a : ascii) : bool :=
  let n := nat_of_ascii a in (65 <=? n)%nat && (n <=? 90)%nat.
Definition to_upper (a : ascii) : ascii :=
  if is_lower a then ascii_of_nat (nat_of_ascii a - 32) else a.
Definition to_lower (a : ascii) : ascii :=
  if is_upper a then ascii_of_nat (nat_of_ascii a + 32) else a.

(** [textproto.CanonicalMIMEHeaderKey] on header names made of token
    characters: the first letter and every letter after a hyphen in
    upper case, all others in lower case. *)
Fixpoint canonical (upper : bool) (s : string) : string :=
  match s with
  | EmptyString => EmptyString
  | String a s' =>
      String (if upper then to_upper a else to_lower a)
             (canonical (Ascii.eqb a "-") s')
  end.

Definition CanonicalHeaderKey (s : string) : string := canonical true s.

(** [Header.Get]: the first value stored under the canonical key, the
    empty string when there is none. *)
Definition Header_Get (h : Header) (key : string) : string :=
  match h !! CanonicalHeaderKey key with
  | Some (v :: _) => v
  | _ => EmptyString
  end.

(** [Header.Set]: replaces whatever was stored under the key. *)
Definition Header_Set (h : Header) (key value : string) : Header :=
  <[CanonicalHeaderKey key := [value]]> h.

Definition MethodGet : string := "GET".
Definition StatusOK : Z := 200.
Definition StatusForbidden : Z := 403.
Definition StatusTooManyRequests : Z := 429.

Record Request := mkRequest {
  Method : string;
  URL : string;
  ReqHeader : Header
}.

Record Response := mkResponse {
  StatusCode : Z;
  RespHeader : Header;
  Body : string
}.

End http.

(** ** Errors

    One constructor per error value the program builds with
    [fmt.Errorf]; [External] stands for the errors handed over by
    [net/http], [net/url], [encoding/json] and [envconfig]. The three
    last constructors wrap their cause ([%w]). *)

Inductive error :=
| External (msg : string)
| ErrSecondaryRateLimited (url : string) (retries : Z)
| ErrPrimaryRateLimited (url : string) (retries : Z)
| ErrUnexpectedStatus (status : Z) (url : string)
| ErrExceededMaxRetries (url : string)
| ErrListingSeatsPage (page : Z) (cause : error)
| ErrGettingUsage (user : string) (cause : error)
| ErrListingSeats (cause : error).

Definition dquote : string := String (ascii_of_nat 34) EmptyString.
Definition backslash : ascii := ascii_of_nat 92.

Definition hexDigit (d : Z) : ascii :=
  ascii_of_nat (Z.to_nat (if d <? 10 then 48 + d else 87 + d)).

(** How [strconv.Quote] writes one ASCII character: the double quote
    and the backslash behind a backslash, the control characters that
    have a letter escape by that letter, the other control characters
    and DEL as [\x] with two hexadecimal digits, and every printable
    character as it is. *)
Definition quoteASCII (a : ascii) : string :=
  let b := strconv.byte a in
  if (b =? 34) || (b =? 92) then String backslash (String a EmptyString)
  else if b =? 7 then String backslash "a"
  else if b =? 8 then String backslash "b"
  else if b =? 12 then String backslash "f"
  else if b =? 10 then String backslash "n"
  else if b =? 13 then String backslash "r"
  else if b =? 9 then String backslash "t"
  else if b =? 11 then String backslash "v"
  else if (b <? 32) || (b =? 127)
  then String backslash
         (String "x" (String (hexDigit (b / 16)) (String (hexDigit (b mod 16)) EmptyString)))
  else String a EmptyString.

(** The [%q] verb of [fmt] on ASCII text, which is all the program
    renders with it when the logins are GitHub logins. For a byte
    above 127 Go decides by the Unicode tables whether the character it
    belongs to is printed as it is or escaped; this rendering keeps
    such bytes as they are and is exact only when their characters are
    printable. No property below reads the quoted text of such a
    string. *)
Fixpoint quote_body (s : string) : string :=
  match s with
  | EmptyString => EmptyString
  | String a s' =>
      (if strconv.byte a <? 128 then quoteASCII a else String a EmptyString)
      ++ quote_body s'
  end.

Definition Quote (s : string) : string := dquote ++ quote_body s ++ dquote.

(** The [Error()] text of an error value. *)
Fixpoint Error (e : error) : string :=
  match e with
  | External msg => msg
  | ErrSecondaryRateLimited url n =>
      "secondary rate limited on " ++ url ++ " after " ++ strconv.Itoa n ++ " retries"
  | ErrPrimaryRateLimited url n =>
      "primary rate limited on " ++ url ++ " after " ++ strconv.Itoa n ++ " retries"
  | ErrUnexpectedStatus st url =>
      "unexpected status " ++ strconv.Itoa st ++ " for " ++ url
  | ErrExceededMaxRetries url =>
      "get " ++ url ++ ": exceeded max retries"
  | ErrListingSeatsPage page cause =>
      "listing copilot seats page " ++ strconv.Itoa page ++ ": " ++ Error cause
  | ErrGettingUsage user cause =>
      "getting premium usage for user " ++ Quote user ++ ": " ++ Error cause
  | ErrListingSeats cause =>
      "listing copilot seats: " ++ Error cause
  end.

(** [json.NewDecoder(body).Decode(&out)] for a target of type [T]: the
    target after decoding and the text of the decoder's error, if any.
    The decoder belongs to [encoding/json]; the program is verified
    against every decoder. *)
Class Unmarshal (T : Type) := Decode : string -> T -> T * option string.

(** ** [internal/github/model.go] *)

Record Assignee := mkAssignee { Login : string }.

Record CopilotSeat := mkCopilotSeat { Seat_Assignee : Assignee }.

Record SeatsResponse := mkSeatsResponse {
  TotalSeats : Z;
  Seats : list CopilotSeat
}.

Record UsageItem (float64 : Type) := mkUsageItem {
  Product : string;
  SKU : string;
  Model : string;
  UnitType : string;
  PricePerUnit : float64;
  GrossQuantity : float64;
  GrossAmount : float64;
  DiscountQuantity : float64;
  DiscountAmount : float64;
  NetQuantity : float64;
  NetAmount : float64
}.
Arguments mkUsageItem {float64}.
Arguments Product {float64}.
Arguments SKU {float64}.
Arguments Model {float64}.
Arguments UnitType {float64}.
Arguments PricePerUnit {float64}.
Arguments GrossQuantity {float64}.
Arguments GrossAmount {float64}.
Arguments DiscountQuantity {float64}.
Arguments DiscountAmount {float64}.
Arguments NetQuantity {float64}.
Arguments NetAmount {float64}.

Record UsageResponse (float64 : Type) := mkUsageResponse {
  Enterprise : string;
  User : string;
  UsageItems : list (UsageItem float64)
}.
Arguments mkUsageResponse {float64}.
Arguments Enterprise {float64}.
Arguments User {float64}.
Arguments UsageItems {float64}.

(** The zero values the callers decode into ([var resp ...]). *)
Definition zeroSeatsResponse : SeatsResponse :=
  {| TotalSeats := 0; Seats := [] |}.
Definition zeroUsageResponse {float64} : UsageResponse float64 :=
  {| Enterprise := EmptyString; User := EmptyString; UsageItems := [] |}.

(** ** [internal/metrics.go]: three gauge series over one label set *)

Module internal.

(** The label names, in the order the gauge vectors declare them. *)
Definition labels : list string := ["user"; "sku"; "model"; "enterprise"].

End internal.

(** A [prometheus.Labels] literal giving a value to each of the four
    label names. *)
Record Labels := mkLabels {
  user : string;
  sku : string;
  model : string;
  enterprise : string
}.

(** The label values in declaration order identify one time series. *)
Definition labelValues (l : Labels) : string * string * string * string :=
  (user l, sku l, model l, enterprise l).

(** A [*prometheus.GaugeVec]: the current value of every time series. *)
Abbreviation GaugeVec float64 := (gmap (string * string * string * string) float64).

Inductive Series := RequestAmount | RequestCostGross | RequestCostDiscount.

(** The exposed gauge state: the three package-level gauge vectors. *)
Record Gauges (float64 : Type) := mkGauges {
  gRequestAmount : GaugeVec float64;
  gRequestCostGross : GaugeVec float64;
  gRequestCostDiscount : GaugeVec float64
}.
Arguments mkGauges {float64}.
Arguments gRequestAmount {float64}.
Arguments gRequestCostGross {float64}.
Arguments gRequestCostDiscount {float64}.

Inductive GaugeOp (float64 : Type) :=
| Reset (g : Series)
| SetValue (g : Series) (l : Labels) (v : float64).
Arguments Reset {float64}.
Arguments SetValue {float64}.

Definition series {float64} (g : Series) (G : Gauges float64) : GaugeVec float64 :=
  match g with
  | RequestAmount => gRequestAmount G
  | RequestCostGross => gRequestCostGross G
  | RequestCostDiscount => gRequestCostDiscount G
  end.

Definition setSeries {float64} (g : Series) (m : GaugeVec float64)
    (G : Gauges float64) : Gauges float64 :=
  match g with
  | RequestAmount =>
      mkGauges m (gRequestCostGross G) (gRequestCostDiscount G)
  | RequestCostGross =>
      mkGauges (gRequestAmount G) m (gRequestCostDiscount G)
  | RequestCostDiscount =>
      mkGauges (gRequestAmount G) (gRequestCostGross G) m
  end.

(** [g.With(l)] checks the label values before it looks up the series:
    a value that is not valid UTF-8 makes [GetMetricWith] fail and
    [With] panic. *)
Definition validLabels (l : Labels) : bool :=
  utf8.ValidString (user l) && utf8.ValidString (sku l)
  && utf8.ValidString (model l) && utf8.ValidString (enterprise l).

(** Whether a gauge operation panics: [g.Reset()] never does,
    [g.With(l).Set(v)] does in [With] when [l] has an invalid value. *)
Definition withPanics {float64} (op : GaugeOp float64) : bool :=
  match op with
  | Reset _ => false
  | SetValue _ l _ => negb (validLabels l)
  end.

(** What an operation that does not panic does to the gauges:
    [g.Reset()] deletes every series; [g.With(l).Set(v)] creates or
    overwrites the series labelled [l]. *)
Definition applyOp {float64} (op : GaugeOp float64) (G : Gauges float64)
    : Gauges float64 :=
  match op with
  | Reset g => setSeries g ∅ G
  | SetValue g l v => setSeries g (<[labelValues l := v]> (series g G)) G
  end.

(** ** [internal/github/client.go]: the client and its world *)

Definition apiBase : string := "https://api.github.com".
Definition apiVersion : string := "2022-11-28".
Definition maxRetries : Z := 3.
Definition defaultFallbackSleep : Z := 60 * time.Second.
Definition rateLimitResetBuffer : Z := 5 * time.Second.

(** [httpClient] and [logger] are references; the client never looks
    inside them. *)
Record Client := mkClient {
  httpClient : nat;
  token : string;
  logger : nat;
  rateLimitRemaining : Z;
  rateLimitReset : time.Time
}.

Definition NewClient (tok : string) (lg : nat) (fresh : nat) : Client :=
  {| httpClient := fresh;
     token := tok;
     logger := lg;
     rateLimitRemaining := -1;
     rateLimitReset := time.zero |}.

Inductive Level := Info | Warn.

(** What the program does to the outside, in the order it does it. *)
Inductive Event (float64 : Type) :=
| EvRequest (req : http.Request)
| EvSleep (d : Z)
| EvLog (lvl : Level) (msg : string)
| EvLock
| EvUnlock
| EvGauge (op : GaugeOp float64).
Arguments EvRequest {float64}.
Arguments EvSleep {float64}.
Arguments EvLog {float64}.
Arguments EvLock {float64}.
Arguments EvUnlock {float64}.
Arguments EvGauge {float64}.

(** The outside of the client: the error [http.NewRequest] reports for
    a URL, if any, and what the transport answers to the [n]-th request
    sent, a response or the text of a transport error. Any run of the
    program in which every request is answered is a run against one
    such environment.

    The client is an [http.Client{}] without a timeout, so in the
    program [Do] may also never come back. A call that waits for ever
    for an answer does not return and does nothing more; such runs are
    not runs of this model, and what is proved of a call that returns
    is proved of the runs in which its requests were answered. *)
Record Env := mkEnv {
  newRequestError : string -> option string;
  roundTrip : nat -> http.Request -> http.Response + string
}.

Record State (float64 : Type) := mkState {
  client : Client;
  now : time.Time;
  trace : list (Event float64);
  gauges : Gauges float64
}.
Arguments mkState {float64}.
Arguments client {float64}.
Arguments now {float64}.
Arguments trace {float64}.
Arguments gauges {float64}.

Definition requestsOf {float64} (tr : list (Event float64)) : list http.Request :=
  omap (fun ev => match ev with EvRequest r => Some r | _ => None end) tr.

Definition sleepsOf {float64} (tr : list (Event float64)) : list Z :=
  omap (fun ev => match ev with EvSleep d => Some d | _ => None end) tr.

Definition gaugeOpsOf {float64} (tr : list (Event float64)) : list (GaugeOp float64) :=
  omap (fun ev => match ev with EvGauge op => Some op | _ => None end) tr.

(** Computations that read and write the state. [None] is a run that
    does not return to its caller: an unbounded loop that has not ended
    within the fuel it was given, or a panic, which nothing in the
    program recovers from. *)
Definition M (float64 A : Type) : Type := State float64 -> option (A * State float64).

Definition ret {float64 A} (a : A) : M float64 A := fun s => Some (a, s).

Definition bind {float64 A B} (m : M float64 A) (k : A -> M float64 B) : M float64 B :=
  fun s => match m s with
           | Some (a, s') => k a s'
           | None => None
           end.

Notation "x <- m ;; k" := (bind m (fun x => k))
  (at level 100, m at next level, right associativity).
Notation "m ;; k" := (bind m (fun _ => k))
  (at level 100, right associativity).

Definition emit {float64} (ev : Event float64) : M float64 unit :=
  fun s => Some (tt, mkState (client s) (now s) (trace s ++ [ev]) (gauges s)).

Definition getClient {float64} : M float64 Client :=
  fun s => Some (client s, s).

Definition setClient {float64} (c : Client) : M float64 unit :=
  fun s => Some (tt, mkState c (now s) (trace s) (gauges s)).

Definition getNow {float64} : M float64 time.Time :=
  fun s => Some (now s, s).

(** [time.Sleep(d)]: returns at once for [d <= 0], else the clock has
    advanced by [d]. *)
Definition Sleep {float64} (d : Z) : M float64 unit :=
  fun s => Some (tt, mkState (client s) (now s + Z.max 0 d)
                             (trace s ++ [EvSleep d]) (gauges s)).

Definition logInfo {float64} (msg : string) : M float64 unit := emit (EvLog Info msg).
Definition logWarn {float64} (msg : string) : M float64 unit := emit (EvLog Warn msg).

(** [g.Reset()] and [g.With(l).Set(v)] on the package-level gauges. *)
Definition gaugeOp {float64} (op : GaugeOp float64) : M float64 unit :=
  fun s =>
    if withPanics op then None
    else Some (tt, mkState (client s) (now s) (trace s ++ [EvGauge op])
                           (applyOp op (gauges s))).

(** [c.httpClient.Do(req)], when it comes back. *)
Definition Do {float64} (env : Env) (req : http.Request)
    : M float64 (http.Response + string) :=
  fun s => Some (roundTrip env (length (requestsOf (trace s))) req,
                 mkState (client s) (now s) (trace s ++ [EvRequest req]) (gauges s)).

(** [range n] of a [for attempt := range n] loop. *)
Definition range (n : Z) : list Z := map Z.of_nat (seq 0 (Z.to_nat n)).

Definition updateRateLimit (c : Client) (resp : http.Response) : Client :=
  let c1 :=
    let s := http.Header_Get (http.RespHeader resp) "X-RateLimit-Remaining" in
    if negb (String.eqb s EmptyString) then
      match strconv.Atoi s with
      | Some n => mkClient (httpClient c) (token c) (logger c) n (rateLimitReset c)
      | None => c
      end
    else c in
  let s := http.Header_Get (http.RespHeader resp) "X-RateLimit-Reset" in
  if negb (String.eqb s EmptyString) then
    match strconv.ParseInt s with
    | Some unix =>
        mkClient (httpClient c1) (token c1) (logger c1) (rateLimitRemaining c1)
                 (time.Unix unix)
    | None => c1
    end
  else c1.

Definition setHeaders (c : Client) (req : http.Request) : http.Request :=
  let h := http.Header_Set (http.ReqHeader req) "Accept" "application/vnd.github+json" in
  let h := http.Header_Set h "Authorization" ("Bearer " ++ token c) in
  let h := http.Header_Set h "X-GitHub-Api-Version" apiVersion in
  http.mkRequest (http.Method req) (http.URL req) h.

Section Client.

Context {float64 : Type}.
Variable env : Env.

Local Abbreviation M := (M float64).

(** Handles a 429 response: sleeps for the duration given by the
    [Retry-After] header, or for [defaultFallbackSleep]. Draining and
    closing the body leaves no trace in the state. *)
Definition sleepSecondaryRateLimit (resp : http.Response) : M Z :=
  let s := http.Header_Get (http.RespHeader resp) "Retry-After" in
  let fallback := Sleep defaultFallbackSleep ;; ret defaultFallbackSleep in
  if negb (String.eqb s EmptyString) then
    match strconv.ParseInt s with
    | Some secs =>
        if 0 <? secs then
          let d := int64.mul secs time.Second in
          Sleep d ;; ret d
        else fallback
    | None => fallback
    end
  else fallback.

(** Handles a 403 response with [X-RateLimit-Remaining: 0]: sleeps until
    the reset time plus the buffer, or for [defaultFallbackSleep]. *)
Definition sleepPrimaryRateLimit (resp : http.Response) : M Z :=
  let s := http.Header_Get (http.RespHeader resp) "X-RateLimit-Reset" in
  let fallback := Sleep defaultFallbackSleep ;; ret defaultFallbackSleep in
  if negb (String.eqb s EmptyString) then
    match strconv.ParseInt s with
    | Some unix =>
        t <- getNow ;;
        let d := int64.add (time.Until t (time.Unix unix)) rateLimitResetBuffer in
        if 0 <? d then Sleep d ;; ret d else fallback
    | None => fallback
    end
  else fallback.

(** The wait before the first request of [get]. *)
Definition preemptiveWait : M unit :=
  c <- getClient ;;
  if rateLimitRemaining c =? 0 then
    t <- getNow ;;
    let d := int64.add (time.Until t (rateLimitReset c)) rateLimitResetBuffer in
    if 0 <? d then
      logInfo "preemptively waiting for github rate limit reset" ;;
      Sleep d
    else ret tt
  else ret tt.

(** One turn of the retry loop of [get]: [Some] is a [return], [None]
    falls through to the next attempt. *)
Definition getAttempt {T} `{Unmarshal T} (attempt : Z) (url : string) (out : T)
    : M (option (T * option error)) :=
  match newRequestError env url with
  | Some err => ret (Some (out, Some (External err)))
  | None =>
      c <- getClient ;;
      let req := setHeaders c (http.mkRequest http.MethodGet url ∅) in
      r <- Do env req ;;
      match r with
      | inr err => ret (Some (out, Some (External err)))
      | inl resp =>
          if http.StatusCode resp =? http.StatusOK then
            c <- getClient ;;
            setClient (updateRateLimit c resp) ;;
            let '(out', err) := Decode (http.Body resp) out in
            ret (Some (out', External <$> err))
          else if http.StatusCode resp =? http.StatusTooManyRequests then
            let retriesRemaining := maxRetries - attempt - 1 in
            waited <- sleepSecondaryRateLimit resp ;;
            logWarn "github secondary rate limit hit" ;;
            if retriesRemaining =? 0 then
              ret (Some (out, Some (ErrSecondaryRateLimited url maxRetries)))
            else ret None
          else if http.StatusCode resp =? http.StatusForbidden then
            if negb (String.eqb
                       (http.Header_Get (http.RespHeader resp) "X-RateLimit-Remaining")
                       "0") then
              ret (Some (out, Some (ErrUnexpectedStatus (http.StatusCode resp) url)))
            else
              let retriesRemaining := maxRetries - attempt - 1 in
              waited <- sleepPrimaryRateLimit resp ;;
              logWarn "github primary rate limit hit" ;;
              if retriesRemaining =? 0 then
                ret (Some (out, Some (ErrPrimaryRateLimited url maxRetries)))
              else ret None
          else
            ret (Some (out, Some (ErrUnexpectedStatus (http.StatusCode resp) url)))
      end
  end.

Fixpoint getLoop {T} `{Unmarshal T} (attempts : list Z) (url : string) (out : T)
    : M (T * option error) :=
  match attempts with
  | [] => ret (out, Some (ErrExceededMaxRetries url))
  | attempt :: rest =>
      r <- getAttempt attempt url out ;;
      match r with
      | Some res => ret res
      | None => getLoop rest url out
      end
  end.

Definition get {T} `{Unmarshal T} (url : string) (out : T) : M (T * option error) :=
  preemptiveWait ;;
  getLoop (range maxRetries) url out.

Definition perPage : Z := 100.

Definition seatsURL (enterprise : string) (page : Z) : string :=
  apiBase ++ "/enterprises/" ++ enterprise
          ++ "/copilot/billing/seats?per_page=" ++ strconv.Itoa perPage
          ++ "&page=" ++ strconv.Itoa page.

(** The [for { ... }] loop of [ListCopilotSeats]; one unit of fuel per
    page. *)
Fixpoint listSeatsLoop `{Unmarshal SeatsResponse} (fuel : nat) (enterprise : string)
    (page : Z) (logins : list string) : M (list string + error) :=
  match fuel with
  | O => fun _ => None
  | S fuel' =>
      r <- get (seatsURL enterprise page) zeroSeatsResponse ;;
      match r with
      | (_, Some err) => ret (inr (ErrListingSeatsPage page err))
      | (resp, None) =>
          let logins := (logins ++ map (fun seat => Login (Seat_Assignee seat)) (Seats resp))%list in
          if Z.of_nat (length (Seats resp)) <? perPage then ret (inl logins)
          else listSeatsLoop fuel' enterprise (int64.add page 1) logins
      end
  end.

Definition ListCopilotSeats `{Unmarshal SeatsResponse} (fuel : nat)
    (enterprise : string) : M (list string + error) :=
  listSeatsLoop fuel enterprise 1 [].

Definition usageURL (enterprise user : string) : string :=
  apiBase ++ "/enterprises/" ++ enterprise
          ++ "/settings/billing/premium_request/usage?user=" ++ user.

Definition GetUserPremiumUsage `{Unmarshal (UsageResponse float64)}
    (enterprise user : string) : M (UsageResponse float64 + error) :=
  r <- get (usageURL enterprise user) zeroUsageResponse ;;
  match r with
  | (_, Some err) => ret (inr (ErrGettingUsage user err))
  | (resp, None) => ret (inl resp)
  end.

End Client.

(** ** [cmd/main.go]: the collection cycle *)

Record metricEntry (float64 : Type) := mkMetricEntry {
  labels : Labels;
  grossQuantity : float64;
  grossAmount : float64;
  discountAmount : float64
}.
Arguments mkMetricEntry {float64}.
Arguments labels {float64}.
Arguments grossQuantity {float64}.
Arguments grossAmount {float64}.
Arguments discountAmount {float64}.

(** The observation built from one usage item of one user. *)
Definition entryOf {float64} (enterprise login : string) (item : UsageItem float64)
    : metricEntry float64 :=
  {| labels := {| user := login;
                  sku := SKU item;
                  model := Model item;
                  enterprise := enterprise |};
     grossQuantity := GrossQuantity item;
     grossAmount := GrossAmount item;
     discountAmount := DiscountAmount item |}.

(** The three [Set] calls made for one entry. *)
Definition setOps {float64} (e : metricEntry float64) : list (GaugeOp float64) :=
  [ SetValue RequestAmount (labels e) (grossQuantity e);
    SetValue RequestCostGross (labels e) (grossAmount e);
    SetValue RequestCostDiscount (labels e) (discountAmount e) ].

(** Everything [collect] does to the gauges between [Lock] and
    [Unlock], in program order. *)
Definition publishOps {float64} (entries : list (metricEntry float64))
    : list (GaugeOp float64) :=
  [ Reset RequestAmount; Reset RequestCostGross; Reset RequestCostDiscount ]
  ++ flat_map setOps entries.

Section Main.

Context {float64 : Type}.
Variable env : Env.
Context `{!Unmarshal SeatsResponse} `{!Unmarshal (UsageResponse float64)}.

Local Abbreviation M := (M float64).

(** The loop over the seat holders: a failed fetch is logged and the
    user skipped. *)
Fixpoint collectEntries (enterprise : string) (logins : list string)
    (entries : list (metricEntry float64)) : M (list (metricEntry float64)) :=
  match logins with
  | [] => ret entries
  | login :: rest =>
      r <- GetUserPremiumUsage env enterprise login ;;
      match r with
      | inr err =>
          logWarn "failed to get usage for user" ;;
          collectEntries enterprise rest entries
      | inl usage =>
          collectEntries enterprise rest
            (entries ++ map (entryOf enterprise login) (UsageItems usage))%list
      end
  end.

(** The loop that sets the three gauges of every entry. *)
Fixpoint setEntries (entries : list (metricEntry float64)) : M unit :=
  match entries with
  | [] => ret tt
  | e :: rest =>
      gaugeOp (SetValue RequestAmount (labels e) (grossQuantity e)) ;;
      gaugeOp (SetValue RequestCostGross (labels e) (grossAmount e)) ;;
      gaugeOp (SetValue RequestCostDiscount (labels e) (discountAmount e)) ;;
      setEntries rest
  end.

Definition collect (fuel : nat) (enterprise : string) : M (option error) :=
  r <- ListCopilotSeats env fuel enterprise ;;
  match r with
  | inr err => ret (Some (ErrListingSeats err))
  | inl logins =>
      logInfo "found copilot seat holders" ;;
      entries <- collectEntries enterprise logins [] ;;
      emit EvLock ;;
      gaugeOp (Reset RequestAmount) ;;
      gaugeOp (Reset RequestCostGross) ;;
      gaugeOp (Reset RequestCostDiscount) ;;
      setEntries entries ;;
      emit EvUnlock ;;
      ret None
  end.

End Main.

(** ** [internal/config/config.go] *)

Module config.

Record GithubConfig := mkGithubConfig {
  Token : string;
  Enterprise : string
}.

Record Config := mkConfig {
  LogLevel : string;
  LogDebug : bool;
  WorkerInterval : Z;
  Github : GithubConfig
}.

Definition appConfPrefix : string := "CPUE".

(** [var conf Config] *)
Definition zero : Config :=
  {| LogLevel := EmptyString; LogDebug := false; WorkerInterval := 0;
     Github := {| Token := EmptyString; Enterprise := EmptyString |} |}.

(** [envconfig.Process(prefix, &conf)] belongs to the envconfig
    library: it fills [conf] from the process environment and may
    report an error. [Load] is verified against every such function. *)
Definition Processor := string -> Config -> Config * option error.

Definition Load (Process : Processor) : Config * option error :=
  let '(conf, err) := Process appConfPrefix zero in
  let conf :=
    if String.eqb (LogLevel conf) EmptyString
    then mkConfig "info" (LogDebug conf) (WorkerInterval conf) (Github conf)
    else conf in
  let conf :=
    if WorkerInterval conf =? 0
    then mkConfig (LogLevel conf) (LogDebug conf) 3600 (Github conf)
    else conf in
  (conf, err).

End config.

(** A model of [envconfig.Process] on [Config]: every field is looked
    up under [PREFIX_FIELDNAME] in upper case (fields of the nested
    struct under [PREFIX_GITHUB_FIELDNAME]); an unset variable leaves
    its field as it is; a boolean is read by [strconv.ParseBool], the
    integer by [strconv.ParseInt(v, 0, 64)]; a value that fails to
    parse ends processing with an error and leaves that field and all
    later ones as they are. *)
Module envconfig.

Import config.

Abbreviation Environ := (gmap string string).

(** [strconv.ParseBool] *)
Definition ParseBool (s : string) : option bool :=
  if existsb (String.eqb s) ["1"; "t"; "T"; "TRUE"; "true"; "True"] then Some true
  else if existsb (String.eqb s) ["0"; "f"; "F"; "FALSE"; "false"; "False"] then Some false
  else None.

Definition parseError (key : string) : error :=
  External ("envconfig.Process: assigning " ++ key ++ ": converting value").

Definition Process (environ : Environ) : Processor := fun prefix conf =>
  let conf :=
    match environ !! (prefix ++ "_LOGLEVEL") with
    | Some v => mkConfig v (LogDebug conf) (WorkerInterval conf) (Github conf)
    | None => conf
    end in
  let step2 :=
    match environ !! (prefix ++ "_LOGDEBUG") with
    | Some v =>
        match ParseBool v with
        | Some b => inl (mkConfig (LogLevel conf) b (WorkerInterval conf) (Github conf))
        | None => inr (parseError (prefix ++ "_LOGDEBUG"))
        end
    | None => inl conf
    end in
  match step2 with
  | inr err => (conf, Some err)
  | inl conf =>
      let step3 :=
        match environ !! (prefix ++ "_WORKERINTERVAL") with
        | Some v =>
            match strconv.ParseInt0 v with
            | Some n => inl (mkConfig (LogLevel conf) (LogDebug conf) n (Github conf))
            | None => inr (parseError (prefix ++ "_WORKERINTERVAL"))
            end
        | None => inl conf
        end in
      match step3 with
      | inr err => (conf, Some err)
      | inl conf =>
          let conf :=
            match environ !! (prefix ++ "_GITHUB_TOKEN") with
            | Some v => mkConfig (LogLevel conf) (LogDebug conf) (WorkerInterval conf)
                                 (mkGithubConfig v (Enterprise (Github conf)))
            | None => conf
            end in
          let conf :=
            match environ !! (prefix ++ "_GITHUB_ENTERPRISE") with
            | Some v => mkConfig (LogLevel conf) (LogDebug conf) (WorkerInterval conf)
                                 (mkGithubConfig (Token (Github conf)) v)
            | None => conf
            end in
          (conf, None)
      end
  end.

End envconfig.

(** ** The scrape handler running against one publication

    [metricsHandler] holds [collectMu.RLock] while the registry is
    gathered; [collect] holds [collectMu.Lock] from its first [Reset]
    to its last [Set]. The threads below take one step at a time in any
    order a scheduler may choose: the publisher takes the lock, applies
    [publishOps] one operation per step and releases the lock; every
    scraper takes the read lock, reads the three series one per step in
    any order, and releases it.

    An operation that panics is not applied: the deferred
    [collectMu.Unlock] runs, and the panic, which [worker] does not
    recover from, goes on to end the process. Until it has, the other
    threads may still take steps. *)

Record RWMutex := mkRWMutex {
  writer : bool;
  readers : nat
}.

Inductive Publisher (float64 : Type) :=
| PIdle
| PLocked (todo : list (GaugeOp float64))
| PDone
| PPanicked.
Arguments PIdle {float64}.
Arguments PLocked {float64}.
Arguments PDone {float64}.
Arguments PPanicked {float64}.

(** What a scrape has read so far. *)
Record Partial (float64 : Type) := mkPartial {
  pRequestAmount : option (GaugeVec float64);
  pRequestCostGross : option (GaugeVec float64);
  pRequestCostDiscount : option (GaugeVec float64)
}.
Arguments mkPartial {float64}.
Arguments pRequestAmount {float64}.
Arguments pRequestCostGross {float64}.
Arguments pRequestCostDiscount {float64}.

Inductive Scraper (float64 : Type) :=
| SIdle
| SReading (obs : Partial float64)
| SDone (seen : Gauges float64).
Arguments SIdle {float64}.
Arguments SReading {float64}.
Arguments SDone {float64}.

Record System (float64 : Type) := mkSystem {
  collectMu : RWMutex;
  exposed : Gauges float64;
  publisher : Publisher float64;
  scrapers : list (Scraper float64)
}.
Arguments mkSystem {float64}.
Arguments collectMu {float64}.
Arguments exposed {float64}.
Arguments publisher {float64}.
Arguments scrapers {float64}.

Inductive Action :=
| ALock
| AOp
| AUnlock
| ARLock (i : nat)
| ARead (i : nat) (g : Series)
| ARUnlock (i : nat).

Definition readSeries {float64} (g : Series) (G : Gauges float64)
    (obs : Partial float64) : Partial float64 :=
  match g with
  | RequestAmount =>
      mkPartial (Some (gRequestAmount G)) (pRequestCostGross obs) (pRequestCostDiscount obs)
  | RequestCostGross =>
      mkPartial (pRequestAmount obs) (Some (gRequestCostGross G)) (pRequestCostDiscount obs)
  | RequestCostDiscount =>
      mkPartial (pRequestAmount obs) (pRequestCostGross obs) (Some (gRequestCostDiscount G))
  end.

Definition complete {float64} (obs : Partial float64) : option (Gauges float64) :=
  match pRequestAmount obs, pRequestCostGross obs, pRequestCostDiscount obs with
  | Some a, Some b, Some c => Some (mkGauges a b c)
  | _, _, _ => None
  end.

(** One step of one thread; [None] when the thread cannot take that
    step in that state (a blocked lock operation, or not its turn in
    its own program). *)
Definition step {float64} (entries : list (metricEntry float64)) (a : Action)
    (s : System float64) : option (System float64) :=
  let mu := collectMu s in
  match a with
  | ALock =>
      match publisher s with
      | PIdle =>
          if negb (writer mu) && (readers mu =? 0)%nat
          then Some (mkSystem (mkRWMutex true (readers mu)) (exposed s)
                              (PLocked (publishOps entries)) (scrapers s))
          else None
      | _ => None
      end
  | AOp =>
      match publisher s with
      | PLocked (op :: todo) =>
          if withPanics op
          then Some (mkSystem (mkRWMutex false (readers mu)) (exposed s) PPanicked
                              (scrapers s))
          else Some (mkSystem mu (applyOp op (exposed s)) (PLocked todo) (scrapers s))
      | _ => None
      end
  | AUnlock =>
      match publisher s with
      | PLocked [] =>
          Some (mkSystem (mkRWMutex false (readers mu)) (exposed s) PDone (scrapers s))
      | _ => None
      end
  | ARLock i =>
      match scrapers s !! i with
      | Some SIdle =>
          if negb (writer mu)
          then Some (mkSystem (mkRWMutex (writer mu) (S (readers mu))) (exposed s)
                              (publisher s)
                              (<[i := SReading (mkPartial None None None)]> (scrapers s)))
          else None
      | _ => None
      end
  | ARead i g =>
      match scrapers s !! i with
      | Some (SReading obs) =>
          Some (mkSystem mu (exposed s) (publisher s)
                         (<[i := SReading (readSeries g (exposed s) obs)]> (scrapers s)))
      | _ => None
      end
  | ARUnlock i =>
      match scrapers s !! i with
      | Some (SReading obs) =>
          match complete obs with
          | Some seen =>
              Some (mkSystem (mkRWMutex (writer mu) (Nat.pred (readers mu))) (exposed s)
                             (publisher s) (<[i := SDone seen]> (scrapers s)))
          | None => None
          end
      | _ => None
      end
  end.

(** A schedule is the list of steps taken, in order. *)
Fixpoint run {float64} (entries : list (metricEntry float64)) (schedule : list Action)
    (s : System float64) : option (System float64) :=
  match schedule with
  | [] => Some s
  | a :: rest =>
      match step entries a s with
      | Some s' => run entries rest s'
      | None => None
      end
  end.

(** Before the cycle publishes: the previous snapshot is exposed, the
    lock is free, [n] scrapes have not started. *)
Definition initial {float64} (old : Gauges float64) (n : nat) : System float64 :=
  mkSystem (mkRWMutex false 0) old PIdle (replicate n SIdle).

(** The gauge state that exposes exactly the snapshot [entries]. *)
Definition published {float64} (entries : list (metricEntry float64)) : Gauges float64 :=
  fold_left (fun G op => applyOp op G) (flat_map setOps entries) (mkGauges ∅ ∅ ∅).

(** ** Concrete servers, decoders and states used in the examples *)

Module Scenario.

(** A decoder given by its table: a body listed in the table decodes to
    the value next to it; any other body is rejected, the empty one
    with the end-of-input error [encoding/json] reports for it. *)
Definition tableDecoder {T} (tbl : list (string * T)) : Unmarshal T :=
  fun body out =>
    match list_find (fun p => String.eqb (fst p) body = true) tbl with
    | Some (_, (_, v)) => (v, None)
    | None =>
        (out, Some (if String.eqb body EmptyString then "EOF"
                    else "invalid character looking for beginning of value"))
    end.

(** A server that answers the [n]-th request with the [n]-th entry of a
    script, whatever is asked, and refuses the connection afterwards. *)
Definition scriptEnv (script : list (http.Response + string)) : Env :=
  {| newRequestError := fun _ => None;
     roundTrip := fun n _ => nth n script (inr "connection refused") |}.

(** A server that answers by the URL asked for. *)
Definition routeEnv (route : string -> http.Response + string) : Env :=
  {| newRequestError := fun _ => None;
     roundTrip := fun _ req => route (http.URL req) |}.

Definition ok (body : string) : http.Response + string :=
  inl (http.mkResponse 200 ∅ body).

Definition status (code : Z) (hdr : list (string * string)) : http.Response + string :=
  inl (http.mkResponse code
         (fold_left (fun h kv => http.Header_Set h (fst kv) (snd kv)) hdr ∅) EmptyString).

Definition client0 : Client := NewClient "secret" 1 2.

Definition gauges0 : Gauges Z := mkGauges ∅ ∅ ∅.

(** A fresh process at 2023-11-14 22:13:20 UTC. *)
Definition state0 : State Z :=
  mkState client0 (time.Unix 1700000000) [] gauges0.

(** The same process after a response that reported the quota as used
    up until ten seconds from now. *)
Definition stateExhausted : State Z :=
  mkState (mkClient 1 "secret" 2 0 (time.Unix 1700000010))
          (time.Unix 1700000000) [] gauges0.

Definition seatsOf (logins : list string) : SeatsResponse :=
  {| TotalSeats := Z.of_nat (length logins);
     Seats := map (fun l => mkCopilotSeat (mkAssignee l)) logins |}.

(** [n] logins [prefix0], [prefix1], ... *)
Definition loginsFrom (prefix : string) (n : nat) : list string :=
  map (fun i => prefix ++ strconv.Itoa (Z.of_nat i)) (seq 0 n).

Definition item (s m : string) (q a d : Z) : UsageItem Z :=
  mkUsageItem "Copilot" s m "requests" 0 q a 0 d 0 0.

Definition usageOf (u : string) (items : list (UsageItem Z)) : UsageResponse Z :=
  {| Enterprise := "acme"; User := u; UsageItems := items |}.

(** Three pages of 100, 100 and 37 seats. *)
Definition page1 : SeatsResponse := seatsOf (loginsFrom "a" 100).
Definition page2 : SeatsResponse := seatsOf (loginsFrom "b" 100).
Definition page3 : SeatsResponse := seatsOf (loginsFrom "c" 37).

Definition seatsDecoder : Unmarshal SeatsResponse :=
  tableDecoder [("page-1", page1); ("page-2", page2); ("page-3", page3);
                ("no-seats", seatsOf []);
                ("abc", seatsOf ["A"; "B"; "C"])].

Definition usageA : UsageResponse Z :=
  usageOf "A" [item "copilot_premium_request" "gpt-5" 12 48 48].
Definition usageC : UsageResponse Z :=
  usageOf "C" [item "copilot_premium_request" "gpt-5" 3 12 0;
               item "copilot_premium_request" "o3" 1 4 4].

Definition usageDecoder : Unmarshal (UsageResponse Z) :=
  tableDecoder [("usage-A", usageA); ("usage-C", usageC)].

Definition threePages : Env := scriptEnv [ok "page-1"; ok "page-2"; ok "page-3"].

Definition emptyFirstPage : Env := scriptEnv [ok "no-seats"].

(** The URL of the first page of seats of the enterprise [acme]. *)
Definition url1 : string := seatsURL "acme" 1.

Definition tooMany : http.Response :=
  http.mkResponse 429 (http.Header_Set ∅ "Retry-After" "7") EmptyString.

(** A 429 asking for a wait of 9223372037 seconds. *)
Definition tooManyForLong : http.Response :=
  http.mkResponse 429 (http.Header_Set ∅ "Retry-After" "9223372037") EmptyString.

(** A 403 that is no rate-limit answer: no quota header at all. *)
Definition forbidden : http.Response := http.mkResponse 403 ∅ EmptyString.

(** A 200 without rate-limit headers, and one whose reset header is
    not a number. *)
Definition plainOK : http.Response := http.mkResponse 200 ∅ "page-1".
Definition vagueOK : http.Response :=
  http.mkResponse 200 (http.Header_Set ∅ "X-RateLimit-Reset" "soon") "page-1".

(** A 200 that reports the quota as used up until 22:13:30 UTC. *)
Definition quotaUsedUp : http.Response :=
  http.mkResponse 200
    (http.Header_Set (http.Header_Set ∅ "X-RateLimit-Remaining" "0")
                     "X-RateLimit-Reset" "1700000010")
    "page-1".

Definition quotaThenForbidden : Env := scriptEnv [inl quotaUsedUp; inl forbidden].

Definition always429ForLong : Env :=
  {| newRequestError := fun _ => None;
     roundTrip := fun _ _ => inl tooManyForLong |}.

Definition always429 : Env :=
  {| newRequestError := fun _ => None;
     roundTrip := fun _ _ => inl tooMany |}.

(** Seats A, B, C; the usage of B answers 500. *)
Definition usageOfBFails : Env :=
  routeEnv (fun url =>
    if String.eqb url (seatsURL "acme" 1) then ok "abc"
    else if String.eqb url (usageURL "acme" "A") then ok "usage-A"
    else if String.eqb url (usageURL "acme" "C") then ok "usage-C"
    else status 500 []).

(** The snapshot exposed before the cycle, the one the cycle publishes,
    and a schedule of three scrapes around the publication: two
    overlapping scrapes before it, one after it. *)
Definition oldGauges : Gauges Z :=
  published [entryOf "acme" "A" (item "copilot_premium_request" "gpt-5" 10 40 40)].

Definition newEntries : list (metricEntry Z) :=
  map (entryOf "acme" "A") (UsageItems usageA)
  ++ map (entryOf "acme" "C") (UsageItems usageC).

Definition threeScrapes : list Action :=
  [ARLock 0; ARead 0 RequestAmount; ARLock 1; ARead 1 RequestCostDiscount;
   ARead 0 RequestCostGross; ARead 0 RequestCostDiscount; ARUnlock 0;
   ARead 1 RequestAmount; ARead 1 RequestCostGross; ARUnlock 1;
   ALock]
  ++ replicate 12 AOp
  ++ [AUnlock;
      ARLock 2; ARead 2 RequestCostGross; ARead 2 RequestAmount;
      ARead 2 RequestCostDiscount; ARUnlock 2].

End Scenario.

(** ** Vocabulary of the properties *)

(** The request [get] builds for a URL. *)
Definition getRequest (c : Client) (url : string) : http.Request :=
  setHeaders c (http.mkRequest http.MethodGet url ∅).

(** The number of requests sent so far. *)
Definition sent {float64} (s : State float64) : nat := length (requestsOf (trace s)).

(** The duration [get] computes before its first request. *)
Definition preemptiveDelay (c : Client) (t : time.Time) : Z :=
  int64.add (time.Until t (rateLimitReset c)) rateLimitResetBuffer.

Definition waitsPreemptively (c : Client) (t : time.Time) : bool :=
  (rateLimitRemaining c =? 0) && (0 <? preemptiveDelay c t).

(** What [get] does before its first request. *)
Definition preemptiveEvents {float64} (c : Client) (t : time.Time) : list (Event float64) :=
  if waitsPreemptively c t
  then [EvLog Info "preemptively waiting for github rate limit reset";
        EvSleep (preemptiveDelay c t)]
  else [].

Definition afterWait {float64} (s : State float64) : State float64 :=
  mkState (client s)
          (if waitsPreemptively (client s) (now s)
           then now s + Z.max 0 (preemptiveDelay (client s) (now s)) else now s)
          (trace s ++ preemptiveEvents (client s) (now s))
          (gauges s).

(** The two rate-limit answers. *)
Definition isSecondaryLimit (resp : http.Response) : bool :=
  http.StatusCode resp =? http.StatusTooManyRequests.

Definition isPrimaryLimit (resp : http.Response) : bool :=
  (http.StatusCode resp =? http.StatusForbidden)
  && String.eqb (http.Header_Get (http.RespHeader resp) "X-RateLimit-Remaining") "0".

Definition isRateLimit (resp : http.Response) : bool :=
  isSecondaryLimit resp || isPrimaryLimit resp.

(** The error of a rate-limit answer that uses up the last retry. *)
Definition limitError (url : string) (resp : http.Response) : error :=
  if isSecondaryLimit resp then ErrSecondaryRateLimited url maxRetries
  else ErrPrimaryRateLimited url maxRetries.

(** Events of the client: requests, sleeps and log lines. *)
Definition ioEvent {float64} (ev : Event float64) : Prop :=
  match ev with
  | EvRequest _ | EvSleep _ | EvLog _ _ => True
  | _ => False
  end.

(** [s'] is [s] after client activity only: more client events in the
    trace, the rate-limit fields possibly updated, the gauges and the
    other client fields as they were. *)
Record extends {float64} (s s' : State float64) : Prop := mkExtends {
  ext_trace : exists evs, trace s' = (trace s ++ evs)%list /\ Forall ioEvent evs;
  ext_gauges : gauges s' = gauges s;
  ext_token : token (client s') = token (client s);
  ext_httpClient : httpClient (client s') = httpClient (client s);
  ext_logger : logger (client s') = logger (client s);
  ext_now : now s <= now s'
}.

(** The duration [sleepSecondaryRateLimit] sleeps for a response. *)
Definition secondaryDelay (resp : http.Response) : Z :=
  match strconv.ParseInt (http.Header_Get (http.RespHeader resp) "Retry-After") with
  | Some secs => if 0 <? secs then int64.mul secs time.Second else defaultFallbackSleep
  | None => defaultFallbackSleep
  end.

(** The duration [sleepPrimaryRateLimit] sleeps for a response received
    when the clock reads [t]. *)
Definition primaryDelay (t : time.Time) (resp : http.Response) : Z :=
  match strconv.ParseInt (http.Header_Get (http.RespHeader resp) "X-RateLimit-Reset") with
  | Some unix =>
      let d := int64.add (time.Until t (time.Unix unix)) rateLimitResetBuffer in
      if 0 <? d then d else defaultFallbackSleep
  | None => defaultFallbackSleep
  end.

Definition limitDelay (t : time.Time) (resp : http.Response) : Z :=
  if isSecondaryLimit resp then secondaryDelay resp else primaryDelay t resp.

Definition limitEvents {float64} (t : time.Time) (resp : http.Response)
    : list (Event float64) :=
  [EvSleep (limitDelay t resp);
   EvLog Warn (if isSecondaryLimit resp then "github secondary rate limit hit"
               else "github primary rate limit hit")].

(** The state once a request has gone out. *)
Definition afterRequest {float64} (req : http.Request) (s : State float64)
    : State float64 :=
  mkState (client s) (now s) (trace s ++ [EvRequest req]) (gauges s).

(** The state once a rate-limit answer to [req] has been slept out. *)
Definition afterLimit {float64} (req : http.Request) (resp : http.Response)
    (s : State float64) : State float64 :=
  mkState (client s) (now s + Z.max 0 (limitDelay (now s) resp))
          (trace s ++ EvRequest req :: limitEvents (now s) resp) (gauges s).

(** [get] has not stopped with the fall-through error of its loop. *)
Definition notExceeded (e : option error) : Prop :=
  match e with
  | Some (ErrExceededMaxRetries _) => False
  | _ => True
  end.

(** The logins of one page of seats. *)
Definition loginsOf (resp : SeatsResponse) : list string :=
  map (fun seat => Login (Seat_Assignee seat)) (Seats resp).

(** The server holds [pages], numbered from [page] on: asked for the
    [k]-th of them as request number [n0 + k], it answers 200 with a
    body that decodes to it. *)
Definition servesPages `{Unmarshal SeatsResponse} (env : Env) (c : Client)
    (enterprise : string) (n0 : nat) (page : Z) (pages : list SeatsResponse) : Prop :=
  forall (k : nat) (p : SeatsResponse),
    pages !! k = Some p ->
    newRequestError env (seatsURL enterprise (page + Z.of_nat k)) = None
    /\ exists resp,
         roundTrip env (n0 + k) (getRequest c (seatsURL enterprise (page + Z.of_nat k)))
           = inl resp
         /\ http.StatusCode resp = http.StatusOK
         /\ Decode (http.Body resp) zeroSeatsResponse = (p, None).

(** The state after one more log line. *)
Definition logged {float64} (lvl : Level) (msg : string) (s : State float64)
    : State float64 :=
  mkState (client s) (now s) (trace s ++ [EvLog lvl msg]) (gauges s).

(** The observations one user contributes: one per usage item when the
    fetch succeeded, none when it failed. *)
Definition observationsOf {float64} (enterprise : string)
    (outcome : string * (UsageResponse float64 + error)) : list (metricEntry float64) :=
  match outcome with
  | (login, inl usage) => map (entryOf enterprise login) (UsageItems usage)
  | (_, inr _) => []
  end.

Definition snapshotOf {float64} (enterprise : string)
    (outcomes : list (string * (UsageResponse float64 + error)))
    : list (metricEntry float64) :=
  flat_map (observationsOf enterprise) outcomes.

(** [Fetched env enterprise logins s outcomes s']: fetching the usage of
    the [logins] one after the other from state [s], logging each
    failure, gives these [outcomes] and ends in [s']. *)
Inductive Fetched {float64} `{Unmarshal (UsageResponse float64)} (env : Env)
    (enterprise : string)
    : list string -> State float64 ->
      list (string * (UsageResponse float64 + error)) -> State float64 -> Prop :=
| Fetched_nil s :
    Fetched env enterprise [] s [] s
| Fetched_ok login rest s usage s1 outcomes s2 :
    GetUserPremiumUsage env enterprise login s = Some (inl usage, s1) ->
    Fetched env enterprise rest s1 outcomes s2 ->
    Fetched env enterprise (login :: rest) s ((login, inl usage) :: outcomes) s2
| Fetched_failed login rest s err s1 outcomes s2 :
    GetUserPremiumUsage env enterprise login s = Some (inr err, s1) ->
    Fetched env enterprise rest (logged Warn "failed to get usage for user" s1)
            outcomes s2 ->
    Fetched env enterprise (login :: rest) s ((login, inr err) :: outcomes) s2.

(** The state [collect] leaves when it publishes [entries] from [s]. *)
Definition afterPublish {float64} (entries : list (metricEntry float64))
    (s : State float64) : State float64 :=
  mkState (client s) (now s)
          (trace s ++ EvLock :: map EvGauge (publishOps entries) ++ [EvUnlock])
          (published entries).

Definition isReading {float64} (sc : Scraper float64) : bool :=
  match sc with
  | SReading _ => true
  | _ => false
  end.

(** The number of scrapes that hold the read lock. *)
Definition reading {float64} (l : list (Scraper float64)) : nat :=
  length (List.filter isReading l).

(** Everything a scrape has read so far is what [G] holds. *)
Definition agrees {float64} (obs : Partial float64) (G : Gauges float64) : Prop :=
  (forall m, pRequestAmount obs = Some m -> m = gRequestAmount G)
  /\ (forall m, pRequestCostGross obs = Some m -> m = gRequestCostGross G)
  /\ (forall m, pRequestCostDiscount obs = Some m -> m = gRequestCostDiscount G).

Definition scraperOk {float64} (old new G : Gauges float64) (sc : Scraper float64) : Prop :=
  match sc with
  | SIdle => True
  | SReading obs => agrees obs G
  | SDone seen => seen = old \/ seen = new
  end.

(** The invariant of the lock discipline, which holds until a
    publication panics: the reader count of the mutex is the number of
    scrapes in progress; outside the publisher's critical section the
    exposed gauges are the old or the new snapshot; inside it no scrape
    is in progress. *)
Definition consistent {float64} (entries : list (metricEntry float64))
    (old : Gauges float64) (s : System float64) : Prop :=
  readers (collectMu s) = reading (scrapers s)
  /\ match publisher s with
     | PIdle => writer (collectMu s) = false /\ exposed s = old
     | PLocked todo =>
         writer (collectMu s) = true /\ readers (collectMu s) = 0%nat
         /\ fold_left (fun G op => applyOp op G) todo (exposed s) = published entries
     | PDone => writer (collectMu s) = false /\ exposed s = published entries
     | PPanicked => False
     end
  /\ Forall (scraperOk old (published entries) (exposed s)) (scrapers s).

(** ** The claims in their own words *)

(** The URL the specification has the listing ask for: pages of 100
    seats of the enterprise, page [k]. *)
Definition pageURL (enterprise : string) (k : Z) : string :=
  "https://api.github.com/enterprises/" ++ enterprise
  ++ "/copilot/billing/seats?per_page=100&page=" ++ strconv.Itoa k.

(** The server holds [pages], numbered from 1: asked for page [1 + k]
    as request number [n0 + k], it answers 200 with a body that decodes
    to the [k]-th of them. *)
Definition holdsPages `{Unmarshal SeatsResponse} (env : Env) (c : Client)
    (enterprise : string) (n0 : nat) (pages : list SeatsResponse) : Prop :=
  forall (k : nat) (p : SeatsResponse),
    pages !! k = Some p ->
    newRequestError env (pageURL enterprise (1 + Z.of_nat k)) = None
    /\ exists resp,
         roundTrip env (n0 + k) (getRequest c (pageURL enterprise (1 + Z.of_nat k)))
           = inl resp
         /\ http.StatusCode resp = 200
         /\ Decode (http.Body resp) zeroSeatsResponse = (p, None).





(** All four label values of an entry are valid UTF-8. *)
Definition validEntry {float64} (e : metricEntry float64) : Prop :=
  utf8.ValidString (user (labels e)) = true /\ utf8.ValidString (sku (labels e)) = true
  /\ utf8.ValidString (model (labels e)) = true
  /\ utf8.ValidString (enterprise (labels e)) = true.

(** ** [cmd/main.go]: the worker loop *)

(** [time.Duration(conf.WorkerInterval) * time.Second] *)
Definition sleepInterval (conf : config.Config) : Z :=
  int64.mul (config.WorkerInterval conf) time.Second.

Section Worker.

Context {float64 : Type}.
Variable env : Env.
Context `{!Unmarshal SeatsResponse} `{!Unmarshal (UsageResponse float64)}.

(** One turn of the loop of [worker]. The state of the worker is the
    state of the process together with the lines it has logged at
    error level, each with the error it reports. *)
Definition workerCycle (fuel : nat) (conf : config.Config)
    (w : State float64 * list (string * error))
    : option (State float64 * list (string * error)) :=
  let '(s, errors) := w in
  match (logInfo "collecting copilot premium usage metrics" ;;
         collect env fuel (config.Enterprise (config.Github conf))) s with
  | None => None
  | Some (Some err, s1) =>
      match Sleep (sleepInterval conf) s1 with
      | Some (_, s2) => Some (s2, (errors ++ [("failed to collect metrics"%string, err)])%list)
      | None => None
      end
  | Some (None, s1) =>
      match (logInfo "metrics published" ;; Sleep (sleepInterval conf)) s1 with
      | Some (_, s2) => Some (s2, errors)
      | None => None
      end
  end.

(** The first [cycles] turns of the loop. *)
Fixpoint workerLoop (fuel : nat) (conf : config.Config) (cycles : nat)
    (w : State float64 * list (string * error))
    : option (State float64 * list (string * error)) :=
  match cycles with
  | O => Some w
  | S cycles' =>
      match workerCycle fuel conf w with
      | Some w' => workerLoop fuel conf cycles' w'
      | None => None
      end
  end.

(** [worker] makes its client, then loops. *)
Definition worker (fuel : nat) (conf : config.Config) (lg fresh : nat) (cycles : nat)
    (s : State float64) : option (State float64 * list (string * error)) :=
  workerLoop fuel conf cycles
    (mkState (NewClient (config.Token (config.Github conf)) lg fresh)
             (now s) (trace s) (gauges s), []).

End Worker.

(** ** [cmd/main.go] before the lock

    The earlier [collect]: it resets the gauges right after the seats
    are listed and sets the gauges of every user as soon as that user's
    usage is fetched; the scrape handler of that version is the plain
    registry handler. *)

Module Unlocked.

Section Collect.

Context {float64 : Type}.
Variable env : Env.
Context `{!Unmarshal SeatsResponse} `{!Unmarshal (UsageResponse float64)}.

(** The loop over the usage items of one user. *)
Fixpoint setItems (enterprise login : string) (items : list (UsageItem float64))
    : M float64 unit :=
  match items with
  | [] => ret tt
  | item :: rest =>
      let lbls := {| user := login;
                     sku := SKU item;
                     model := Model item;
                     enterprise := enterprise |} in
      gaugeOp (SetValue RequestAmount lbls (GrossQuantity item)) ;;
      gaugeOp (SetValue RequestCostGross lbls (GrossAmount item)) ;;
      gaugeOp (SetValue RequestCostDiscount lbls (DiscountAmount item)) ;;
      setItems enterprise login rest
  end.

(** The loop over the seat holders. *)
Fixpoint collectLoop (enterprise : string) (logins : list string) : M float64 unit :=
  match logins with
  | [] => ret tt
  | login :: rest =>
      r <- GetUserPremiumUsage env enterprise login ;;
      match r with
      | inr err =>
          logWarn "failed to get usage for user" ;;
          collectLoop enterprise rest
      | inl usage =>
          setItems enterprise login (UsageItems usage) ;;
          collectLoop enterprise rest
      end
  end.

Definition collect (fuel : nat) (enterprise : string) : M float64 (option error) :=
  r <- ListCopilotSeats env fuel enterprise ;;
  match r with
  | inr err => ret (Some (ErrListingSeats err))
  | inl logins =>
      logInfo "found copilot seat holders" ;;
      gaugeOp (Reset RequestAmount) ;;
      gaugeOp (Reset RequestCostGross) ;;
      gaugeOp (Reset RequestCostDiscount) ;;
      collectLoop enterprise logins ;;
      ret None
  end.

End Collect.

(** One step of one thread when nothing is locked, in a cycle whose
    gauge operations all go through: the publisher starts ([ALock]),
    applies its gauge operations one per step ([AOp]) and ends
    ([AUnlock]); a scrape starts ([ARLock]), reads the series one per
    step and ends ([ARUnlock]). No step waits for another thread. *)
Definition step {float64} (entries : list (metricEntry float64)) (a : Action)
    (s : System float64) : option (System float64) :=
  let mu := collectMu s in
  match a with
  | ALock =>
      match publisher s with
      | PIdle => Some (mkSystem mu (exposed s) (PLocked (publishOps entries)) (scrapers s))
      | _ => None
      end
  | AOp =>
      match publisher s with
      | PLocked (op :: todo) =>
          Some (mkSystem mu (applyOp op (exposed s)) (PLocked todo) (scrapers s))
      | _ => None
      end
  | AUnlock =>
      match publisher s with
      | PLocked [] => Some (mkSystem mu (exposed s) PDone (scrapers s))
      | _ => None
      end
  | ARLock i =>
      match scrapers s !! i with
      | Some SIdle =>
          Some (mkSystem mu (exposed s) (publisher s)
                         (<[i := SReading (mkPartial None None None)]> (scrapers s)))
      | _ => None
      end
  | ARead i g =>
      match scrapers s !! i with
      | Some (SReading obs) =>
          Some (mkSystem mu (exposed s) (publisher s)
                         (<[i := SReading (readSeries g (exposed s) obs)]> (scrapers s)))
      | _ => None
      end
  | ARUnlock i =>
      match scrapers s !! i with
      | Some (SReading obs) =>
          match complete obs with
          | Some seen =>
              Some (mkSystem mu (exposed s) (publisher s) (<[i := SDone seen]> (scrapers s)))
          | None => None
          end
      | _ => None
      end
  end.

Fixpoint run {float64} (entries : list (metricEntry float64)) (schedule : list Action)
    (s : System float64) : option (System float64) :=
  match schedule with
  | [] => Some s
  | a :: rest =>
      match step entries a s with
      | Some s' => run entries rest s'
      | None => None
      end
  end.

End Unlocked.

(** ** [internal/github/client.go] before rate limiting

    The earlier [get]: one request, no retry, no tracked state. *)

Module Plain.

Section Client.

Context {float64 : Type}.
Variable env : Env.

Definition get {T} `{Unmarshal T} (url : string) (out : T)
    : M float64 (T * option error) :=
  match newRequestError env url with
  | Some err => ret (out, Some (External err))
  | None =>
      c <- getClient ;;
      let req := setHeaders c (http.mkRequest http.MethodGet url ∅) in
      r <- Do env req ;;
      match r with
      | inr err => ret (out, Some (External err))
      | inl resp =>
          if negb (http.StatusCode resp =? http.StatusOK) then
            ret (out, Some (ErrUnexpectedStatus (http.StatusCode resp) url))
          else
            let '(out', err) := Decode (http.Body resp) out in
            ret (out', External <$> err)
      end
  end.

End Client.

End Plain.

(** ** More servers and states for the examples *)

Module Cases.

(** [http.NewRequest] rejects every URL. *)
Definition rejectsURLs : Env :=
  {| newRequestError := fun _ => Some "net/url: invalid control character in URL";
     roundTrip := fun _ _ => inl Scenario.plainOK |}.

(** No connection can be made. *)
Definition unreachable : Env := Scenario.scriptEnv [].

(** Every request is answered by a 500. *)
Definition serverError : http.Response := http.mkResponse 500 ∅ EmptyString.
Definition always500 : Env :=
  {| newRequestError := fun _ => None;
     roundTrip := fun _ _ => inl serverError |}.

(** A 429 asking for 7 seconds, then the first page of seats. *)
Definition busyThenOK : Env :=
  Scenario.scriptEnv [inl Scenario.tooMany; Scenario.ok "page-1"].

(** Every request is answered by a full page of 100 seats. *)
Definition alwaysFullPage : Env :=
  {| newRequestError := fun _ => None;
     roundTrip := fun _ _ => Scenario.ok "page-1" |}.

(** A full page of seats, then a 500. *)
Definition pageThen500 : Env :=
  Scenario.scriptEnv [Scenario.ok "page-1"; inl serverError].

(** Seats A, B, C; every usage request is answered by a 500. *)
Definition noUsage : Env :=
  Scenario.routeEnv (fun url =>
    if String.eqb url (seatsURL "acme" 1) then Scenario.ok "abc"
    else inl serverError).



End Cases.

(** ** Vocabulary of the further properties *)

(** What the client may have become after a call: itself, or itself
    updated from a 200 answer. *)
Definition clientAfter (c c' : Client) : Prop :=
  c' = c \/ exists resp, http.StatusCode resp = http.StatusOK /\ c' = updateRateLimit c resp.

(** The answer to request number [n] makes a call of [get] with target
    [out] fail at once with the error [e]: the transport fails, or the
    status is neither 200 nor a rate-limit answer, or the body of a 200
    does not decode. *)
Definition failsAtOnce {T} `{Unmarshal T} (out : T) (env : Env) (n : nat)
    (req : http.Request) (url : string) (e : error) : Prop :=
  (exists msg, roundTrip env n req = inr msg /\ e = External msg)
  \/ (exists resp,
        roundTrip env n req = inl resp
        /\ http.StatusCode resp <> http.StatusOK /\ isRateLimit resp = false
        /\ e = ErrUnexpectedStatus (http.StatusCode resp) url)
  \/ (exists resp msg,
        roundTrip env n req = inl resp
        /\ http.StatusCode resp = http.StatusOK
        /\ snd (Decode (http.Body resp) out) = Some msg
        /\ e = External msg).

(** The server answers every request, whatever it asks for, with a 200
    whose body decodes to a page of at least [perPage] seats. *)
Definition alwaysFull `{Unmarshal SeatsResponse} (env : Env) : Prop :=
  (forall url, newRequestError env url = None)
  /\ (forall n req,
        exists resp p,
          roundTrip env n req = inl resp
          /\ http.StatusCode resp = http.StatusOK
          /\ Decode (http.Body resp) zeroSeatsResponse = (p, None)
          /\ perPage <= Z.of_nat (length (Seats p))).

(** The observation that decides the value of the series with label
    values [k]: the last entry that carries them. *)
Definition observed {float64} (k : string * string * string * string)
    (entries : list (metricEntry float64)) : option (metricEntry float64) :=
  last (filter (fun e => labelValues (labels e) = k) entries).

(** Two states the client cannot tell apart: the same client, the same
    clock, the same requests sent and the same sleeps made. *)
Definition akin {float64} (s t : State float64) : Prop :=
  client s = client t /\ now s = now t
  /\ requestsOf (trace s) = requestsOf (trace t)
  /\ sleepsOf (trace s) = sleepsOf (trace t).

(** A computation that always returns and that treats states the client
    cannot tell apart alike: the same result, the same new client and
    clock, and the same events added to the trace, all of them client
    events. *)
Definition uniform {float64 A} (m : M float64 A) : Prop :=
  forall s t, akin s t ->
    exists r c' n' evs,
      m s = Some (r, mkState c' n' (trace s ++ evs) (gauges s))
      /\ m t = Some (r, mkState c' n' (trace t ++ evs) (gauges t))
      /\ Forall ioEvent evs.

(** The API is out of reach: every URL is well formed, and every
    request either fails in the transport or is answered by a status
    that is neither 200 nor a rate-limit answer. *)
Definition outage (env : Env) : Prop :=
  (forall url, newRequestError env url = None)
  /\ (forall n req,
        (exists msg, roundTrip env n req = inr msg)
        \/ (exists resp,
              roundTrip env n req = inl resp
              /\ http.StatusCode resp <> http.StatusOK
              /\ isRateLimit resp = false)).

(** The steps a thread of the scrape model still has to take: a scrape
    that has not started takes the lock, reads three series and
    releases the lock; a scrape in progress reads what it has not read
    and releases the lock; the publisher takes the lock, applies its
    operations and releases the lock. *)
Definition unread {A} (o : option A) : nat :=
  match o with
  | Some _ => 0
  | None => 1
  end.

Definition scraperSteps {float64} (sc : Scraper float64) : nat :=
  match sc with
  | SIdle => 5
  | SReading obs =>
      S (unread (pRequestAmount obs)
         + unread (pRequestCostGross obs)
         + unread (pRequestCostDiscount obs))
  | SDone _ => 0
  end.

Definition publisherSteps {float64} (entries : list (metricEntry float64))
    (p : Publisher float64) : nat :=
  match p with
  | PIdle => 2 + length (publishOps entries)
  | PLocked todo => 1 + length todo
  | PDone => 0
  | PPanicked => 0
  end.

Definition stepsLeft {float64} (entries : list (metricEntry float64))
    (s : System float64) : nat :=
  publisherSteps entries (publisher s) + sum_list (scraperSteps <$> scrapers s).

(** The publication is over and every scrape has been served. *)
Definition finished {float64} (s : System float64) : Prop :=
  publisher s = PDone
  /\ Forall (fun sc => exists seen, sc = SDone seen) (scrapers s).

(** The publisher has not panicked and nothing it still has to do
    panics. *)
Definition calm {float64} (s : System float64) : Prop :=
  match publisher s with
  | PLocked todo => existsb withPanics todo = false
  | PPanicked => False
  | _ => True
  end.
Local Open Scope list_scope.

(** * Properties *)

(** ** Machine integers and parsing *)

Lemma wrap_small z : int64.in_range z -> int64.wrap z = z.
Proof.
  unfold int64.in_range, int64.min, int64.max, int64.wrap. intros H.
  rewrite Z.mod_small by lia. lia.
Qed.

Lemma ParseInt_in_range s n : strconv.ParseInt s = Some n -> int64.in_range n.
Proof.
  unfold strconv.ParseInt. intros H.
  destruct (match s with
            | String "+" s' => strconv.unsigned s'
            | String "-" s' => Z.opp <$> strconv.unsigned s'
            | _ => strconv.unsigned s
            end) as [m|]; [|discriminate].
  destruct ((int64.min <=? m) && (m <=? int64.max)) eqn:E; [|discriminate].
  injection H as <-. apply andb_prop in E as [E1 E2].
  unfold int64.in_range. lia.
Qed.

Lemma ParseInt_empty : strconv.ParseInt EmptyString = None.
Proof. reflexivity. Qed.

(** ** Traces and the client frame *)

Section TraceFacts.

Context {float64 : Type}.
Implicit Types (tr evs : list (Event float64)) (s : State float64).

Lemma requestsOf_app tr evs : requestsOf (tr ++ evs) = requestsOf tr ++ requestsOf evs.
Proof. apply omap_app. Qed.

Lemma sleepsOf_app tr evs : sleepsOf (tr ++ evs) = sleepsOf tr ++ sleepsOf evs.
Proof. apply omap_app. Qed.

Lemma gaugeOpsOf_app tr evs : gaugeOpsOf (tr ++ evs) = gaugeOpsOf tr ++ gaugeOpsOf evs.
Proof. apply omap_app. Qed.

Lemma gaugeOpsOf_io evs : Forall ioEvent evs -> gaugeOpsOf evs = [].
Proof.
  induction 1 as [|ev evs Hev _ IH]; [reflexivity|].
  destruct ev; simpl in *; try contradiction; exact IH.
Qed.

Lemma extends_refl s : extends s s.
Proof.
  split; try reflexivity.
  exists []. split; [by rewrite app_nil_r | constructor].
Qed.

Lemma extends_trans s1 s2 s3 : extends s1 s2 -> extends s2 s3 -> extends s1 s3.
Proof.
  intros [[e1 [T1 F1]] G1 K1 H1 L1 N1] [[e2 [T2 F2]] G2 K2 H2 L2 N2].
  split; try congruence; [|lia].
  exists (e1 ++ e2). split.
  - rewrite T2, T1. by rewrite app_assoc.
  - by apply Forall_app.
Qed.

Lemma extends_events s tr c t :
  Forall ioEvent tr ->
  token c = token (client s) -> httpClient c = httpClient (client s) ->
  logger c = logger (client s) -> now s <= t ->
  extends s (mkState c t (trace s ++ tr) (gauges s)).
Proof.
  intros. split; simpl; try done. by exists tr.
Qed.

End TraceFacts.

(** ** The client, one attempt at a time *)

Ltac run_monad :=
  unfold bind, ret, getClient, setClient, getNow, logInfo, logWarn, emit,
    Sleep, Do, gaugeOp; simpl.

Section ClientFacts.

Context {float64 : Type}.
Variable env : Env.
Implicit Types (s : State float64) (resp : http.Response).

Lemma preemptiveWait_run s : preemptiveWait s = Some (tt, afterWait s).
Proof.
  unfold preemptiveWait, afterWait, preemptiveEvents, waitsPreemptively,
    preemptiveDelay. run_monad.
  destruct (rateLimitRemaining (client s) =? 0); simpl.
  - destruct (0 <? _); simpl.
    + by rewrite <- app_assoc.
    + rewrite app_nil_r. by destruct s.
  - rewrite app_nil_r. by destruct s.
Qed.

Lemma afterWait_extends s : extends s (afterWait s).
Proof.
  unfold afterWait, preemptiveEvents.
  apply extends_events; try done.
  - destruct (waitsPreemptively _ _); repeat constructor.
  - destruct (waitsPreemptively _ _); lia.
Qed.

Lemma afterWait_sent s : sent (afterWait s) = sent s.
Proof.
  unfold sent, afterWait, preemptiveEvents. simpl. rewrite requestsOf_app.
  destruct (waitsPreemptively _ _); simpl; by rewrite app_nil_r.
Qed.

Lemma sleepSecondaryRateLimit_run resp s :
  sleepSecondaryRateLimit resp s =
  Some (secondaryDelay resp,
        mkState (client s) (now s + Z.max 0 (secondaryDelay resp))
                (trace s ++ [EvSleep (secondaryDelay resp)]) (gauges s)).
Proof.
  unfold sleepSecondaryRateLimit, secondaryDelay.
  destruct (String.eqb_spec (http.Header_Get (http.RespHeader resp) "Retry-After") EmptyString)
    as [E|E]; simpl.
  - rewrite E. reflexivity.
  - destruct (strconv.ParseInt _) as [secs|]; [|reflexivity].
    destruct (0 <? secs); reflexivity.
Qed.

Lemma sleepPrimaryRateLimit_run resp s :
  sleepPrimaryRateLimit resp s =
  Some (primaryDelay (now s) resp,
        mkState (client s) (now s + Z.max 0 (primaryDelay (now s) resp))
                (trace s ++ [EvSleep (primaryDelay (now s) resp)]) (gauges s)).
Proof.
  unfold sleepPrimaryRateLimit, primaryDelay.
  destruct (String.eqb_spec (http.Header_Get (http.RespHeader resp) "X-RateLimit-Reset") EmptyString)
    as [E|E]; simpl.
  - rewrite E. reflexivity.
  - destruct (strconv.ParseInt _) as [unix|]; [|reflexivity].
    run_monad. destruct (0 <? _); reflexivity.
Qed.

(** A 200 answer: the rate-limit fields are updated and the body decoded. *)
Lemma getAttempt_200 {T} `{Unmarshal T} attempt url (out : T) s resp :
  newRequestError env url = None ->
  roundTrip env (sent s) (getRequest (client s) url) = inl resp ->
  http.StatusCode resp = http.StatusOK ->
  getAttempt env attempt url out s =
  Some (Some (fst (Decode (http.Body resp) out),
              External <$> snd (Decode (http.Body resp) out)),
        mkState (updateRateLimit (client s) resp) (now s)
                (trace s ++ [EvRequest (getRequest (client s) url)]) (gauges s)).
Proof.
  intros Hurl Hrt Hst. unfold getAttempt. rewrite Hurl. run_monad.
  unfold sent, getRequest in Hrt. rewrite Hrt, Hst. simpl.
  destruct (Decode (http.Body resp) out) as [out' err]. reflexivity.
Qed.

(** A rate-limit answer: sleep, log, and give up only on the last attempt. *)
Lemma getAttempt_limit {T} `{Unmarshal T} attempt url (out : T) s resp :
  newRequestError env url = None ->
  roundTrip env (sent s) (getRequest (client s) url) = inl resp ->
  isRateLimit resp = true ->
  getAttempt env attempt url out s =
  Some (if maxRetries - attempt - 1 =? 0
        then Some (out, Some (limitError url resp)) else None,
        afterLimit (getRequest (client s) url) resp s).
Proof.
  intros Hurl Hrt Hlim. unfold getAttempt. rewrite Hurl. run_monad.
  unfold sent, getRequest in Hrt. rewrite Hrt.
  unfold isRateLimit, isSecondaryLimit, isPrimaryLimit in Hlim.
  unfold afterLimit, limitEvents, limitDelay, limitError, isSecondaryLimit.
  destruct (http.StatusCode resp =? http.StatusOK) eqn:E200.
  { apply Z.eqb_eq in E200. rewrite E200 in Hlim. discriminate. }
  destruct (http.StatusCode resp =? http.StatusTooManyRequests) eqn:E429.
  - rewrite sleepSecondaryRateLimit_run. simpl.
    rewrite <- !app_assoc. simpl.
    destruct (maxRetries - attempt - 1 =? 0); reflexivity.
  - simpl in Hlim. apply andb_prop in Hlim as [E403 Ehdr].
    rewrite E403, Ehdr. simpl.
    rewrite sleepPrimaryRateLimit_run. simpl.
    rewrite <- !app_assoc. simpl.
    destruct (maxRetries - attempt - 1 =? 0); reflexivity.
Qed.

(** Any other answer: an error at once, nothing slept. *)
Lemma getAttempt_unexpected {T} `{Unmarshal T} attempt url (out : T) s resp :
  newRequestError env url = None ->
  roundTrip env (sent s) (getRequest (client s) url) = inl resp ->
  http.StatusCode resp <> http.StatusOK ->
  isRateLimit resp = false ->
  getAttempt env attempt url out s =
  Some (Some (out, Some (ErrUnexpectedStatus (http.StatusCode resp) url)),
        afterRequest (getRequest (client s) url) s).
Proof.
  intros Hurl Hrt H200 Hlim. unfold getAttempt. rewrite Hurl. run_monad.
  unfold sent, getRequest in Hrt. rewrite Hrt.
  unfold isRateLimit, isSecondaryLimit, isPrimaryLimit in Hlim.
  apply orb_false_iff in Hlim as [E429 Eprim].
  apply Z.eqb_neq in H200. rewrite H200, E429.
  destruct (http.StatusCode resp =? http.StatusForbidden) eqn:E403; [|reflexivity].
  simpl in Eprim. rewrite Eprim. reflexivity.
Qed.

Lemma getAttempt_transport {T} `{Unmarshal T} attempt url (out : T) s msg :
  newRequestError env url = None ->
  roundTrip env (sent s) (getRequest (client s) url) = inr msg ->
  getAttempt env attempt url out s =
  Some (Some (out, Some (External msg)), afterRequest (getRequest (client s) url) s).
Proof.
  intros Hurl Hrt. unfold getAttempt. rewrite Hurl. run_monad.
  unfold sent, getRequest in Hrt. rewrite Hrt. reflexivity.
Qed.

Lemma getAttempt_badURL {T} `{Unmarshal T} attempt url (out : T) s msg :
  newRequestError env url = Some msg ->
  getAttempt env attempt url out s = Some (Some (out, Some (External msg)), s).
Proof. intros Hurl. unfold getAttempt. rewrite Hurl. reflexivity. Qed.

Lemma afterRequest_extends req s : extends s (afterRequest req s).
Proof. apply extends_events; try done; simpl; try lia. repeat constructor. Qed.

Lemma afterLimit_extends req resp s : extends s (afterLimit req resp s).
Proof.
  unfold afterLimit. apply extends_events; try done; try lia.
  repeat constructor.
Qed.

Lemma updateRateLimit_frame (c : Client) resp :
  httpClient (updateRateLimit c resp) = httpClient c
  /\ token (updateRateLimit c resp) = token c
  /\ logger (updateRateLimit c resp) = logger c.
Proof.
  unfold updateRateLimit.
  destruct (negb (String.eqb (http.Header_Get _ "X-RateLimit-Remaining") EmptyString));
    destruct (negb (String.eqb (http.Header_Get _ "X-RateLimit-Reset") EmptyString));
    repeat match goal with
           | |- context [match ?x with Some _ => _ | None => _ end] => destruct x
           end; simpl; auto.
Qed.

(** Every attempt returns; it leaves the gauges alone; it falls through
    only when retries remain. *)
Lemma getAttempt_cases {T} `{Unmarshal T} attempt url (out : T) s :
  exists r s',
    getAttempt env attempt url out s = Some (r, s')
    /\ extends s s'
    /\ match r with
       | Some (_, e) => notExceeded e
       | None => maxRetries - attempt - 1 <> 0
       end.
Proof.
  destruct (newRequestError env url) as [msg|] eqn:Hurl.
  { eexists _, _. rewrite (getAttempt_badURL attempt url out s msg Hurl).
    split; [reflexivity|]. split; [apply extends_refl | exact I]. }
  destruct (roundTrip env (sent s) (getRequest (client s) url)) as [resp|msg] eqn:Hrt.
  2:{ eexists _, _. rewrite (getAttempt_transport attempt url out s msg Hurl Hrt).
      split; [reflexivity|]. split; [apply afterRequest_extends | exact I]. }
  destruct (Z.eq_dec (http.StatusCode resp) http.StatusOK) as [E200|E200].
  { eexists _, _. rewrite (getAttempt_200 attempt url out s resp Hurl Hrt E200).
    split; [reflexivity|]. split.
    - destruct (updateRateLimit_frame (client s) resp) as (? & ? & ?).
      apply extends_events; simpl; try done; try lia. repeat constructor.
    - simpl. by destruct (snd (Decode _ _)). }
  destruct (isRateLimit resp) eqn:Hlim.
  - eexists _, _. rewrite (getAttempt_limit attempt url out s resp Hurl Hrt Hlim).
    split; [reflexivity|]. split; [apply afterLimit_extends|].
    destruct (maxRetries - attempt - 1 =? 0) eqn:E.
    + unfold limitError. by destruct (isSecondaryLimit resp).
    + by apply Z.eqb_neq.
  - eexists _, _. rewrite (getAttempt_unexpected attempt url out s resp Hurl Hrt E200 Hlim).
    split; [reflexivity|]. split; [apply afterRequest_extends | exact I].
Qed.

Lemma getLoop_cases {T} `{Unmarshal T} attempts url (out : T) s :
  last attempts = Some (maxRetries - 1) ->
  exists r s',
    getLoop env attempts url out s = Some (r, s')
    /\ extends s s' /\ notExceeded (snd r).
Proof.
  revert s. induction attempts as [|a rest IH]; intros s Hlast; [discriminate|].
  destruct (getAttempt_cases a url out s) as (r & s1 & Hrun & Hext & Hr).
  simpl. unfold bind. rewrite Hrun.
  destruct r as [[out' e]|].
  - eexists _, _. split; [reflexivity|]. split; [exact Hext | exact Hr].
  - destruct rest as [|b rest'].
    + simpl in Hlast. injection Hlast as ->. lia.
    + destruct (IH s1) as (r & s2 & Hrun2 & Hext2 & Hr2).
      { by rewrite last_cons_cons in Hlast. }
      eexists _, _. split; [exact Hrun2|].
      split; [eapply extends_trans; eassumption | exact Hr2].
Qed.

(** [get] always returns, touches nothing but the client and its
    trace, and never reports [exceeded max retries]. *)
Lemma get_cases {T} `{Unmarshal T} url (out : T) s :
  exists r s',
    get env url out s = Some (r, s') /\ extends s s' /\ notExceeded (snd r).
Proof.
  unfold get, bind. rewrite preemptiveWait_run.
  destruct (getLoop_cases (range maxRetries) url out (afterWait s)) as (r & s' & Hrun & Hext & Hr).
  { reflexivity. }
  exists r, s'. split; [exact Hrun|]. split; [|exact Hr].
  eapply extends_trans; [apply afterWait_extends | exact Hext].
Qed.

End ClientFacts.

(** ** The client, one call at a time *)

Section GetFacts.

Context {float64 : Type}.
Variable env : Env.
Implicit Types (s : State float64) (resp : http.Response).

Lemma get_unfold {T} `{Unmarshal T} url (out : T) s :
  get env url out s = getLoop env [0; 1; 2] url out (afterWait s).
Proof. unfold get, bind. by rewrite preemptiveWait_run. Qed.

Lemma afterLimit_sent req resp s : sent (afterLimit req resp s) = S (sent s).
Proof.
  unfold sent, afterLimit. simpl. rewrite requestsOf_app, length_app. simpl. lia.
Qed.

Lemma afterWait_requests s : requestsOf (trace (afterWait s)) = requestsOf (trace s).
Proof.
  unfold afterWait, preemptiveEvents. simpl. rewrite requestsOf_app.
  destruct (waitsPreemptively _ _); simpl; by rewrite app_nil_r.
Qed.

Lemma afterLimit_requests req resp s :
  requestsOf (trace (afterLimit req resp s)) = requestsOf (trace s) ++ [req].
Proof. unfold afterLimit. simpl. by rewrite requestsOf_app. Qed.

(** The first answer is a 200. *)
Lemma get_200 {T} `{Unmarshal T} url (out : T) s resp :
  newRequestError env url = None ->
  roundTrip env (sent s) (getRequest (client s) url) = inl resp ->
  http.StatusCode resp = http.StatusOK ->
  get env url out s =
  Some ((fst (Decode (http.Body resp) out),
         External <$> snd (Decode (http.Body resp) out)),
        mkState (updateRateLimit (client s) resp) (now (afterWait s))
                (trace (afterWait s) ++ [EvRequest (getRequest (client s) url)])
                (gauges s)).
Proof.
  intros Hurl Hrt Hst. rewrite get_unfold. simpl. unfold bind.
  rewrite (getAttempt_200 env 0 url out (afterWait s) resp Hurl); try done.
  by rewrite afterWait_sent.
Qed.

(** The first answer is neither a 200 nor a rate-limit answer. *)
Lemma get_unexpected {T} `{Unmarshal T} url (out : T) s resp :
  newRequestError env url = None ->
  roundTrip env (sent s) (getRequest (client s) url) = inl resp ->
  http.StatusCode resp <> http.StatusOK ->
  isRateLimit resp = false ->
  get env url out s =
  Some ((out, Some (ErrUnexpectedStatus (http.StatusCode resp) url)),
        afterRequest (getRequest (client s) url) (afterWait s)).
Proof.
  intros Hurl Hrt Hst Hlim. rewrite get_unfold. simpl. unfold bind.
  rewrite (getAttempt_unexpected env 0 url out (afterWait s) resp Hurl); try done.
  by rewrite afterWait_sent.
Qed.

(** All three answers are rate-limit answers. *)
Lemma get_three_limits {T} `{Unmarshal T} url (out : T) s resp1 resp2 resp3 :
  let req := getRequest (client s) url in
  newRequestError env url = None ->
  roundTrip env (sent s) req = inl resp1 ->
  roundTrip env (S (sent s)) req = inl resp2 ->
  roundTrip env (S (S (sent s))) req = inl resp3 ->
  isRateLimit resp1 = true -> isRateLimit resp2 = true -> isRateLimit resp3 = true ->
  get env url out s =
  Some ((out, Some (limitError url resp3)),
        afterLimit req resp3 (afterLimit req resp2 (afterLimit req resp1 (afterWait s)))).
Proof.
  intros req Hurl H1 H2 H3 L1 L2 L3. rewrite get_unfold. simpl. unfold bind.
  rewrite (getAttempt_limit env 0 url out (afterWait s) resp1 Hurl);
    [|by rewrite afterWait_sent|done].
  simpl. fold req.
  rewrite (getAttempt_limit env 1 url out _ resp2 Hurl);
    [|by rewrite afterLimit_sent, afterWait_sent|done].
  simpl. fold req.
  rewrite (getAttempt_limit env 2 url out _ resp3 Hurl);
    [|by rewrite !afterLimit_sent, afterWait_sent|done].
  reflexivity.
Qed.

End GetFacts.

(** ** Status 200 *)

(** C2, as amended. A 200 answer ends the call, at whichever attempt it
    arrives: the attempt updates the rate-limit fields from the answer,
    decodes the body into the target and returns exactly what the
    decoder returns, no error when the body decodes and the decoder's
    error when it does not. When the 200 answers the first request,
    [get] as a whole sends that one request and returns this result. *)
Theorem get_status_200 {float64 T} (dec : Unmarshal T) (env : Env) (url : string)
    (out : T) (s : State float64) (resp : http.Response) :
  newRequestError env url = None ->
  roundTrip env (sent s) (getRequest (client s) url) = inl resp ->
  http.StatusCode resp = http.StatusOK ->
  (forall attempt,
     getAttempt env attempt url out s =
       Some (Some (fst (Decode (http.Body resp) out),
                   External <$> snd (Decode (http.Body resp) out)),
             mkState (updateRateLimit (client s) resp) (now s)
                     (trace s ++ [EvRequest (getRequest (client s) url)]) (gauges s)))
  /\ exists s',
       get env url out s =
         Some ((fst (Decode (http.Body resp) out),
                External <$> snd (Decode (http.Body resp) out)), s')
       /\ (snd (Decode (http.Body resp) out) = None ->
           get env url out s = Some ((fst (Decode (http.Body resp) out), None), s'))
       /\ client s' = updateRateLimit (client s) resp
       /\ requestsOf (trace s') = requestsOf (trace s) ++ [getRequest (client s) url]
       /\ gauges s' = gauges s.
Proof.
  intros Hurl Hrt Hst. split.
  { intros attempt. by apply getAttempt_200. }
  eexists. split; [by apply get_200|].
  split; [|split; [reflexivity|split; [|reflexivity]]].
  - intros Hdec. rewrite (get_200 env url out s resp Hurl Hrt Hst).
    by rewrite Hdec.
  - cbn [trace]. by rewrite requestsOf_app, afterWait_requests.
Qed.

Lemma get_status_200_witness :
  newRequestError Scenario.threePages (seatsURL "acme" 1) = None
  /\ roundTrip Scenario.threePages (sent Scenario.state0)
       (getRequest (client Scenario.state0) (seatsURL "acme" 1))
     = inl Scenario.plainOK
  /\ http.StatusCode Scenario.plainOK = http.StatusOK
  /\ exists s',
       @get Z Scenario.threePages _ Scenario.seatsDecoder (seatsURL "acme" 1)
            zeroSeatsResponse Scenario.state0
       = Some ((Scenario.page1, None), s').
Proof.
  split; [reflexivity|]. split; [reflexivity|]. split; [reflexivity|].
  destruct (get_status_200 Scenario.seatsDecoder Scenario.threePages
              (seatsURL "acme" 1) zeroSeatsResponse Scenario.state0
              Scenario.plainOK)
    as (_ & s' & _ & Hok & _); [reflexivity..|].
  exists s'. apply Hok. reflexivity.
Defined.

(** C2 as stated fails: a 200 answer whose body the decoder rejects (here
    the empty body) makes [get] return the decoder's error. *)
Lemma undecodable_body_is_an_error :
  roundTrip (Scenario.scriptEnv [Scenario.ok EmptyString]) (sent Scenario.state0)
    (getRequest (client Scenario.state0) (seatsURL "acme" 1))
  = inl (http.mkResponse 200 ∅ EmptyString)
  /\ fst <$> @get Z (Scenario.scriptEnv [Scenario.ok EmptyString]) _ Scenario.seatsDecoder
               (seatsURL "acme" 1) zeroSeatsResponse Scenario.state0
     = Some (zeroSeatsResponse, Some (External "EOF")).
Proof. split; vm_compute; reflexivity. Qed.

(** ** The retry budget *)

(** C3, as amended. No call to [get] ends with the [exceeded max
    retries] error: the loop cannot run out, because the third
    rate-limit answer in a row already uses up the budget. A call whose
    three attempts are all answered by rate-limit answers sends three
    requests and fails with the error of the third answer, [secondary
    rate limited on URL after 3 retries] for a 429 and [primary rate
    limited on URL after 3 retries] for a 403 with no quota left. *)
Theorem get_retry_budget_exhausted {float64 T} (dec : Unmarshal T) (env : Env) :
  (forall (url : string) (out : T) (s : State float64),
     exists r s',
       get env url out s = Some (r, s')
       /\ forall u, snd r <> Some (ErrExceededMaxRetries u))
  /\ (forall (url : string) (out : T) (s : State float64) (resp1 resp2 resp3 : http.Response),
        newRequestError env url = None ->
        roundTrip env (sent s) (getRequest (client s) url) = inl resp1 ->
        roundTrip env (S (sent s)) (getRequest (client s) url) = inl resp2 ->
        roundTrip env (S (S (sent s))) (getRequest (client s) url) = inl resp3 ->
        isRateLimit resp1 = true -> isRateLimit resp2 = true -> isRateLimit resp3 = true ->
        exists s',
          get env url out s = Some ((out, Some (limitError url resp3)), s')
          /\ Error (limitError url resp3) =
               ((if isSecondaryLimit resp3 then "secondary" else "primary")
                ++ " rate limited on " ++ url ++ " after 3 retries")%string
          /\ requestsOf (trace s') =
               requestsOf (trace s)
               ++ [getRequest (client s) url; getRequest (client s) url;
                   getRequest (client s) url]).
Proof.
  split.
  - intros url out s. destruct (get_cases env url out s) as (r & s' & Hrun & _ & Hr).
    exists r, s'. split; [exact Hrun|]. intros u Heq. rewrite Heq in Hr. exact Hr.
  - intros url out s resp1 resp2 resp3 Hurl H1 H2 H3 L1 L2 L3.
    eexists. split; [by apply get_three_limits|]. split.
    + unfold limitError. by destruct (isSecondaryLimit resp3).
    + rewrite !afterLimit_requests, afterWait_requests, <- !app_assoc. reflexivity.
Qed.

Lemma get_retry_budget_exhausted_witness :
  newRequestError Scenario.always429 Scenario.url1 = None
  /\ roundTrip Scenario.always429 0 (getRequest Scenario.client0 Scenario.url1)
     = inl Scenario.tooMany
  /\ isRateLimit Scenario.tooMany = true
  /\ exists s',
       @get Z Scenario.always429 _ Scenario.seatsDecoder Scenario.url1
            zeroSeatsResponse Scenario.state0
       = Some ((zeroSeatsResponse,
                Some (ErrSecondaryRateLimited Scenario.url1 3)), s').
Proof.
  split; [reflexivity|]. split; [reflexivity|]. split; [reflexivity|].
  destruct (proj2 (@get_retry_budget_exhausted Z _ Scenario.seatsDecoder Scenario.always429)
              Scenario.url1 zeroSeatsResponse Scenario.state0
              Scenario.tooMany Scenario.tooMany Scenario.tooMany)
    as (s' & Hrun & _); [reflexivity..|].
  exists s'. exact Hrun.
Defined.

(** C3 as stated fails: three 429 answers in a row use up the three
    attempts, and the error is the one of the 429 branch. *)
Lemma get_exhausted_is_not_exceeded :
  fst <$> @get Z Scenario.always429 _ Scenario.seatsDecoder Scenario.url1
            zeroSeatsResponse Scenario.state0
  = Some (zeroSeatsResponse, Some (ErrSecondaryRateLimited Scenario.url1 3))
  /\ (length ∘ requestsOf ∘ trace ∘ snd)
       <$> @get Z Scenario.always429 _ Scenario.seatsDecoder Scenario.url1
             zeroSeatsResponse Scenario.state0
     = Some 3%nat
  /\ Error (ErrSecondaryRateLimited Scenario.url1 3) =
       "secondary rate limited on https://api.github.com/enterprises/acme/copilot/billing/seats?per_page=100&page=1 after 3 retries"%string
  /\ Error (ErrExceededMaxRetries Scenario.url1) =
       "get https://api.github.com/enterprises/acme/copilot/billing/seats?per_page=100&page=1: exceeded max retries"%string.
Proof. repeat split; vm_compute; reflexivity. Qed.

(** ** Status 429 *)

(** A [Retry-After] of at most 9223372036 seconds is slept exactly. *)
Lemma secondaryDelay_exact (resp : http.Response) (secs : Z) :
  strconv.ParseInt (http.Header_Get (http.RespHeader resp) "Retry-After") = Some secs ->
  0 < secs <= 9223372036 ->
  secondaryDelay resp = secs * time.Second.
Proof.
  intros Hparse Hrange. unfold secondaryDelay. rewrite Hparse.
  destruct (Z.ltb_spec 0 secs); [|lia].
  unfold int64.mul. apply wrap_small.
  unfold int64.in_range, int64.min, int64.max, time.Second. lia.
Qed.

(** Without a [Retry-After] that parses to a positive integer, the
    fallback of 60 seconds is slept. *)
Lemma secondaryDelay_fallback (resp : http.Response) :
  match strconv.ParseInt (http.Header_Get (http.RespHeader resp) "Retry-After") with
  | Some secs => secs <= 0
  | None => True
  end ->
  secondaryDelay resp = 60 * time.Second.
Proof.
  unfold secondaryDelay.
  destruct (strconv.ParseInt _) as [secs|]; [|reflexivity].
  intros Hle. destruct (Z.ltb_spec 0 secs); [lia|reflexivity].
Qed.

(** Three 429 answers in a row end the call with the [secondary rate
    limited] error. *)
Lemma get_three_429 {float64 T} (dec : Unmarshal T) (env : Env) (url : string)
    (out : T) (s : State float64) (resp1 resp2 resp3 : http.Response) :
  newRequestError env url = None ->
  roundTrip env (sent s) (getRequest (client s) url) = inl resp1 ->
  roundTrip env (S (sent s)) (getRequest (client s) url) = inl resp2 ->
  roundTrip env (S (S (sent s))) (getRequest (client s) url) = inl resp3 ->
  http.StatusCode resp1 = 429 -> http.StatusCode resp2 = 429 ->
  http.StatusCode resp3 = 429 ->
  exists s',
    get env url out s = Some ((out, Some (ErrSecondaryRateLimited url 3)), s')
    /\ sleepsOf (trace s') =
         sleepsOf (trace (afterWait s))
         ++ [secondaryDelay resp1; secondaryDelay resp2; secondaryDelay resp3].
Proof.
  intros Hurl H1 H2 H3 E1 E2 E3.
  assert (Hlim : forall r, http.StatusCode r = 429 ->
                           isRateLimit r = true /\ isSecondaryLimit r = true).
  { intros r Hr. unfold isRateLimit, isSecondaryLimit. by rewrite Hr. }
  destruct (Hlim _ E1) as [L1 S1], (Hlim _ E2) as [L2 S2], (Hlim _ E3) as [L3 S3].
  eexists. split.
  - rewrite (get_three_limits env url out s resp1 resp2 resp3); try done.
    unfold limitError. by rewrite S3.
  - unfold afterLimit, limitEvents, limitDelay. cbn [trace].
    rewrite S1, S2, S3. rewrite !sleepsOf_app. simpl.
    by rewrite <- !app_assoc.
Qed.

(** C4 at the failing input. A [Retry-After] of 9223372037 seconds
    parses to a positive integer, but its conversion to nanoseconds
    wraps around to a negative duration: [time.Sleep] returns at once
    and the clock does not move. Against a server that keeps answering
    so, [get] sends its three requests back to back. *)
Theorem sleepSecondaryRateLimit_wraps :
  strconv.ParseInt (http.Header_Get (http.RespHeader Scenario.tooManyForLong) "Retry-After")
    = Some 9223372037
  /\ int64.mul 9223372037 time.Second = -9223372036709551616
  /\ @sleepSecondaryRateLimit Z Scenario.tooManyForLong Scenario.state0
     = Some (-9223372036709551616,
             mkState Scenario.client0 (now Scenario.state0)
                     [EvSleep (-9223372036709551616)] Scenario.gauges0)
  /\ (fun r => (snd (fst r), sleepsOf (trace (snd r)), now (snd r) - now Scenario.state0))
       <$> @get Z Scenario.always429ForLong _ Scenario.seatsDecoder Scenario.url1
             zeroSeatsResponse Scenario.state0
     = Some (Some (ErrSecondaryRateLimited Scenario.url1 3),
             [-9223372036709551616; -9223372036709551616; -9223372036709551616],
             0).
Proof. repeat split; vm_compute; reflexivity. Qed.

(** ** Status 403 without an exhausted quota *)

(** C5, as amended. A 403 whose [X-RateLimit-Remaining] header is
    absent or differs from [0] ends the call with the [unexpected
    status] error, at whichever attempt it arrives: that attempt sends
    its request and returns, with no sleep and no further attempt. When
    such a 403 answers the first request, [get] as a whole has sent one
    request and has done nothing after it; the only sleep the call can
    contain is the wait before the request, made when the tracked
    remaining count is 0 and the tracked reset time plus 5 seconds is
    still ahead. *)
Theorem get_403_not_rate_limit {float64 T} (dec : Unmarshal T) (env : Env)
    (url : string) (out : T) (s : State float64) (resp : http.Response) :
  newRequestError env url = None ->
  roundTrip env (sent s) (getRequest (client s) url) = inl resp ->
  http.StatusCode resp = http.StatusForbidden ->
  http.Header_Get (http.RespHeader resp) "X-RateLimit-Remaining" <> "0"%string ->
  (forall attempt,
     getAttempt env attempt url out s =
       Some (Some (out, Some (ErrUnexpectedStatus 403 url)),
             mkState (client s) (now s)
                     (trace s ++ [EvRequest (getRequest (client s) url)]) (gauges s)))
  /\ exists s',
       get env url out s = Some ((out, Some (ErrUnexpectedStatus 403 url)), s')
       /\ Error (ErrUnexpectedStatus 403 url) = ("unexpected status 403 for " ++ url)%string
       /\ trace s' = trace s ++ preemptiveEvents (client s) (now s)
                             ++ [EvRequest (getRequest (client s) url)]
       /\ requestsOf (trace s') = requestsOf (trace s) ++ [getRequest (client s) url]
       /\ sleepsOf (trace s') =
            sleepsOf (trace s)
            ++ (if waitsPreemptively (client s) (now s)
                then [preemptiveDelay (client s) (now s)] else [])
       /\ client s' = client s.
Proof.
  intros Hurl Hrt Hst Hhdr.
  assert (Hlim : isRateLimit resp = false).
  { unfold isRateLimit, isSecondaryLimit, isPrimaryLimit. rewrite Hst. simpl.
    by apply String.eqb_neq. }
  split.
  { intros attempt.
    rewrite (getAttempt_unexpected env attempt url out s resp Hurl Hrt);
      [|by rewrite Hst|done].
    by rewrite Hst. }
  eexists. split.
  { rewrite (get_unexpected env url out s resp Hurl Hrt); [|by rewrite Hst|done].
    by rewrite Hst. }
  split; [reflexivity|].
  unfold afterRequest, afterWait. cbn [trace client].
  split; [by rewrite <- app_assoc|].
  unfold preemptiveEvents.
  split; [|split; [|reflexivity]].
  - rewrite !requestsOf_app.
    destruct (waitsPreemptively _ _); simpl; by rewrite ?app_nil_r.
  - rewrite !sleepsOf_app.
    destruct (waitsPreemptively _ _); simpl; by rewrite ?app_nil_r.
Qed.

Lemma get_403_not_rate_limit_witness :
  newRequestError (Scenario.scriptEnv [inl Scenario.forbidden]) Scenario.url1 = None
  /\ roundTrip (Scenario.scriptEnv [inl Scenario.forbidden]) (sent Scenario.state0)
       (getRequest (client Scenario.state0) Scenario.url1)
     = inl Scenario.forbidden
  /\ http.StatusCode Scenario.forbidden = http.StatusForbidden
  /\ http.Header_Get (http.RespHeader Scenario.forbidden) "X-RateLimit-Remaining"
     <> "0"%string
  /\ exists s',
       @get Z (Scenario.scriptEnv [inl Scenario.forbidden]) _ Scenario.seatsDecoder
            Scenario.url1 zeroSeatsResponse Scenario.state0
       = Some ((zeroSeatsResponse, Some (ErrUnexpectedStatus 403 Scenario.url1)), s')
       /\ sleepsOf (trace s') = [].
Proof.
  split; [reflexivity|]. split; [reflexivity|]. split; [reflexivity|].
  split; [discriminate|].
  destruct (get_403_not_rate_limit Scenario.seatsDecoder
              (Scenario.scriptEnv [inl Scenario.forbidden]) Scenario.url1
              zeroSeatsResponse Scenario.state0 Scenario.forbidden)
    as (_ & s' & Hrun & _ & _ & _ & Hsleep & _); [reflexivity..|discriminate|].
  exists s'. split; [exact Hrun | exact Hsleep].
Defined.

(** C5 as stated fails. A fresh client first gets a 200 that reports the
    quota as used up until ten seconds from now, then calls [get] again
    and is answered by a plain 403: the second call sleeps fifteen
    seconds before its request, then returns the [unexpected status]
    error. *)
Lemma get_403_after_preemptive_wait :
  fst <$> (@get Z Scenario.quotaThenForbidden _ Scenario.seatsDecoder Scenario.url1
             zeroSeatsResponse ;;
           @get Z Scenario.quotaThenForbidden _ Scenario.seatsDecoder Scenario.url1
             zeroSeatsResponse) Scenario.state0
  = Some (zeroSeatsResponse, Some (ErrUnexpectedStatus 403 Scenario.url1))
  /\ (sleepsOf ∘ trace ∘ snd)
       <$> (@get Z Scenario.quotaThenForbidden _ Scenario.seatsDecoder Scenario.url1
              zeroSeatsResponse ;;
            @get Z Scenario.quotaThenForbidden _ Scenario.seatsDecoder Scenario.url1
              zeroSeatsResponse) Scenario.state0
     = Some [15 * time.Second]
  /\ (length ∘ requestsOf ∘ trace ∘ snd)
       <$> (@get Z Scenario.quotaThenForbidden _ Scenario.seatsDecoder Scenario.url1
              zeroSeatsResponse ;;
            @get Z Scenario.quotaThenForbidden _ Scenario.seatsDecoder Scenario.url1
              zeroSeatsResponse) Scenario.state0
     = Some 2%nat.
Proof. repeat split; vm_compute; reflexivity. Qed.

(** ** The tracked rate-limit state *)

(** C6, as amended. [updateRateLimit] reads the two headers leniently
    and alike: a header that is present and parses replaces its field;
    an absent or unparseable header leaves its field, the remaining
    count or the reset time, as it was. No other field of the client
    changes, and [get] applies this update to its client on a 200. *)
Theorem updateRateLimit_lenient (c : Client) (resp : http.Response) :
  rateLimitRemaining (updateRateLimit c resp) =
    default (rateLimitRemaining c)
      (strconv.Atoi (http.Header_Get (http.RespHeader resp) "X-RateLimit-Remaining"))
  /\ rateLimitReset (updateRateLimit c resp) =
       default (rateLimitReset c)
         (time.Unix <$>
            strconv.ParseInt (http.Header_Get (http.RespHeader resp) "X-RateLimit-Reset"))
  /\ httpClient (updateRateLimit c resp) = httpClient c
  /\ token (updateRateLimit c resp) = token c
  /\ logger (updateRateLimit c resp) = logger c
  /\ (forall float64 T (dec : Unmarshal T) (env : Env) (url : string) (out : T)
             (s : State float64),
        client s = c ->
        newRequestError env url = None ->
        roundTrip env (sent s) (getRequest c url) = inl resp ->
        http.StatusCode resp = http.StatusOK ->
        exists r s', get env url out s = Some (r, s')
                     /\ client s' = updateRateLimit c resp).
Proof.
  split; [|split].
  - unfold updateRateLimit.
    destruct (String.eqb_spec (http.Header_Get (http.RespHeader resp) "X-RateLimit-Remaining") EmptyString)
      as [E|E]; simpl.
    + rewrite E. simpl.
      destruct (negb _); [destruct (strconv.ParseInt _)|]; reflexivity.
    + destruct (strconv.Atoi _); simpl;
        (destruct (negb _); [destruct (strconv.ParseInt _)|]; reflexivity).
  - unfold updateRateLimit.
    destruct (String.eqb_spec (http.Header_Get (http.RespHeader resp) "X-RateLimit-Reset") EmptyString)
      as [E|E]; simpl.
    + rewrite E. simpl.
      destruct (negb _); [destruct (strconv.Atoi _)|]; reflexivity.
    + destruct (strconv.ParseInt _); simpl; [reflexivity|].
      destruct (negb _); [destruct (strconv.Atoi _)|]; reflexivity.
  - destruct (updateRateLimit_frame c resp) as (Hh & Ht & Hl).
    split; [exact Hh|]. split; [exact Ht|]. split; [exact Hl|].
    intros float64 T dec env url out s <- Hurl Hrt Hst.
    eexists _, _. split; [by apply get_200|]. reflexivity.
Qed.

Lemma updateRateLimit_lenient_witness :
  client Scenario.state0 = Scenario.client0
  /\ newRequestError Scenario.threePages Scenario.url1 = None
  /\ roundTrip Scenario.threePages (sent Scenario.state0)
       (getRequest Scenario.client0 Scenario.url1) = inl Scenario.plainOK
  /\ http.StatusCode Scenario.plainOK = http.StatusOK
  /\ exists r s',
       @get Z Scenario.threePages _ Scenario.seatsDecoder Scenario.url1
            zeroSeatsResponse Scenario.state0 = Some (r, s')
       /\ client s' = updateRateLimit Scenario.client0 Scenario.plainOK.
Proof.
  split; [reflexivity|]. split; [reflexivity|]. split; [reflexivity|].
  split; [reflexivity|].
  apply (proj2 (proj2 (proj2 (proj2 (proj2
           (updateRateLimit_lenient Scenario.client0 Scenario.plainOK)))))
           Z SeatsResponse Scenario.seatsDecoder Scenario.threePages Scenario.url1
           zeroSeatsResponse Scenario.state0); reflexivity.
Defined.

(** C6 as stated fails for the reset time: without a reset header, or
    with one that does not parse, the reset time the client had is
    kept, whatever it was, and not replaced. *)
Lemma updateRateLimit_keeps_reset :
  http.Header_Get (http.RespHeader Scenario.plainOK) "X-RateLimit-Reset" = EmptyString
  /\ rateLimitReset (updateRateLimit (client Scenario.stateExhausted) Scenario.plainOK)
     = time.Unix 1700000010
  /\ rateLimitReset (updateRateLimit Scenario.client0 Scenario.plainOK) = time.zero
  /\ http.Header_Get (http.RespHeader Scenario.vagueOK) "X-RateLimit-Reset" = "soon"%string
  /\ rateLimitReset (updateRateLimit (client Scenario.stateExhausted) Scenario.vagueOK)
     = time.Unix 1700000010
  /\ rateLimitReset (updateRateLimit Scenario.client0 Scenario.vagueOK) = time.zero.
Proof. repeat split; vm_compute; reflexivity. Qed.

(** ** Seat pagination *)

Lemma getRequest_token (c c' : Client) (url : string) :
  token c = token c' -> getRequest c url = getRequest c' url.
Proof. intros E. unfold getRequest, setHeaders. by rewrite E. Qed.

Lemma map_seq_shift {A} (f : nat -> A) (n len : nat) :
  map f (seq (S n) len) = map (fun k => f (S k)) (seq n len).
Proof. by rewrite <- seq_shift, map_map. Qed.

Section Pagination.

Context {float64 : Type} `{Unmarshal SeatsResponse}.
Variable env : Env.
Implicit Types (s : State float64) (pages full : list SeatsResponse).

Lemma servesPages_tail c c' enterprise n0 page p pages :
  token c = token c' ->
  servesPages env c enterprise n0 page (p :: pages) ->
  servesPages env c' enterprise (S n0) (page + 1) pages.
Proof.
  intros Htok Hs k q Hk. destruct (Hs (S k) q Hk) as (Hurl & resp & Hrt & Hst & Hdec).
  replace (page + 1 + Z.of_nat k) with (page + Z.of_nat (S k)) by lia.
  split; [exact Hurl|]. exists resp.
  rewrite <- (getRequest_token c c') by exact Htok.
  replace (S n0 + k)%nat with (n0 + S k)%nat by lia. done.
Qed.

(** One page fetched: the state afterwards and what [get] returned. *)
Lemma get_page enterprise page p pages s :
  servesPages env (client s) enterprise (sent s) page (p :: pages) ->
  exists s1,
    get env (seatsURL enterprise page) zeroSeatsResponse s = Some ((p, None), s1)
    /\ token (client s1) = token (client s)
    /\ sent s1 = S (sent s)
    /\ requestsOf (trace s1) =
         requestsOf (trace s) ++ [getRequest (client s) (seatsURL enterprise page)]
    /\ extends s s1.
Proof.
  intros Hs. destruct (Hs 0%nat p eq_refl) as (Hurl & resp & Hrt & Hst & Hdec).
  rewrite Z.add_0_r, Nat.add_0_r in *.
  eexists. split.
  { rewrite (get_200 env _ zeroSeatsResponse s resp Hurl Hrt Hst). by rewrite Hdec. }
  destruct (updateRateLimit_frame (client s) resp) as (Hh & Ht & Hl).
  assert (Hreq : requestsOf (trace (afterWait s) ++ [EvRequest (getRequest (client s) (seatsURL enterprise page))])
                 = requestsOf (trace s) ++ [getRequest (client s) (seatsURL enterprise page)]).
  { by rewrite requestsOf_app, afterWait_requests. }
  split; [exact Ht|]. split; [|split; [exact Hreq|]].
  - unfold sent. cbn [trace]. rewrite Hreq, length_app. simpl. lia.
  - eapply extends_trans; [apply afterWait_extends|].
    apply (extends_events (afterWait s)); try done; try lia. repeat constructor.
Qed.

Lemma listSeatsLoop_pages full : forall last fuel enterprise page logins s,
  servesPages env (client s) enterprise (sent s) page (full ++ [last]) ->
  Forall (fun p => perPage <= Z.of_nat (length (Seats p))) full ->
  Z.of_nat (length (Seats last)) < perPage ->
  int64.min <= page -> page + Z.of_nat (length full) <= int64.max ->
  (length full < fuel)%nat ->
  exists s',
    listSeatsLoop env fuel enterprise page logins s =
      Some (inl (logins ++ flat_map loginsOf (full ++ [last])), s')
    /\ requestsOf (trace s') =
         requestsOf (trace s)
         ++ map (fun k => getRequest (client s) (seatsURL enterprise (page + Z.of_nat k)))
                (seq 0 (S (length full)))
    /\ extends s s'.
Proof.
  induction full as [|p full IH];
    intros last fuel enterprise page logins s Hs Hfull Hlast Hlo Hhi Hfuel;
    (destruct fuel as [|fuel]; [simpl in Hfuel; lia|]).
  - destruct (get_page enterprise page last [] s Hs) as (s1 & Hget & _ & _ & Hreq & Hext).
    exists s1. simpl. unfold bind. rewrite Hget. simpl.
    destruct (Z.ltb_spec (Z.of_nat (length (Seats last))) perPage); [|lia].
    split; [by rewrite app_nil_r|]. split; [|exact Hext].
    by rewrite Z.add_0_r.
  - destruct (get_page enterprise page p (full ++ [last]) s Hs)
      as (s1 & Hget & Htok & Hsent & Hreq & Hext).
    inversion Hfull as [|? ? Hp Hrest]; subst.
    destruct (IH last fuel enterprise (page + 1) (logins ++ loginsOf p) s1)
      as (s' & Hloop & Hreq' & Hext'); try done.
    { rewrite Hsent. eapply servesPages_tail; [|exact Hs]. by symmetry. }
    { lia. }
    { simpl in Hhi. lia. }
    { simpl in Hfuel. lia. }
    exists s'. split; [|split].
    + simpl. unfold bind. rewrite Hget. simpl.
      destruct (Z.ltb_spec (Z.of_nat (length (Seats p))) perPage); [lia|].
      unfold int64.add. rewrite wrap_small.
      2:{ unfold int64.in_range. simpl in Hhi. lia. }
      fold (loginsOf p). rewrite Hloop. by rewrite <- app_assoc.
    + rewrite Hreq', Hreq, <- app_assoc. f_equal.
      change (seq 0 (S (length (p :: full)))) with (0%nat :: seq 1 (S (length full))).
      rewrite map_cons, map_seq_shift, Z.add_0_r. cbn [app]. f_equal.
      apply map_ext. intros k.
      rewrite (getRequest_token (client s1) (client s)) by exact Htok.
      do 2 f_equal. lia.
    + eapply extends_trans; eassumption.
Qed.

End Pagination.

(** The URL [ListCopilotSeats] builds, as text. *)
Lemma seatsURL_text (enterprise : string) (page : Z) :
  seatsURL enterprise page = pageURL enterprise page.
Proof. reflexivity. Qed.

Lemma holdsPages_servesPages `{Unmarshal SeatsResponse} (env : Env) (c : Client)
    (enterprise : string) (n0 : nat) (pages : list SeatsResponse) :
  holdsPages env c enterprise n0 pages -> servesPages env c enterprise n0 1 pages.
Proof.
  intros Hs k p Hk. destruct (Hs k p Hk) as (Hurl & resp & Hrt & Hst & Hdec).
  rewrite seatsURL_text. split; [exact Hurl|]. by exists resp.
Qed.

(** C7. [ListCopilotSeats] asks for pages of 100 seats, numbered from 1,
    one request per page, each for
    [https://api.github.com/enterprises/E/copilot/billing/seats?per_page=100&page=K],
    and stops at the first page with fewer than 100 seats: against a
    server that holds full pages followed by a short one, it sends one
    request per page and returns the logins of all pages in page order.
    For pages of 100, 100 and 37 seats this is 3 requests, for the
    pages 1, 2 and 3, and 237 logins; for an empty first page it is 1
    request, for page 1, and no login. *)
Theorem ListCopilotSeats_pagination {float64} (dec : Unmarshal SeatsResponse)
    (env : Env) (enterprise : string) (s : State float64) (fuel : nat) :
  (forall (full : list SeatsResponse) (last : SeatsResponse),
     holdsPages env (client s) enterprise (sent s) (full ++ [last]) ->
     Forall (fun p => 100 <= Z.of_nat (length (Seats p))) full ->
     Z.of_nat (length (Seats last)) < 100 ->
     1 + Z.of_nat (length full) <= int64.max ->
     (length full < fuel)%nat ->
     exists s',
       ListCopilotSeats env fuel enterprise s =
         Some (inl (flat_map (fun p => map (fun seat => Login (Seat_Assignee seat))
                                           (Seats p))
                             (full ++ [last])), s')
       /\ requestsOf (trace s') =
            requestsOf (trace s)
            ++ map (fun k =>
                      getRequest (client s)
                        ("https://api.github.com/enterprises/" ++ enterprise
                         ++ "/copilot/billing/seats?per_page=100&page="
                         ++ strconv.Itoa (1 + Z.of_nat k))%string)
                   (seq 0 (S (length full)))
       /\ gauges s' = gauges s)
  /\ (forall p1 p2 p3 : SeatsResponse,
        holdsPages env (client s) enterprise (sent s) [p1; p2; p3] ->
        length (Seats p1) = 100%nat -> length (Seats p2) = 100%nat ->
        length (Seats p3) = 37%nat ->
        (3 <= fuel)%nat ->
        exists logins s',
          ListCopilotSeats env fuel enterprise s = Some (inl logins, s')
          /\ logins = map (fun seat => Login (Seat_Assignee seat)) (Seats p1)
                      ++ map (fun seat => Login (Seat_Assignee seat)) (Seats p2)
                      ++ map (fun seat => Login (Seat_Assignee seat)) (Seats p3)
          /\ length logins = 237%nat
          /\ requestsOf (trace s') =
               requestsOf (trace s)
               ++ [getRequest (client s)
                     ("https://api.github.com/enterprises/" ++ enterprise
                      ++ "/copilot/billing/seats?per_page=100&page=1")%string;
                   getRequest (client s)
                     ("https://api.github.com/enterprises/" ++ enterprise
                      ++ "/copilot/billing/seats?per_page=100&page=2")%string;
                   getRequest (client s)
                     ("https://api.github.com/enterprises/" ++ enterprise
                      ++ "/copilot/billing/seats?per_page=100&page=3")%string])
  /\ (forall p1 : SeatsResponse,
        holdsPages env (client s) enterprise (sent s) [p1] ->
        length (Seats p1) = 0%nat ->
        (1 <= fuel)%nat ->
        exists s',
          ListCopilotSeats env fuel enterprise s = Some (inl [], s')
          /\ requestsOf (trace s') =
               requestsOf (trace s)
               ++ [getRequest (client s)
                     ("https://api.github.com/enterprises/" ++ enterprise
                      ++ "/copilot/billing/seats?per_page=100&page=1")%string]).
Proof.
  assert (General : forall (full : list SeatsResponse) (last : SeatsResponse),
     holdsPages env (client s) enterprise (sent s) (full ++ [last]) ->
     Forall (fun p => 100 <= Z.of_nat (length (Seats p))) full ->
     Z.of_nat (length (Seats last)) < 100 ->
     1 + Z.of_nat (length full) <= int64.max ->
     (length full < fuel)%nat ->
     exists s',
       ListCopilotSeats env fuel enterprise s =
         Some (inl (flat_map loginsOf (full ++ [last])), s')
       /\ requestsOf (trace s') =
            requestsOf (trace s)
            ++ map (fun k => getRequest (client s) (pageURL enterprise (1 + Z.of_nat k)))
                   (seq 0 (S (length full)))
       /\ gauges s' = gauges s).
  { intros full last Hs Hfull Hlast Hhi Hfuel.
    destruct (listSeatsLoop_pages env full last fuel enterprise 1 [] s
                (holdsPages_servesPages _ _ _ _ _ Hs) Hfull Hlast)
      as (s' & Hrun & Hreq & Hext); [done | exact Hhi | exact Hfuel |].
    exists s'. split; [exact Hrun|]. split; [exact Hreq | apply Hext]. }
  split; [exact General|]. split.
  - intros p1 p2 p3 Hs L1 L2 L3 Hfuel.
    destruct (General [p1; p2] p3) as (s' & Hrun & Hreq & _);
      [ exact Hs
      | repeat constructor; lia
      | lia
      | unfold int64.max; simpl; lia
      | simpl; lia
      | ].
    eexists _, s'. split; [exact Hrun|]. simpl. rewrite app_nil_r.
    split; [reflexivity|]. split; [|exact Hreq].
    unfold loginsOf. rewrite !length_app, !length_map. lia.
  - intros p1 Hs L1 Hfuel.
    destruct (General [] p1) as (s' & Hrun & Hreq & _);
      [ exact Hs
      | constructor
      | lia
      | unfold int64.max; simpl; lia
      | simpl; lia
      | ].
    exists s'. split; [|exact Hreq].
    rewrite Hrun. simpl. rewrite app_nil_r. unfold loginsOf.
    destruct (Seats p1); [reflexivity|discriminate].
Qed.

Lemma ListCopilotSeats_pagination_witness :
  @holdsPages Scenario.seatsDecoder Scenario.threePages (client Scenario.state0)
     "acme" (sent Scenario.state0) [Scenario.page1; Scenario.page2; Scenario.page3]
  /\ length (Seats Scenario.page1) = 100%nat
  /\ length (Seats Scenario.page2) = 100%nat
  /\ length (Seats Scenario.page3) = 37%nat
  /\ (3 <= 5)%nat
  /\ exists logins s',
       @ListCopilotSeats Z Scenario.threePages Scenario.seatsDecoder 5 "acme"
          Scenario.state0 = Some (inl logins, s')
       /\ length logins = 237%nat
       /\ map http.URL (requestsOf (trace s')) =
            ["https://api.github.com/enterprises/acme/copilot/billing/seats?per_page=100&page=1";
             "https://api.github.com/enterprises/acme/copilot/billing/seats?per_page=100&page=2";
             "https://api.github.com/enterprises/acme/copilot/billing/seats?per_page=100&page=3"]%string.
Proof.
  assert (Hs : @holdsPages Scenario.seatsDecoder Scenario.threePages
                 (client Scenario.state0) "acme" (sent Scenario.state0)
                 [Scenario.page1; Scenario.page2; Scenario.page3]).
  { intros k p Hk. destruct k as [|[|[|k]]]; simpl in Hk; [| | |discriminate];
      injection Hk as <-;
      (split; [reflexivity|]; eexists; split; [reflexivity|];
       split; vm_compute; reflexivity). }
  split; [exact Hs|]. split; [reflexivity|]. split; [reflexivity|].
  split; [reflexivity|]. split; [lia|].
  destruct (proj1 (proj2 (@ListCopilotSeats_pagination Z Scenario.seatsDecoder
                            Scenario.threePages "acme" Scenario.state0 5))
              Scenario.page1 Scenario.page2 Scenario.page3 Hs)
    as (logins & s' & Hrun & _ & Hlen & Hreq); [reflexivity..|lia|].
  exists logins, s'. split; [exact Hrun|]. split; [exact Hlen|].
  rewrite Hreq. reflexivity.
Defined.

(** An empty first page, run: one request, no login. *)
Lemma ListCopilotSeats_empty_first_page :
  (fun r => (fst r, length (requestsOf (trace (snd r)))))
    <$> @ListCopilotSeats Z Scenario.emptyFirstPage Scenario.seatsDecoder 1 "acme"
          Scenario.state0
  = Some (inl [], 1%nat).
Proof. vm_compute. reflexivity. Qed.

(** ** The collection cycle *)

Section CollectFacts.

Context {float64 : Type}.
Context `{!Unmarshal SeatsResponse} `{!Unmarshal (UsageResponse float64)}.
Variable env : Env.
Implicit Types (s : State float64) (entries : list (metricEntry float64)).

Lemma get_extends {T} `{Unmarshal T} url (out : T) s r s' :
  get env url out s = Some (r, s') -> extends s s'.
Proof.
  intros Hrun. destruct (get_cases env url out s) as (r0 & s0 & Hrun0 & Hext & _).
  congruence.
Qed.

(** Listing the seats is client activity only. *)
Lemma listSeatsLoop_extends fuel : forall enterprise page logins s r s',
  listSeatsLoop env fuel enterprise page logins s = Some (r, s') -> extends s s'.
Proof.
  induction fuel as [|fuel IH]; intros enterprise page logins s r s' Hrun;
    [discriminate|].
  simpl in Hrun. unfold bind in Hrun.
  destruct (get env (seatsURL enterprise page) zeroSeatsResponse s)
    as [[[resp err] s1]|] eqn:Hget; [|discriminate].
  pose proof (get_extends _ _ _ _ _ Hget) as Hext.
  destruct err as [err|].
  - injection Hrun as <- <-. exact Hext.
  - destruct (Z.of_nat (length (Seats resp)) <? perPage).
    + injection Hrun as <- <-. exact Hext.
    + eapply extends_trans; [exact Hext|]. eapply IH. exact Hrun.
Qed.

Lemma ListCopilotSeats_extends fuel enterprise s r s' :
  ListCopilotSeats env fuel enterprise s = Some (r, s') -> extends s s'.
Proof. apply listSeatsLoop_extends. Qed.

(** Fetching one user's usage always returns. *)
Lemma GetUserPremiumUsage_cases enterprise user s :
  exists r s',
    GetUserPremiumUsage env enterprise user s = Some (r, s') /\ extends s s'.
Proof.
  destruct (get_cases env (usageURL enterprise user) (@zeroUsageResponse float64) s)
    as ([resp err] & s' & Hrun & Hext & _).
  unfold GetUserPremiumUsage, bind. rewrite Hrun.
  destruct err; eexists _, _; (split; [reflexivity | exact Hext]).
Qed.

Lemma logged_extends lvl msg s : extends s (logged lvl msg s).
Proof. apply extends_events; try done; try lia. repeat constructor. Qed.

(** The fetch loop always runs to its end. *)
Lemma Fetched_total enterprise logins : forall s,
  exists outcomes s', Fetched env enterprise logins s outcomes s' /\ extends s s'.
Proof.
  induction logins as [|login rest IH]; intros s.
  - exists [], s. split; [constructor | apply extends_refl].
  - destruct (GetUserPremiumUsage_cases enterprise login s) as ([usage|err] & s1 & Hrun & Hext).
    + destruct (IH s1) as (outcomes & s2 & Hrest & Hext2).
      exists ((login, inl usage) :: outcomes), s2.
      split; [by eapply Fetched_ok | by eapply extends_trans].
    + destruct (IH (logged Warn "failed to get usage for user" s1))
        as (outcomes & s2 & Hrest & Hext2).
      exists ((login, inr err) :: outcomes), s2.
      split; [by eapply Fetched_failed|].
      eapply extends_trans; [exact Hext|].
      eapply extends_trans; [apply logged_extends | exact Hext2].
Qed.


(** The entries [collect] gathers are the observations of the users
    whose fetch succeeded, in seat order. *)
Lemma collectEntries_Fetched enterprise logins s outcomes s' :
  Fetched env enterprise logins s outcomes s' ->
  forall entries,
    collectEntries env enterprise logins entries s =
    Some (entries ++ snapshotOf enterprise outcomes, s').
Proof.
  induction 1 as [s|login rest s usage s1 outcomes s2 Hrun _ IH
                 |login rest s err s1 outcomes s2 Hrun _ IH]; intros entries.
  - simpl. by rewrite app_nil_r.
  - simpl. unfold bind. rewrite Hrun. rewrite IH.
    unfold snapshotOf. simpl. by rewrite <- app_assoc.
  - simpl. unfold bind. rewrite Hrun. run_monad.
    fold (logged Warn "failed to get usage for user" s1). rewrite IH.
    reflexivity.
Qed.

(** The three writes of an entry panic together or not at all. *)
Lemma setOps_panics (e : metricEntry float64) rest :
  existsb withPanics (setOps e ++ rest) =
  negb (validLabels (labels e)) || existsb withPanics rest.
Proof. simpl. by destruct (validLabels (labels e)). Qed.

Lemma validEntry_labels (e : metricEntry float64) :
  validEntry e <-> validLabels (labels e) = true.
Proof.
  unfold validEntry, validLabels. rewrite !andb_true_iff. tauto.
Qed.

Lemma validEntries_panics (entries : list (metricEntry float64)) :
  Forall validEntry entries <-> existsb withPanics (flat_map setOps entries) = false.
Proof.
  induction entries as [|e rest IH].
  - split; [reflexivity | constructor].
  - cbn [flat_map]. rewrite setOps_panics, orb_false_iff, negb_false_iff, <- IH.
    rewrite <- validEntry_labels. split.
    + intros Hall. by inversion Hall.
    + intros [He Hrest]. by constructor.
Qed.

(** The set loop runs to its end unless one of its writes panics. *)
Lemma setEntries_run entries : forall s,
  setEntries entries s =
  if existsb withPanics (flat_map setOps entries) then None
  else Some (tt, mkState (client s) (now s)
                         (trace s ++ map EvGauge (flat_map setOps entries))
                         (fold_left (fun G op => applyOp op G) (flat_map setOps entries)
                                    (gauges s))).
Proof.
  induction entries as [|e rest IH]; intros s.
  - simpl. rewrite app_nil_r. by destruct s.
  - cbn [setEntries flat_map]. rewrite setOps_panics.
    unfold bind, gaugeOp. cbn [withPanics].
    destruct (validLabels (labels e)); [|reflexivity].
    cbn [negb orb client now trace gauges].
    rewrite IH. destruct (existsb withPanics (flat_map setOps rest)); [reflexivity|].
    cbn [client now trace gauges]. rewrite fold_left_app, map_app.
    simpl. by rewrite <- !app_assoc.
Qed.

(** Whatever was exposed before, publishing leaves exactly the snapshot. *)
Lemma publishOps_published entries (G : Gauges float64) :
  fold_left (fun G op => applyOp op G) (publishOps entries) G = published entries.
Proof. unfold publishOps, published. rewrite fold_left_app. reflexivity. Qed.

Lemma gaugeOpsOf_map_EvGauge (ops : list (GaugeOp float64)) :
  gaugeOpsOf (map EvGauge ops) = ops.
Proof. induction ops as [|op ops IH]; simpl; [done|]. unfold gaugeOpsOf in *. simpl. by rewrite IH. Qed.

(** Once the seats are listed the cycle publishes what it fetched,
    unless a write of the publication panics. *)
Lemma collect_run fuel enterprise s logins s1 outcomes s2 :
  ListCopilotSeats env fuel enterprise s = Some (inl logins, s1) ->
  Fetched env enterprise logins (logged Info "found copilot seat holders" s1)
          outcomes s2 ->
  collect env fuel enterprise s =
  if existsb withPanics (flat_map setOps (snapshotOf enterprise outcomes)) then None
  else Some (None, afterPublish (snapshotOf enterprise outcomes) s2).
Proof.
  intros Hlist Hfetch. unfold collect, bind at 1. rewrite Hlist.
  unfold bind at 1. unfold logInfo, emit.
  fold (logged Info "found copilot seat holders" s1).
  unfold bind at 1. rewrite (collectEntries_Fetched _ _ _ _ _ Hfetch []).
  rewrite app_nil_l. run_monad. rewrite setEntries_run.
  destruct (existsb withPanics (flat_map setOps (snapshotOf enterprise outcomes)));
    [reflexivity|].
  simpl. unfold afterPublish. f_equal. f_equal.
  rewrite <- (publishOps_published _ (gauges s2)). unfold publishOps.
  rewrite fold_left_app. simpl. f_equal.
  by rewrite <- !app_assoc.
Qed.

End CollectFacts.

Lemma gaugeOpsOf_extends {float64} (s s' : State float64) :
  extends s s' -> gaugeOpsOf (trace s') = gaugeOpsOf (trace s).
Proof.
  intros [[evs [-> Hio]] _ _ _ _ _].
  by rewrite gaugeOpsOf_app, (gaugeOpsOf_io evs Hio), app_nil_r.
Qed.

Lemma snapshotOf_In {float64} (enterprise : string)
    (outcomes : list (string * (UsageResponse float64 + error)))
    (e : metricEntry float64) :
  In e (snapshotOf enterprise outcomes) <->
  exists login usage item,
    In (login, inl usage) outcomes /\ In item (UsageItems usage)
    /\ e = entryOf enterprise login item.
Proof.
  unfold snapshotOf. rewrite in_flat_map. split.
  - intros ([login [usage|err]] & Hin & He); simpl in He; [|contradiction].
    apply in_map_iff in He as (item & <- & Hitem). by exists login, usage, item.
  - intros (login & usage & item & Hin & Hitem & ->).
    exists (login, inl usage). split; [exact Hin|]. simpl.
    apply in_map_iff. by exists item.
Qed.

Section PublishedFacts.

Context {float64 : Type}.
Implicit Types (entries : list (metricEntry float64)) (e : metricEntry float64).

Lemma published_snoc entries e :
  published (entries ++ [e]) =
  fold_left (fun G op => applyOp op G) (setOps e) (published entries).
Proof.
  unfold published. rewrite flat_map_app, fold_left_app. reflexivity.
Qed.

Lemma observed_snoc k entries e :
  observed k (entries ++ [e]) =
  if decide (labelValues (labels e) = k) then Some e else observed k entries.
Proof.
  unfold observed. rewrite filter_app, filter_cons, filter_nil.
  destruct (decide _); [by rewrite last_snoc | by rewrite app_nil_r].
Qed.

Lemma observed_none entries k :
  (forall e, In e entries -> labelValues (labels e) <> k) -> observed k entries = None.
Proof.
  induction entries as [|e entries IH] using rev_ind; intros Hnone; [reflexivity|].
  rewrite observed_snoc. destruct (decide _) as [Heq|_].
  - exfalso. apply (Hnone e); [|exact Heq]. apply in_or_app. right. by left.
  - apply IH. intros e' Hin. apply Hnone, in_or_app. by left.
Qed.

Lemma published_lookup_all entries k :
  gRequestAmount (published entries) !! k = grossQuantity <$> observed k entries
  /\ gRequestCostGross (published entries) !! k = grossAmount <$> observed k entries
  /\ gRequestCostDiscount (published entries) !! k = discountAmount <$> observed k entries.
Proof.
  induction entries as [|e entries IH] using rev_ind.
  - by cbn.
  - destruct IH as (IH1 & IH2 & IH3).
    rewrite published_snoc, observed_snoc. cbn.
    rewrite !lookup_insert.
    destruct (decide (labelValues (labels e) = k)); auto.
Qed.

End PublishedFacts.

(** ** The snapshot, item by item *)

Section SnapshotFacts.

Context {float64 : Type}.
Implicit Types (outcomes : list (string * (UsageResponse float64 + error)))
  (items : list (string * UsageItem float64)).






End SnapshotFacts.




(** The run behind the example: B answers 500, the cycle succeeds and
    the gauges hold the items of A and C only. *)
Lemma collect_usage_of_B_fails :
  (fun r => (fst r,
             map_to_list (gRequestAmount (gauges (snd r))),
             map_to_list (gRequestCostGross (gauges (snd r))),
             map_to_list (gRequestCostDiscount (gauges (snd r)))))
    <$> @collect Z Scenario.usageOfBFails Scenario.seatsDecoder Scenario.usageDecoder
          5 "acme" Scenario.state0
  = Some (None,
          [("C", "copilot_premium_request", "o3", "acme", 1);
           ("C", "copilot_premium_request", "gpt-5", "acme", 3);
           ("A", "copilot_premium_request", "gpt-5", "acme", 12)]%string,
          [("C", "copilot_premium_request", "o3", "acme", 4);
           ("C", "copilot_premium_request", "gpt-5", "acme", 12);
           ("A", "copilot_premium_request", "gpt-5", "acme", 48)]%string,
          [("C", "copilot_premium_request", "o3", "acme", 4);
           ("C", "copilot_premium_request", "gpt-5", "acme", 0);
           ("A", "copilot_premium_request", "gpt-5", "acme", 48)]%string).
Proof. vm_compute. reflexivity. Qed.

(** C9. When listing the seats fails, for whatever reason, [collect]
    returns that failure wrapped and has not touched the published
    gauges: their state is the one from before the cycle, and the cycle
    has taken no lock and made no [Reset] and no [Set]; all it did was
    send requests, sleep and log. *)
Theorem collect_seat_listing_fails {float64} (decS : Unmarshal SeatsResponse)
    (decU : Unmarshal (UsageResponse float64)) (env : Env) (fuel : nat)
    (enterprise : string) (s : State float64) (err : error) (s1 : State float64) :
  ListCopilotSeats env fuel enterprise s = Some (inr err, s1) ->
  collect env fuel enterprise s = Some (Some (ErrListingSeats err), s1)
  /\ gauges s1 = gauges s
  /\ gaugeOpsOf (trace s1) = gaugeOpsOf (trace s)
  /\ exists evs, trace s1 = trace s ++ evs /\ Forall ioEvent evs.
Proof.
  intros Hlist.
  pose proof (ListCopilotSeats_extends env _ _ _ _ _ Hlist) as Hext.
  split; [|split; [apply Hext | split; [by apply gaugeOpsOf_extends | apply Hext]]].
  unfold collect, bind. by rewrite Hlist.
Qed.

Lemma collect_seat_listing_fails_witness :
  fst <$> @ListCopilotSeats Z Scenario.always429 Scenario.seatsDecoder 5 "acme"
            Scenario.state0
  = Some (inr (ErrListingSeatsPage 1 (ErrSecondaryRateLimited Scenario.url1 3)))
  /\ exists s',
       @collect Z Scenario.always429 Scenario.seatsDecoder Scenario.usageDecoder
                5 "acme" Scenario.state0
       = Some (Some (ErrListingSeats
                       (ErrListingSeatsPage 1
                          (ErrSecondaryRateLimited Scenario.url1 3))), s')
       /\ gauges s' = gauges Scenario.state0
       /\ gaugeOpsOf (trace s') = [].
Proof.
  assert (Hlist : fst <$> @ListCopilotSeats Z Scenario.always429
                            Scenario.seatsDecoder 5 "acme" Scenario.state0
                  = Some (inr (ErrListingSeatsPage 1
                                 (ErrSecondaryRateLimited Scenario.url1 3))))
    by (vm_compute; reflexivity).
  split; [exact Hlist|].
  destruct (@ListCopilotSeats Z Scenario.always429 Scenario.seatsDecoder 5 "acme"
              Scenario.state0) as [[r s1]|] eqn:Hrun; [|discriminate].
  simpl in Hlist. injection Hlist as ->.
  destruct (collect_seat_listing_fails Scenario.seatsDecoder Scenario.usageDecoder
              Scenario.always429 5 "acme" Scenario.state0 _ s1 Hrun)
    as (Hcollect & Hg & Hops & _).
  exists s1. split; [exact Hcollect|]. split; [exact Hg | exact Hops].
Defined.

(** ** Configuration *)

Lemma Load_spec (Process : config.Processor) :
  snd (config.Load Process) = snd (Process config.appConfPrefix config.zero)
  /\ config.WorkerInterval (fst (config.Load Process)) =
       (if config.WorkerInterval (fst (Process config.appConfPrefix config.zero)) =? 0
        then 3600
        else config.WorkerInterval (fst (Process config.appConfPrefix config.zero)))
  /\ config.LogLevel (fst (config.Load Process)) =
       (if String.eqb (config.LogLevel (fst (Process config.appConfPrefix config.zero))) EmptyString
        then "info"%string
        else config.LogLevel (fst (Process config.appConfPrefix config.zero)))
  /\ config.LogDebug (fst (config.Load Process)) =
       config.LogDebug (fst (Process config.appConfPrefix config.zero))
  /\ config.Github (fst (config.Load Process)) =
       config.Github (fst (Process config.appConfPrefix config.zero)).
Proof.
  unfold config.Load.
  destruct (Process config.appConfPrefix config.zero) as [conf err]. simpl.
  destruct (String.eqb (config.LogLevel conf) EmptyString); simpl;
    destruct (config.WorkerInterval conf =? 0); simpl; auto.
Qed.

Ltac env_keys :=
  repeat match goal with
         | |- context [String.append ?a ?b] =>
             let v := eval vm_compute in (String.append a b) in
             change (String.append a b) with v
         end.

(** What the environment model leaves in [WorkerInterval]. *)
Lemma Process_WorkerInterval (environ : envconfig.Environ) :
  config.WorkerInterval (fst (envconfig.Process environ "CPUE" config.zero)) =
  match snd (envconfig.Process environ "CPUE" config.zero),
        environ !! "CPUE_WORKERINTERVAL"%string with
  | None, Some v => default 0 (strconv.ParseInt0 v)
  | _, _ => 0
  end.
Proof.
  unfold envconfig.Process. env_keys.
  destruct (environ !! "CPUE_LOGLEVEL"%string);
    (destruct (environ !! "CPUE_LOGDEBUG"%string) as [b|];
       [destruct (envconfig.ParseBool b)|]; simpl; try reflexivity;
     (destruct (environ !! "CPUE_WORKERINTERVAL"%string) as [v|];
        [destruct (strconv.ParseInt0 v)|]; simpl; try reflexivity;
      destruct (environ !! "CPUE_GITHUB_TOKEN"%string);
      destruct (environ !! "CPUE_GITHUB_ENTERPRISE"%string); reflexivity)).
Qed.

Lemma Process_LogLevel (environ : envconfig.Environ) :
  config.LogLevel (fst (envconfig.Process environ "CPUE" config.zero)) =
  default EmptyString (environ !! "CPUE_LOGLEVEL"%string).
Proof.
  unfold envconfig.Process. env_keys.
  destruct (environ !! "CPUE_LOGLEVEL"%string);
    (destruct (environ !! "CPUE_LOGDEBUG"%string) as [b|];
       [destruct (envconfig.ParseBool b)|]; simpl; try reflexivity;
     (destruct (environ !! "CPUE_WORKERINTERVAL"%string) as [v|];
        [destruct (strconv.ParseInt0 v)|]; simpl; try reflexivity;
      destruct (environ !! "CPUE_GITHUB_TOKEN"%string);
      destruct (environ !! "CPUE_GITHUB_ENTERPRISE"%string); reflexivity)).
Qed.

(** C10. Whatever [envconfig.Process] returns, [Load] returns its error
    unchanged next to a configuration in which a [WorkerInterval] of 0
    has become 3600 and an empty [LogLevel] has become [info]; the
    defaults do not look at the error. Under the environment model, the
    interval is 3600 when the variable is unset and when it is set to
    [0], and when processing fails the caller gets the error together
    with the interval 3600 and, the level being unset, the level
    [info]. *)
Theorem Load_defaults :
  (forall Process : config.Processor,
     snd (config.Load Process) = snd (Process config.appConfPrefix config.zero)
     /\ config.WorkerInterval (fst (config.Load Process)) =
          (if config.WorkerInterval (fst (Process config.appConfPrefix config.zero)) =? 0
           then 3600
           else config.WorkerInterval (fst (Process config.appConfPrefix config.zero)))
     /\ config.LogLevel (fst (config.Load Process)) =
          (if String.eqb (config.LogLevel (fst (Process config.appConfPrefix config.zero))) EmptyString
           then "info"%string
           else config.LogLevel (fst (Process config.appConfPrefix config.zero))))
  /\ (forall environ : envconfig.Environ,
        environ !! "CPUE_WORKERINTERVAL"%string = None ->
        config.WorkerInterval (fst (config.Load (envconfig.Process environ))) = 3600)
  /\ (forall environ : envconfig.Environ,
        environ !! "CPUE_WORKERINTERVAL"%string = Some "0"%string ->
        config.WorkerInterval (fst (config.Load (envconfig.Process environ))) = 3600)
  /\ (forall (environ : envconfig.Environ) (err : error),
        snd (envconfig.Process environ config.appConfPrefix config.zero) = Some err ->
        snd (config.Load (envconfig.Process environ)) = Some err
        /\ config.WorkerInterval (fst (config.Load (envconfig.Process environ))) = 3600
        /\ (environ !! "CPUE_LOGLEVEL"%string = None ->
            config.LogLevel (fst (config.Load (envconfig.Process environ)))
            = "info"%string)).
Proof.
  split; [|split; [|split]].
  - intros Process. destruct (Load_spec Process) as (He & Hw & Hl & _). auto.
  - intros environ Hunset.
    destruct (Load_spec (envconfig.Process environ)) as (_ & -> & _).
    change config.appConfPrefix with "CPUE"%string.
    rewrite Process_WorkerInterval, Hunset.
    by destruct (snd _).
  - intros environ Hzero.
    destruct (Load_spec (envconfig.Process environ)) as (_ & -> & _).
    change config.appConfPrefix with "CPUE"%string.
    rewrite Process_WorkerInterval, Hzero.
    by destruct (snd _).
  - intros environ err Herr.
    destruct (Load_spec (envconfig.Process environ)) as (He & -> & -> & _).
    split; [by rewrite He|].
    change config.appConfPrefix with "CPUE"%string in *.
    rewrite Process_WorkerInterval, Process_LogLevel, Herr.
    split; [reflexivity|]. by intros ->.
Qed.

Lemma Load_defaults_witness :
  (∅ : envconfig.Environ) !! "CPUE_WORKERINTERVAL"%string = None
  /\ config.WorkerInterval (fst (config.Load (envconfig.Process ∅))) = 3600
  /\ ({["CPUE_WORKERINTERVAL"%string := "0"%string]} : envconfig.Environ)
       !! "CPUE_WORKERINTERVAL"%string = Some "0"%string
  /\ config.WorkerInterval
       (fst (config.Load (envconfig.Process {["CPUE_WORKERINTERVAL"%string := "0"%string]})))
     = 3600
  /\ snd (envconfig.Process {["CPUE_WORKERINTERVAL"%string := "hourly"%string]}
            config.appConfPrefix config.zero)
     = Some (envconfig.parseError "CPUE_WORKERINTERVAL")
  /\ snd (config.Load (envconfig.Process {["CPUE_WORKERINTERVAL"%string := "hourly"%string]}))
     = Some (envconfig.parseError "CPUE_WORKERINTERVAL")
  /\ config.WorkerInterval
       (fst (config.Load (envconfig.Process {["CPUE_WORKERINTERVAL"%string := "hourly"%string]})))
     = 3600.
Proof.
  destruct Load_defaults as (_ & Hunset & Hzero & Herr).
  split; [reflexivity|]. split; [apply Hunset; reflexivity|].
  split; [reflexivity|]. split; [apply Hzero; reflexivity|].
  split; [reflexivity|].
  destruct (Herr {["CPUE_WORKERINTERVAL"%string := "hourly"%string]}
              (envconfig.parseError "CPUE_WORKERINTERVAL")) as (He & Hw & _);
    [reflexivity|].
  split; [exact He | exact Hw].
Defined.

(** ** Scrapes against a publication *)

Section ScrapeFacts.

Context {float64 : Type}.
Implicit Types (l : list (Scraper float64)) (sc : Scraper float64)
  (G old new : Gauges float64) (s : System float64).

Lemma reading_insert l : forall i sc sc',
  l !! i = Some sc ->
  (reading (<[i := sc']> l) + (if isReading sc then 1 else 0)
   = reading l + (if isReading sc' then 1 else 0))%nat.
Proof.
  unfold reading.
  induction l as [|x l IH]; intros i sc sc' Hi; [discriminate|].
  destruct i as [|i]; simpl in *.
  - injection Hi as ->. destruct (isReading sc), (isReading sc'); simpl; lia.
  - specialize (IH i sc sc' Hi). destruct (isReading x); simpl; lia.
Qed.

Lemma reading_lookup l i obs :
  l !! i = Some (SReading obs) -> (0 < reading l)%nat.
Proof.
  unfold reading. revert i.
  induction l as [|x l IH]; intros i Hi; [discriminate|].
  destruct i as [|i]; simpl in *.
  - injection Hi as ->. simpl. lia.
  - specialize (IH i Hi). destruct (isReading x); simpl; lia.
Qed.

Lemma reading_replicate n : reading (replicate n (@SIdle float64)) = 0%nat.
Proof. unfold reading. induction n; simpl; auto. Qed.

(** With no scrape in progress, the exposed gauges may change. *)
Lemma scraperOk_quiet old new G G' l :
  reading l = 0%nat ->
  Forall (scraperOk old new G) l -> Forall (scraperOk old new G') l.
Proof.
  unfold reading. induction l as [|x l IH]; intros Hq Hall; [constructor|].
  inversion Hall as [|? ? Hx Hl]; subst.
  destruct x as [|obs|seen]; simpl in Hq; try discriminate;
    (constructor; [exact Hx | by apply IH]).
Qed.

Lemma agrees_read g G (obs : Partial float64) :
  agrees obs G -> agrees (readSeries g G obs) G.
Proof.
  intros (Ha & Hb & Hc).
  destruct g; (split; [|split]); simpl; intros m Hm;
    try (by injection Hm as <-); auto.
Qed.

Lemma agrees_complete G (obs : Partial float64) seen :
  agrees obs G -> complete obs = Some seen -> seen = G.
Proof.
  intros (Ha & Hb & Hc). unfold complete.
  destruct (pRequestAmount obs) as [a|]; [|discriminate].
  destruct (pRequestCostGross obs) as [b|]; [|discriminate].
  destruct (pRequestCostDiscount obs) as [c|]; [|discriminate].
  intros [= <-]. rewrite (Ha a), (Hb b), (Hc c) by reflexivity.
  by destruct G.
Qed.

Lemma consistent_initial entries old n : consistent entries old (initial old n).
Proof.
  split; [|split]; simpl.
  - by rewrite reading_replicate.
  - done.
  - apply Forall_replicate. exact I.
Qed.

(** Every step a thread can take keeps the invariant, unless it is a
    write of the publication that panics. *)
Lemma consistent_step entries old a s s' :
  consistent entries old s -> step entries a s = Some s' ->
  consistent entries old s' \/ publisher s' = PPanicked.
Proof.
  intros (Hcount & Hpub & Hall) Hstep.
  destruct s as [[w r] G pub scs]. unfold consistent.
  cbn [collectMu readers writer scrapers exposed publisher] in *.
  destruct a as [| | |i|i g|i]; cbn [step collectMu readers writer scrapers exposed publisher] in Hstep.
  - (* Lock *)
    destruct pub; try discriminate.
    destruct (negb w && (r =? 0)%nat) eqn:Hfree; [|discriminate].
    injection Hstep as <-. apply andb_prop in Hfree as [_ Hr].
    apply Nat.eqb_eq in Hr. destruct Hpub as [_ HG]. left.
    cbn [collectMu readers writer scrapers exposed publisher].
    split; [exact Hcount|]. split; [|exact Hall].
    split; [reflexivity|]. split; [exact Hr|].
    exact (publishOps_published entries G).
  - (* one gauge operation *)
    destruct pub as [|[|op todo]| |]; try discriminate.
    destruct (withPanics op); injection Hstep as <-; [by right|left].
    destruct Hpub as (Hw & Hr & Hfold).
    cbn [collectMu readers writer scrapers exposed publisher].
    split; [exact Hcount|]. split; [by repeat split|].
    apply (scraperOk_quiet old _ G); [congruence | exact Hall].
  - (* Unlock *)
    destruct pub as [|[|op todo]| |]; try discriminate.
    injection Hstep as <-. destruct Hpub as (Hw & Hr & Hfold). left.
    cbn [collectMu readers writer scrapers exposed publisher].
    split; [exact Hcount|]. split; [by split | exact Hall].
  - (* RLock *)
    destruct (scs !! i) as [[|obs|seen]|] eqn:Hi; try discriminate.
    destruct (negb w) eqn:Hw; [|discriminate].
    injection Hstep as <-. apply negb_true_iff in Hw. subst w. left.
    cbn [collectMu readers writer scrapers exposed publisher].
    split; [|split].
    + pose proof (reading_insert scs i _ (SReading (mkPartial None None None)) Hi) as Hins.
      cbn [isReading] in Hins. lia.
    + destruct pub as [|todo| |]; [done| |done|done]. by destruct Hpub.
    + apply Forall_insert; [exact Hall|]. by repeat split.
  - (* a read *)
    destruct (scs !! i) as [[|obs|seen]|] eqn:Hi; try discriminate.
    injection Hstep as <-. left.
    cbn [collectMu readers writer scrapers exposed publisher].
    split; [|split; [exact Hpub|]].
    + pose proof (reading_insert scs i _ (SReading (readSeries g G obs)) Hi) as Hins.
      cbn [isReading] in Hins. lia.
    + apply Forall_insert; [exact Hall|]. apply agrees_read.
      exact (Forall_lookup_1 _ _ _ _ Hall Hi).
  - (* RUnlock *)
    destruct (scs !! i) as [[|obs|seen]|] eqn:Hi; try discriminate.
    destruct (complete obs) as [seen|] eqn:Hc; [|discriminate].
    injection Hstep as <-. left.
    cbn [collectMu readers writer scrapers exposed publisher].
    pose proof (reading_lookup scs i obs Hi) as Hpos.
    pose proof (Forall_lookup_1 _ _ _ _ Hall Hi) as Hobs. cbn [scraperOk] in Hobs.
    pose proof (agrees_complete G obs seen Hobs Hc) as ->.
    split; [|split].
    + pose proof (reading_insert scs i _ (SDone G) Hi) as Hins.
      cbn [isReading] in Hins. lia.
    + destruct pub as [|todo| |]; [done| |done|done].
      destruct Hpub as (_ & Hr & _). lia.
    + apply Forall_insert; [exact Hall|]. cbn [scraperOk].
      destruct pub as [|todo| |].
      * left. by destruct Hpub.
      * destruct Hpub as (_ & Hr & _). lia.
      * right. by destruct Hpub.
      * done.
Qed.

(** The publisher takes no step after a panic. *)
Lemma panicked_step entries a s s' :
  publisher s = PPanicked -> step entries a s = Some s' -> publisher s' = PPanicked.
Proof.
  intros Hp. destruct a as [| | |i|i g|i]; unfold step; rewrite ?Hp; try discriminate.
  - destruct (scrapers s !! i) as [[|obs|seen]|]; try discriminate.
    destruct (negb _); [|discriminate]. by intros [= <-].
  - destruct (scrapers s !! i) as [[|obs|seen]|]; try discriminate. by intros [= <-].
  - destruct (scrapers s !! i) as [[|obs|seen]|]; try discriminate.
    destruct (complete obs); [|discriminate]. by intros [= <-].
Qed.

Lemma consistent_run entries old schedule : forall s s',
  consistent entries old s -> run entries schedule s = Some s' ->
  consistent entries old s' \/ publisher s' = PPanicked.
Proof.
  induction schedule as [|a rest IH]; intros s s' Hinv Hrun; simpl in Hrun.
  - injection Hrun as <-. by left.
  - destruct (step entries a s) as [s1|] eqn:Hstep; [|discriminate].
    destruct (consistent_step _ _ _ _ _ Hinv Hstep) as [Hinv1|Hp].
    + eapply IH; [exact Hinv1 | exact Hrun].
    + right. clear IH Hinv Hstep. revert s1 Hp Hrun.
      induction rest as [|b rest IH]; intros s1 Hp Hrun; simpl in Hrun.
      * by injection Hrun as <-.
      * destruct (step entries b s1) as [s2|] eqn:Hstep; [|discriminate].
        eapply IH; [|exact Hrun]. by eapply panicked_step.
Qed.

(** With valid label values nothing the publisher does panics. *)
Lemma calm_step entries a s s' :
  Forall validEntry entries -> calm s -> step entries a s = Some s' -> calm s'.
Proof.
  intros Hvalid Hcalm. unfold calm in *.
  destruct a as [| | |i|i g|i]; unfold step.
  - destruct (publisher s); try discriminate.
    destruct (negb _ && _); [|discriminate]. intros [= <-].
    cbn [publisher]. unfold publishOps. cbn [app existsb withPanics orb].
    by apply validEntries_panics.
  - destruct (publisher s) as [|[|op todo]| |]; try discriminate.
    cbn [existsb] in Hcalm. apply orb_false_iff in Hcalm as [-> Htodo].
    by intros [= <-].
  - destruct (publisher s) as [|[|op todo]| |]; try discriminate. by intros [= <-].
  - destruct (scrapers s !! i) as [[|obs|seen]|]; try discriminate.
    destruct (negb _); [|discriminate]. by intros [= <-].
  - destruct (scrapers s !! i) as [[|obs|seen]|]; try discriminate. by intros [= <-].
  - destruct (scrapers s !! i) as [[|obs|seen]|]; try discriminate.
    destruct (complete obs); [|discriminate]. by intros [= <-].
Qed.

Lemma calm_run entries schedule : forall s s',
  Forall validEntry entries -> calm s -> run entries schedule s = Some s' -> calm s'.
Proof.
  induction schedule as [|a rest IH]; intros s s' Hvalid Hcalm Hrun; simpl in Hrun.
  - by injection Hrun as <-.
  - destruct (step entries a s) as [s1|] eqn:Hstep; [|discriminate].
    eapply IH; [exact Hvalid| |exact Hrun]. by eapply calm_step.
Qed.



End ScrapeFacts.




(** The schedule, run: the two early scrapes saw the old request
    amounts, the late one the new request amounts. *)
Lemma three_scrapes_run :
  map (fun sc => match sc with
                 | SDone seen => map_to_list (gRequestAmount seen)
                 | _ => []
                 end)
    <$> (scrapers <$> run Scenario.newEntries Scenario.threeScrapes
                          (initial Scenario.oldGauges 3))
  = Some [[("A", "copilot_premium_request", "gpt-5", "acme", 10)]%string;
          [("A", "copilot_premium_request", "gpt-5", "acme", 10)]%string;
          [("C", "copilot_premium_request", "o3", "acme", 1);
           ("C", "copilot_premium_request", "gpt-5", "acme", 3);
           ("A", "copilot_premium_request", "gpt-5", "acme", 12)]%string].
Proof. vm_compute. reflexivity. Qed.

(** A scrape cannot start while the cycle publishes, and the cycle
    cannot start publishing while a scrape is in progress. *)
Lemma no_scrape_during_publication :
  (fun _ => tt) <$> run Scenario.newEntries [ALock; AOp; AOp; AOp]
                        (initial Scenario.oldGauges 1)
  = Some tt
  /\ run Scenario.newEntries [ALock; AOp; AOp; AOp; ARLock 0]
         (initial Scenario.oldGauges 1)
     = None
  /\ (fun _ => tt) <$> run Scenario.newEntries [ARLock 0; ARead 0 RequestAmount]
                           (initial Scenario.oldGauges 1)
     = Some tt
  /\ run Scenario.newEntries [ARLock 0; ARead 0 RequestAmount; ALock]
         (initial Scenario.oldGauges 1)
     = None.
Proof. repeat split; vm_compute; reflexivity. Qed.

(** * Further properties of the client *)

(** ** Request headers *)

Lemma Header_Get_Set (h : http.Header) (key key' value : string) :
  http.Header_Get (http.Header_Set h key value) key' =
  if decide (http.CanonicalHeaderKey key = http.CanonicalHeaderKey key')
  then value else http.Header_Get h key'.
Proof.
  unfold http.Header_Get, http.Header_Set. rewrite lookup_insert.
  by destruct (decide _).
Qed.

(** X1. [setHeaders] gives every request the three headers the API
    asks for, whatever the request carried before and however the
    reader spells the header names: the media type, the bearer token of
    the client and the pinned API version. It leaves the method, the
    URL and every other header alone. *)
Theorem setHeaders_sets (c : Client) (req : http.Request) :
  (forall key,
     http.CanonicalHeaderKey key = "Accept"%string ->
     http.Header_Get (http.ReqHeader (setHeaders c req)) key
     = "application/vnd.github+json"%string)
  /\ (forall key,
        http.CanonicalHeaderKey key = "Authorization"%string ->
        http.Header_Get (http.ReqHeader (setHeaders c req)) key
        = ("Bearer " ++ token c)%string)
  /\ (forall key,
        http.CanonicalHeaderKey key = "X-Github-Api-Version"%string ->
        http.Header_Get (http.ReqHeader (setHeaders c req)) key = apiVersion)
  /\ (forall key,
        http.CanonicalHeaderKey key <> "Accept"%string ->
        http.CanonicalHeaderKey key <> "Authorization"%string ->
        http.CanonicalHeaderKey key <> "X-Github-Api-Version"%string ->
        http.Header_Get (http.ReqHeader (setHeaders c req)) key
        = http.Header_Get (http.ReqHeader req) key)
  /\ http.Method (setHeaders c req) = http.Method req
  /\ http.URL (setHeaders c req) = http.URL req.
Proof.
  unfold setHeaders. cbn [http.ReqHeader http.Method http.URL].
  repeat split; intros key; rewrite !Header_Get_Set;
    change (http.CanonicalHeaderKey "X-GitHub-Api-Version") with "X-Github-Api-Version"%string;
    change (http.CanonicalHeaderKey "Authorization") with "Authorization"%string;
    change (http.CanonicalHeaderKey "Accept") with "Accept"%string.
  - intros ->. by repeat case_decide.
  - intros ->. by repeat case_decide.
  - intros ->. by repeat case_decide.
  - intros H1 H2 H3. by repeat case_decide.
Qed.

Lemma setHeaders_sets_witness :
  http.CanonicalHeaderKey "authorization" = "Authorization"%string
  /\ http.Header_Get
       (http.ReqHeader (setHeaders Scenario.client0
                          (http.mkRequest "GET" Scenario.url1
                             (http.Header_Set ∅ "AUTHORIZATION" "Basic abc"))))
       "authorization"
     = "Bearer secret"%string.
Proof.
  split; [reflexivity|].
  exact (proj1 (proj2 (setHeaders_sets Scenario.client0
                         (http.mkRequest "GET" Scenario.url1
                            (http.Header_Set ∅ "AUTHORIZATION" "Basic abc"))))
           "authorization"%string eq_refl).
Defined.

(** ** The tracked rate-limit state *)

Lemma updateRateLimit_eq (c : Client) (resp : http.Response) :
  updateRateLimit c resp =
  mkClient (httpClient c) (token c) (logger c)
    (default (rateLimitRemaining c)
       (strconv.Atoi (http.Header_Get (http.RespHeader resp) "X-RateLimit-Remaining")))
    (default (rateLimitReset c)
       (time.Unix <$>
          strconv.ParseInt (http.Header_Get (http.RespHeader resp) "X-RateLimit-Reset"))).
Proof.
  unfold updateRateLimit.
  destruct (String.eqb_spec (http.Header_Get (http.RespHeader resp) "X-RateLimit-Remaining")
              EmptyString) as [E1|E1];
    destruct (String.eqb_spec (http.Header_Get (http.RespHeader resp) "X-RateLimit-Reset")
                EmptyString) as [E2|E2];
    rewrite ?E1, ?E2; simpl;
    repeat match goal with
           | |- context [strconv.Atoi ?x] => destruct (strconv.Atoi x)
           | |- context [strconv.ParseInt ?x] => destruct (strconv.ParseInt x)
           end; simpl; by destruct c.
Qed.

(** X2. Applying the same response twice is the same as applying it
    once, and a response whose two headers both parse fixes the tracked
    state by itself, whatever was tracked before. *)
Theorem updateRateLimit_idempotent (c : Client) (resp : http.Response) :
  updateRateLimit (updateRateLimit c resp) resp = updateRateLimit c resp
  /\ (forall (c' : Client) (n unix : Z),
        strconv.Atoi (http.Header_Get (http.RespHeader resp) "X-RateLimit-Remaining")
          = Some n ->
        strconv.ParseInt (http.Header_Get (http.RespHeader resp) "X-RateLimit-Reset")
          = Some unix ->
        rateLimitRemaining (updateRateLimit c resp) = n
        /\ rateLimitReset (updateRateLimit c resp) = time.Unix unix
        /\ rateLimitRemaining (updateRateLimit c' resp) = n
        /\ rateLimitReset (updateRateLimit c' resp) = time.Unix unix).
Proof.
  split.
  - rewrite !updateRateLimit_eq. simpl.
    destruct (strconv.Atoi _), (strconv.ParseInt _); reflexivity.
  - intros c' n unix Hn Hu. rewrite !updateRateLimit_eq, Hn, Hu. by simpl.
Qed.

Lemma updateRateLimit_idempotent_witness :
  strconv.Atoi (http.Header_Get (http.RespHeader Scenario.quotaUsedUp) "X-RateLimit-Remaining")
    = Some 0
  /\ strconv.ParseInt (http.Header_Get (http.RespHeader Scenario.quotaUsedUp) "X-RateLimit-Reset")
     = Some 1700000010
  /\ rateLimitRemaining (updateRateLimit Scenario.client0 Scenario.quotaUsedUp) = 0
  /\ rateLimitReset (updateRateLimit Scenario.client0 Scenario.quotaUsedUp)
     = time.Unix 1700000010.
Proof.
  split; [reflexivity|]. split; [reflexivity|].
  destruct (proj2 (updateRateLimit_idempotent Scenario.client0 Scenario.quotaUsedUp)
              Scenario.client0 0 1700000010 eq_refl eq_refl) as (H1 & H2 & _).
  split; [exact H1 | exact H2].
Defined.

(** ** Sleeping out a rate-limit answer *)

(** X3. For a [Retry-After] between 1 and 9223372036 seconds,
    [sleepSecondaryRateLimit] sleeps exactly that many seconds and
    reports that duration. *)
Theorem sleepSecondaryRateLimit_exact {float64} (resp : http.Response) (secs : Z)
    (s : State float64) :
  strconv.ParseInt (http.Header_Get (http.RespHeader resp) "Retry-After") = Some secs ->
  0 < secs <= 9223372036 ->
  sleepSecondaryRateLimit resp s =
  Some (secs * time.Second,
        mkState (client s) (now s + secs * time.Second)
                (trace s ++ [EvSleep (secs * time.Second)]) (gauges s)).
Proof.
  intros Hparse Hrange. rewrite sleepSecondaryRateLimit_run.
  rewrite (secondaryDelay_exact resp secs Hparse Hrange).
  rewrite Z.max_r by (unfold time.Second; lia). reflexivity.
Qed.

Lemma sleepSecondaryRateLimit_exact_witness :
  strconv.ParseInt (http.Header_Get (http.RespHeader Scenario.tooMany) "Retry-After")
    = Some 7
  /\ 0 < 7 <= 9223372036
  /\ @sleepSecondaryRateLimit Z Scenario.tooMany Scenario.state0 =
     Some (7 * time.Second,
           mkState (client Scenario.state0) (now Scenario.state0 + 7 * time.Second)
                   (trace Scenario.state0 ++ [EvSleep (7 * time.Second)])
                   (gauges Scenario.state0)).
Proof.
  split; [reflexivity|]. split; [lia|].
  apply (sleepSecondaryRateLimit_exact Scenario.tooMany 7 Scenario.state0);
    [reflexivity | lia].
Defined.

(** X4. Without a [Retry-After] header, with one that is no decimal
    int64, or with one that is zero or negative,
    [sleepSecondaryRateLimit] sleeps exactly the fallback of 60 seconds. *)
Theorem sleepSecondaryRateLimit_fallback {float64} (resp : http.Response)
    (s : State float64) :
  match strconv.ParseInt (http.Header_Get (http.RespHeader resp) "Retry-After") with
  | Some secs => secs <= 0
  | None => True
  end ->
  sleepSecondaryRateLimit resp s =
  Some (60 * time.Second,
        mkState (client s) (now s + 60 * time.Second)
                (trace s ++ [EvSleep (60 * time.Second)]) (gauges s)).
Proof.
  intros Hhdr. rewrite sleepSecondaryRateLimit_run.
  rewrite (secondaryDelay_fallback resp Hhdr). reflexivity.
Qed.

Lemma sleepSecondaryRateLimit_fallback_witness :
  match strconv.ParseInt (http.Header_Get (http.RespHeader Scenario.forbidden) "Retry-After") with
  | Some secs => secs <= 0
  | None => True
  end
  /\ @sleepSecondaryRateLimit Z Scenario.forbidden Scenario.state0 =
     Some (60 * time.Second,
           mkState (client Scenario.state0) (now Scenario.state0 + 60 * time.Second)
                   (trace Scenario.state0 ++ [EvSleep (60 * time.Second)])
                   (gauges Scenario.state0)).
Proof.
  split; [exact I|].
  apply (sleepSecondaryRateLimit_fallback Scenario.forbidden Scenario.state0).
  exact I.
Defined.

(** X5. When the reset header parses and the reset time plus the
    5-second buffer is still ahead (and within the range of a
    duration), [sleepPrimaryRateLimit] sleeps until exactly that
    instant. *)
Theorem sleepPrimaryRateLimit_until_reset {float64} (resp : http.Response) (unix : Z)
    (s : State float64) :
  strconv.ParseInt (http.Header_Get (http.RespHeader resp) "X-RateLimit-Reset") = Some unix ->
  0 < time.Unix unix + rateLimitResetBuffer - now s <= int64.max ->
  exists d s',
    sleepPrimaryRateLimit resp s = Some (d, s')
    /\ d = time.Unix unix + rateLimitResetBuffer - now s
    /\ now s' = time.Unix unix + rateLimitResetBuffer
    /\ trace s' = trace s ++ [EvSleep d]
    /\ client s' = client s /\ gauges s' = gauges s.
Proof.
  intros Hparse Hrange. rewrite sleepPrimaryRateLimit_run.
  assert (Hd : primaryDelay (now s) resp = time.Unix unix + rateLimitResetBuffer - now s).
  { unfold primaryDelay. rewrite Hparse.
    unfold time.Until, time.Sub, int64.add, rateLimitResetBuffer, time.Second,
      int64.max, int64.min in *.
    rewrite wrap_small.
    - destruct (Z.ltb_spec 0
                  (Z.max (- 2 ^ 63) (Z.min (2 ^ 63 - 1) (time.Unix unix - now s))
                   + 5 * 1000000000)); lia.
    - unfold int64.in_range, int64.min, int64.max. lia. }
  eexists _, _. split; [reflexivity|]. rewrite Hd. cbn [now trace client gauges].
  repeat split; lia.
Qed.

Lemma sleepPrimaryRateLimit_until_reset_witness :
  strconv.ParseInt (http.Header_Get (http.RespHeader Scenario.quotaUsedUp) "X-RateLimit-Reset")
    = Some 1700000010
  /\ 0 < time.Unix 1700000010 + rateLimitResetBuffer - now Scenario.state0 <= int64.max
  /\ exists d s',
       @sleepPrimaryRateLimit Z Scenario.quotaUsedUp Scenario.state0 = Some (d, s')
       /\ d = 15 * time.Second
       /\ now s' = time.Unix 1700000015.
Proof.
  split; [reflexivity|]. split; [vm_compute; split; [reflexivity | discriminate]|].
  destruct (sleepPrimaryRateLimit_until_reset Scenario.quotaUsedUp 1700000010
              Scenario.state0 eq_refl)
    as (d & s' & Hrun & Hd & Hnow & _).
  { vm_compute. split; [reflexivity | discriminate]. }
  exists d, s'. split; [exact Hrun|]. split; [rewrite Hd | rewrite Hnow]; reflexivity.
Defined.

(** X6. [sleepPrimaryRateLimit] never returns without having slept:
    the duration it sleeps and reports is strictly positive for every
    response and every clock, and it is the fallback of 60 seconds
    whenever the reset header is absent, is no decimal int64, or names
    an instant that lies 5 seconds or more in the past. *)
Theorem sleepPrimaryRateLimit_always_sleeps {float64} (resp : http.Response)
    (s : State float64) :
  exists d,
    sleepPrimaryRateLimit resp s =
      Some (d, mkState (client s) (now s + d) (trace s ++ [EvSleep d]) (gauges s))
    /\ 0 < d
    /\ (match strconv.ParseInt (http.Header_Get (http.RespHeader resp) "X-RateLimit-Reset") with
        | Some unix => time.Unix unix + rateLimitResetBuffer <= now s
        | None => True
        end -> d = 60 * time.Second).
Proof.
  exists (primaryDelay (now s) resp). rewrite sleepPrimaryRateLimit_run.
  assert (Hpos : 0 < primaryDelay (now s) resp).
  { unfold primaryDelay. destruct (strconv.ParseInt _) as [unix|]; [|reflexivity].
    destruct (Z.ltb_spec 0 (int64.add (time.Until (now s) (time.Unix unix))
                              rateLimitResetBuffer)); [lia | reflexivity]. }
  split; [by rewrite Z.max_r by lia|]. split; [exact Hpos|].
  unfold primaryDelay. destruct (strconv.ParseInt _) as [unix|]; [|reflexivity].
  intros Hpast.
  destruct (Z.ltb_spec 0 (int64.add (time.Until (now s) (time.Unix unix))
                            rateLimitResetBuffer)) as [Hlt|]; [|reflexivity].
  exfalso. revert Hlt.
  unfold time.Until, time.Sub, int64.add, rateLimitResetBuffer, time.Second,
    int64.max, int64.min in *.
  rewrite wrap_small; [lia|].
  unfold int64.in_range, int64.min, int64.max. lia.
Qed.

Lemma sleepPrimaryRateLimit_always_sleeps_witness :
  match strconv.ParseInt (http.Header_Get (http.RespHeader Scenario.forbidden) "X-RateLimit-Reset") with
  | Some unix => time.Unix unix + rateLimitResetBuffer <= now Scenario.state0
  | None => True
  end
  /\ exists d,
       @sleepPrimaryRateLimit Z Scenario.forbidden Scenario.state0 =
         Some (d, mkState (client Scenario.state0) (now Scenario.state0 + d)
                          (trace Scenario.state0 ++ [EvSleep d]) (gauges Scenario.state0))
       /\ d = 60 * time.Second.
Proof.
  split; [exact I|].
  destruct (sleepPrimaryRateLimit_always_sleeps Scenario.forbidden Scenario.state0)
    as (d & Hrun & _ & Hd).
  exists d. split; [exact Hrun | exact (Hd I)].
Defined.

(** ** One call of [get], answer by answer *)

Section MoreGetFacts.

Context {float64 : Type}.
Variable env : Env.
Implicit Types (s : State float64) (resp : http.Response).

Lemma get_transport {T} `{Unmarshal T} url (out : T) s msg :
  newRequestError env url = None ->
  roundTrip env (sent s) (getRequest (client s) url) = inr msg ->
  get env url out s =
  Some ((out, Some (External msg)),
        afterRequest (getRequest (client s) url) (afterWait s)).
Proof.
  intros Hurl Hrt. rewrite get_unfold. simpl. unfold bind.
  rewrite (getAttempt_transport env 0 url out (afterWait s) msg Hurl); [done|].
  by rewrite afterWait_sent.
Qed.

Lemma get_badURL {T} `{Unmarshal T} url (out : T) s msg :
  newRequestError env url = Some msg ->
  get env url out s = Some ((out, Some (External msg)), afterWait s).
Proof.
  intros Hurl. rewrite get_unfold. simpl. unfold bind.
  by rewrite (getAttempt_badURL env 0 url out (afterWait s) msg Hurl).
Qed.

Lemma afterWait_trace_requests s req :
  requestsOf (trace (afterRequest req (afterWait s))) = requestsOf (trace s) ++ [req].
Proof.
  unfold afterRequest. cbn [trace]. by rewrite requestsOf_app, afterWait_requests.
Qed.

Lemma afterWait_client s : client (afterWait s) = client s.
Proof. reflexivity. Qed.

End MoreGetFacts.

(** X7. A transport failure is not retried: at whichever attempt the
    transport reports an error, the call ends with that error. When it
    is the first request that fails, [get] has sent that one request,
    has done nothing after it and has left the client as it was. *)
Theorem get_transport_error {float64 T} (dec : Unmarshal T) (env : Env) (url : string)
    (out : T) (s : State float64) (msg : string) :
  newRequestError env url = None ->
  roundTrip env (sent s) (getRequest (client s) url) = inr msg ->
  (forall attempt,
     getAttempt env attempt url out s =
       Some (Some (out, Some (External msg)),
             mkState (client s) (now s)
                     (trace s ++ [EvRequest (getRequest (client s) url)]) (gauges s)))
  /\ exists s',
       get env url out s = Some ((out, Some (External msg)), s')
       /\ trace s' = trace s ++ preemptiveEvents (client s) (now s)
                             ++ [EvRequest (getRequest (client s) url)]
       /\ requestsOf (trace s') = requestsOf (trace s) ++ [getRequest (client s) url]
       /\ client s' = client s.
Proof.
  intros Hurl Hrt. split.
  { intros attempt. by apply getAttempt_transport. }
  eexists. split; [by apply get_transport|].
  split; [|split; [apply afterWait_trace_requests | reflexivity]].
  unfold afterRequest, afterWait. cbn [trace]. by rewrite <- app_assoc.
Qed.

Lemma get_transport_error_witness :
  newRequestError Cases.unreachable Scenario.url1 = None
  /\ roundTrip Cases.unreachable (sent Scenario.state0)
       (getRequest (client Scenario.state0) Scenario.url1) = inr "connection refused"%string
  /\ exists s',
       @get Z Cases.unreachable _ Scenario.seatsDecoder Scenario.url1 zeroSeatsResponse
            Scenario.state0
       = Some ((zeroSeatsResponse, Some (External "connection refused")), s')
       /\ length (requestsOf (trace s')) = 1%nat.
Proof.
  split; [reflexivity|]. split; [reflexivity|].
  destruct (get_transport_error Scenario.seatsDecoder Cases.unreachable Scenario.url1
              zeroSeatsResponse Scenario.state0 "connection refused" eq_refl eq_refl)
    as (_ & s' & Hrun & _ & Hreq & _).
  exists s'. split; [exact Hrun|]. by rewrite Hreq.
Defined.

(** X8. A URL that [http.NewRequest] rejects ends the call with that
    error before anything is sent: the call adds no request to the
    trace and leaves the client as it was. *)
Theorem get_invalid_url {float64 T} (dec : Unmarshal T) (env : Env) (url : string)
    (out : T) (s : State float64) (msg : string) :
  newRequestError env url = Some msg ->
  exists s',
    get env url out s = Some ((out, Some (External msg)), s')
    /\ requestsOf (trace s') = requestsOf (trace s)
    /\ trace s' = trace s ++ preemptiveEvents (client s) (now s)
    /\ client s' = client s.
Proof.
  intros Hurl. eexists. split; [by apply get_badURL|].
  split; [apply afterWait_requests | by split].
Qed.

Lemma get_invalid_url_witness :
  newRequestError Cases.rejectsURLs Scenario.url1
  = Some "net/url: invalid control character in URL"%string
  /\ exists s',
       @get Z Cases.rejectsURLs _ Scenario.seatsDecoder Scenario.url1 zeroSeatsResponse
            Scenario.state0
       = Some ((zeroSeatsResponse,
                Some (External "net/url: invalid control character in URL")), s')
       /\ requestsOf (trace s') = [].
Proof.
  split; [reflexivity|].
  destruct (get_invalid_url Scenario.seatsDecoder Cases.rejectsURLs Scenario.url1
              zeroSeatsResponse Scenario.state0 _ eq_refl)
    as (s' & Hrun & Hreq & _).
  exists s'. split; [exact Hrun | exact Hreq].
Defined.

(** X9. Any status other than 200, 429 and 403 ends the call with the
    [unexpected status] error that names the status and the URL, at
    whichever attempt it arrives, with no sleep and no further attempt;
    when it answers the first request, [get] has sent one request and
    has done nothing after it. *)
Theorem get_other_status {float64 T} (dec : Unmarshal T) (env : Env) (url : string)
    (out : T) (s : State float64) (resp : http.Response) :
  newRequestError env url = None ->
  roundTrip env (sent s) (getRequest (client s) url) = inl resp ->
  http.StatusCode resp <> 200 -> http.StatusCode resp <> 429 ->
  http.StatusCode resp <> 403 ->
  (forall attempt,
     getAttempt env attempt url out s =
       Some (Some (out, Some (ErrUnexpectedStatus (http.StatusCode resp) url)),
             mkState (client s) (now s)
                     (trace s ++ [EvRequest (getRequest (client s) url)]) (gauges s)))
  /\ exists s',
       get env url out s =
         Some ((out, Some (ErrUnexpectedStatus (http.StatusCode resp) url)), s')
       /\ Error (ErrUnexpectedStatus (http.StatusCode resp) url) =
            ("unexpected status " ++ strconv.Itoa (http.StatusCode resp)
             ++ " for " ++ url)%string
       /\ trace s' = trace s ++ preemptiveEvents (client s) (now s)
                             ++ [EvRequest (getRequest (client s) url)]
       /\ requestsOf (trace s') = requestsOf (trace s) ++ [getRequest (client s) url]
       /\ client s' = client s.
Proof.
  intros Hurl Hrt H200 H429 H403.
  assert (Hlim : isRateLimit resp = false).
  { unfold isRateLimit, isSecondaryLimit, isPrimaryLimit.
    apply Z.eqb_neq in H429, H403.
    unfold http.StatusTooManyRequests, http.StatusForbidden.
    by rewrite H429, H403. }
  split.
  { intros attempt. by apply getAttempt_unexpected. }
  eexists. split; [by apply get_unexpected|]. split; [reflexivity|].
  split; [|split; [apply afterWait_trace_requests | reflexivity]].
  unfold afterRequest, afterWait. cbn [trace]. by rewrite <- app_assoc.
Qed.

Lemma get_other_status_witness :
  newRequestError Cases.always500 Scenario.url1 = None
  /\ roundTrip Cases.always500 (sent Scenario.state0)
       (getRequest (client Scenario.state0) Scenario.url1) = inl Cases.serverError
  /\ http.StatusCode Cases.serverError <> 200
  /\ http.StatusCode Cases.serverError <> 429
  /\ http.StatusCode Cases.serverError <> 403
  /\ exists s',
       @get Z Cases.always500 _ Scenario.seatsDecoder Scenario.url1 zeroSeatsResponse
            Scenario.state0
       = Some ((zeroSeatsResponse, Some (ErrUnexpectedStatus 500 Scenario.url1)), s')
       /\ length (requestsOf (trace s')) = 1%nat.
Proof.
  split; [reflexivity|]. split; [reflexivity|].
  split; [discriminate|]. split; [discriminate|]. split; [discriminate|].
  destruct (get_other_status Scenario.seatsDecoder Cases.always500 Scenario.url1
              zeroSeatsResponse Scenario.state0 Cases.serverError eq_refl eq_refl)
    as (_ & s' & Hrun & _ & _ & Hreq & _); [discriminate..|].
  exists s'. split; [exact Hrun|]. by rewrite Hreq.
Defined.

(** ** Retrying *)

(** X10. A rate-limit answer is slept out and the request sent again:
    when the first answer is a rate-limit answer and the second a 200,
    or the first two are rate-limit answers and the third a 200, [get]
    returns what the decoder makes of the 200, having sent two or three
    requests and slept once per rate-limit answer, and tracks the
    rate-limit headers of the 200. *)
Theorem get_retries_until_200 {float64 T} (dec : Unmarshal T) (env : Env) (url : string)
    (out : T) (s : State float64) :
  newRequestError env url = None ->
  (forall resp1 resp2 : http.Response,
     roundTrip env (sent s) (getRequest (client s) url) = inl resp1 ->
     roundTrip env (S (sent s)) (getRequest (client s) url) = inl resp2 ->
     isRateLimit resp1 = true -> http.StatusCode resp2 = http.StatusOK ->
     exists s',
       get env url out s =
         Some ((fst (Decode (http.Body resp2) out),
                External <$> snd (Decode (http.Body resp2) out)), s')
       /\ requestsOf (trace s') =
            requestsOf (trace s) ++ [getRequest (client s) url; getRequest (client s) url]
       /\ sleepsOf (trace s') =
            sleepsOf (trace (afterWait s)) ++ [limitDelay (now (afterWait s)) resp1]
       /\ client s' = updateRateLimit (client s) resp2)
  /\ (forall resp1 resp2 resp3 : http.Response,
        roundTrip env (sent s) (getRequest (client s) url) = inl resp1 ->
        roundTrip env (S (sent s)) (getRequest (client s) url) = inl resp2 ->
        roundTrip env (S (S (sent s))) (getRequest (client s) url) = inl resp3 ->
        isRateLimit resp1 = true -> isRateLimit resp2 = true ->
        http.StatusCode resp3 = http.StatusOK ->
        exists s',
          get env url out s =
            Some ((fst (Decode (http.Body resp3) out),
                   External <$> snd (Decode (http.Body resp3) out)), s')
          /\ requestsOf (trace s') =
               requestsOf (trace s)
               ++ [getRequest (client s) url; getRequest (client s) url;
                   getRequest (client s) url]
          /\ length (sleepsOf (trace s')) = S (S (length (sleepsOf (trace (afterWait s)))))
          /\ client s' = updateRateLimit (client s) resp3).
Proof.
  intros Hurl. split.
  - intros resp1 resp2 H1 H2 L1 Hok.
    eexists. split.
    { rewrite get_unfold. simpl. unfold bind.
      rewrite (getAttempt_limit env 0 url out (afterWait s) resp1 Hurl);
        [|by rewrite afterWait_sent|done].
      simpl.
      rewrite (getAttempt_200 env 1 url out _ resp2 Hurl);
        [reflexivity|by rewrite afterLimit_sent, afterWait_sent|done]. }
    cbn [trace client]. split; [|split; [|reflexivity]].
    + rewrite requestsOf_app, afterLimit_requests, afterWait_requests.
      by rewrite <- app_assoc.
    + unfold afterLimit, limitEvents. cbn [trace now]. rewrite !sleepsOf_app.
      simpl. by rewrite app_nil_r.
  - intros resp1 resp2 resp3 H1 H2 H3 L1 L2 Hok.
    eexists. split.
    { rewrite get_unfold. simpl. unfold bind.
      rewrite (getAttempt_limit env 0 url out (afterWait s) resp1 Hurl);
        [|by rewrite afterWait_sent|done].
      simpl.
      rewrite (getAttempt_limit env 1 url out _ resp2 Hurl);
        [|by rewrite afterLimit_sent, afterWait_sent|done].
      simpl.
      rewrite (getAttempt_200 env 2 url out _ resp3 Hurl);
        [reflexivity|by rewrite !afterLimit_sent, afterWait_sent|done]. }
    cbn [trace client]. split; [|split; [|reflexivity]].
    + rewrite requestsOf_app, !afterLimit_requests, afterWait_requests.
      by rewrite <- !app_assoc.
    + unfold afterLimit, limitEvents. cbn [trace now]. rewrite !sleepsOf_app.
      simpl. rewrite !length_app. simpl. lia.
Qed.

Lemma get_retries_until_200_witness :
  newRequestError Cases.busyThenOK Scenario.url1 = None
  /\ roundTrip Cases.busyThenOK (sent Scenario.state0)
       (getRequest (client Scenario.state0) Scenario.url1) = inl Scenario.tooMany
  /\ roundTrip Cases.busyThenOK (S (sent Scenario.state0))
       (getRequest (client Scenario.state0) Scenario.url1) = inl Scenario.plainOK
  /\ isRateLimit Scenario.tooMany = true
  /\ http.StatusCode Scenario.plainOK = http.StatusOK
  /\ exists s',
       @get Z Cases.busyThenOK _ Scenario.seatsDecoder Scenario.url1 zeroSeatsResponse
            Scenario.state0
       = Some ((Scenario.page1, None), s')
       /\ sleepsOf (trace s') = [7 * time.Second].
Proof.
  split; [reflexivity|]. split; [reflexivity|]. split; [reflexivity|].
  split; [reflexivity|]. split; [reflexivity|].
  destruct (proj1 (get_retries_until_200 Scenario.seatsDecoder Cases.busyThenOK
                     Scenario.url1 zeroSeatsResponse Scenario.state0 eq_refl)
              Scenario.tooMany Scenario.plainOK eq_refl eq_refl eq_refl eq_refl)
    as (s' & Hrun & _ & Hsleep & _).
  exists s'. split; [exact Hrun | exact Hsleep].
Defined.

(** ** What a call can and cannot do *)

Section Footprint.

Context {float64 : Type}.
Variable env : Env.
Implicit Types (s : State float64).

Lemma getAttempt_footprint {T} `{Unmarshal T} attempt url (out : T) s :
  exists r s' evs,
    getAttempt env attempt url out s = Some (r, s')
    /\ gauges s' = gauges s
    /\ Forall ioEvent evs
    /\ match newRequestError env url with
       | Some _ => trace s' = trace s
       | None => trace s' = trace s ++ EvRequest (getRequest (client s) url) :: evs
                 /\ requestsOf evs = []
       end
    /\ match r with
       | Some _ => clientAfter (client s) (client s')
       | None => client s' = client s
       end.
Proof.
  destruct (newRequestError env url) as [msg|] eqn:Hurl.
  { exists (Some (out, Some (External msg))), s, [].
    split; [by apply getAttempt_badURL|]. repeat split; try done. by left. }
  destruct (roundTrip env (sent s) (getRequest (client s) url)) as [resp|msg] eqn:Hrt.
  2:{ eexists _, _, []. split; [by apply getAttempt_transport|].
      repeat split; try done. by left. }
  destruct (Z.eq_dec (http.StatusCode resp) http.StatusOK) as [E200|E200].
  { eexists _, _, []. split; [by apply getAttempt_200|].
    repeat split; try done. right. by exists resp. }
  destruct (isRateLimit resp) eqn:Hlim.
  - eexists _, _, (limitEvents (now s) resp).
    split; [by apply getAttempt_limit|].
    split; [reflexivity|]. split; [repeat constructor|]. split; [by split|].
    destruct (maxRetries - attempt - 1 =? 0); [by left | reflexivity].
  - eexists _, _, []. split; [by apply getAttempt_unexpected|].
    repeat split; try done. by left.
Qed.

Lemma getLoop_footprint {T} `{Unmarshal T} attempts url (out : T) : forall s,
  exists r s' n,
    getLoop env attempts url out s = Some (r, s')
    /\ (n <= length attempts)%nat
    /\ requestsOf (trace s') =
         requestsOf (trace s) ++ replicate n (getRequest (client s) url)
    /\ gaugeOpsOf (trace s') = gaugeOpsOf (trace s)
    /\ gauges s' = gauges s
    /\ clientAfter (client s) (client s').
Proof.
  induction attempts as [|a rest IH]; intros s.
  - exists (out, Some (ErrExceededMaxRetries url)), s, 0%nat. simpl.
    repeat split; try done; [by rewrite app_nil_r | by left].
  - destruct (getAttempt_footprint a url out s)
      as (r & s1 & evs & Hrun & Hg & Hio & Htr & Hc).
    assert (Hreq1 : exists k, (k <= 1)%nat
              /\ requestsOf (trace s1) =
                   requestsOf (trace s) ++ replicate k (getRequest (client s) url)
              /\ gaugeOpsOf (trace s1) = gaugeOpsOf (trace s)).
    { destruct (newRequestError env url).
      - exists 0%nat. rewrite Htr. simpl. rewrite app_nil_r. split; [lia|done].
      - destruct Htr as [-> Hnone]. exists 1%nat. split; [lia|].
        change (EvRequest (getRequest (client s) url) :: evs)
          with ([@EvRequest float64 (getRequest (client s) url)] ++ evs).
        rewrite !requestsOf_app, !gaugeOpsOf_app, Hnone, (gaugeOpsOf_io evs Hio).
        simpl. by rewrite !app_nil_r. }
    destruct Hreq1 as (k & Hk & Hreq1 & Hops1).
    simpl. unfold bind. rewrite Hrun.
    destruct r as [res|].
    + exists res, s1, k. split; [reflexivity|]. simpl. repeat split; try done. lia.
    + destruct (IH s1) as (r2 & s2 & n & Hrun2 & Hn & Hreq2 & Hops2 & Hg2 & Hc2).
      exists r2, s2, (k + n)%nat. split; [exact Hrun2|]. simpl.
      split; [lia|]. rewrite Hc in Hreq2, Hc2.
      split; [|split; [congruence|split; [congruence | exact Hc2]]].
      rewrite Hreq2, Hreq1, <- app_assoc. by rewrite replicate_add.
Qed.

End Footprint.

(** X11. A call of [get] that returns has sent at most three requests,
    all of them the same authenticated GET of the URL, has touched no
    gauge, and has left the client as it was unless it was answered by
    a 200, whose headers it then tracks. *)
Theorem get_footprint {float64 T} (dec : Unmarshal T) (env : Env) (url : string)
    (out : T) (s : State float64) (r : T * option error) (s' : State float64) :
  get env url out s = Some (r, s') ->
  exists n,
    (n <= 3)%nat
    /\ requestsOf (trace s') =
         requestsOf (trace s) ++ replicate n (getRequest (client s) url)
    /\ gaugeOpsOf (trace s') = gaugeOpsOf (trace s)
    /\ gauges s' = gauges s
    /\ (client s' = client s
        \/ exists resp,
             http.StatusCode resp = 200
             /\ client s' = updateRateLimit (client s) resp).
Proof.
  intros Hget.
  destruct (getLoop_footprint env [0; 1; 2] url out (afterWait s))
    as (r0 & s0 & n & Hrun & Hn & Hreq & Hops & Hg & Hc).
  rewrite get_unfold, Hrun in Hget. injection Hget as <- <-.
  exists n. split; [exact Hn|]. rewrite afterWait_requests in Hreq.
  split; [exact Hreq|]. split; [|split; [exact Hg | exact Hc]].
  rewrite Hops. apply gaugeOpsOf_extends, afterWait_extends.
Qed.

Lemma get_footprint_witness :
  exists r s' n,
    @get Z Scenario.always429 SeatsResponse Scenario.seatsDecoder Scenario.url1
         zeroSeatsResponse Scenario.state0 = Some (r, s')
    /\ (n <= 3)%nat
    /\ requestsOf (trace s') =
         replicate n (getRequest (client Scenario.state0) Scenario.url1)
    /\ gauges s' = gauges Scenario.state0.
Proof.
  assert (Hsome : match @get Z Scenario.always429 SeatsResponse Scenario.seatsDecoder
                          Scenario.url1 zeroSeatsResponse Scenario.state0 with
                  | Some _ => true
                  | None => false
                  end = true) by (vm_compute; reflexivity).
  destruct (@get Z Scenario.always429 SeatsResponse Scenario.seatsDecoder Scenario.url1
              zeroSeatsResponse Scenario.state0) as [[r s']|] eqn:Hget; [|discriminate].
  destruct (get_footprint Scenario.seatsDecoder Scenario.always429 Scenario.url1
              zeroSeatsResponse Scenario.state0 r s' Hget)
    as (n & Hn & Hreq & _ & Hg & _).
  exists r, s', n. split; [reflexivity|]. split; [exact Hn|].
  split; [exact Hreq | exact Hg].
Defined.

(** ** The wait before the first request *)

Section WaitFacts.

Context {float64 : Type}.
Variable env : Env.
Implicit Types (s : State float64).

(** A call with a valid URL sends its first request right after the
    wait. *)
Lemma getLoop_first_request {T} `{Unmarshal T} url (out : T) s :
  newRequestError env url = None ->
  exists r s' evs,
    getLoop env (range maxRetries) url out s = Some (r, s')
    /\ trace s' = trace s ++ EvRequest (getRequest (client s) url) :: evs
    /\ Forall ioEvent evs.
Proof.
  intros Hurl. change (range maxRetries) with [0; 1; 2].
  destruct (getAttempt_footprint env 0 url out s)
    as (r & s1 & evs & Hrun & _ & Hio & Htr & _).
  rewrite Hurl in Htr. destruct Htr as [Htr _].
  cbn [getLoop]. unfold bind. rewrite Hrun.
  destruct r as [res|].
  - by exists res, s1, evs.
  - destruct (getLoop_cases env [1; 2] url out s1 eq_refl)
      as (r2 & s2 & Hrun2 & [[evs2 [Htr2 Hio2]] _ _ _ _ _] & _).
    exists r2, s2, (evs ++ evs2). split; [exact Hrun2|].
    split; [|by apply Forall_app].
    rewrite Htr2, Htr, <- app_assoc. reflexivity.
Qed.

End WaitFacts.

(** X12. A client made by [NewClient] never waits before a request, and
    nor does any client whose tracked remaining count is not 0 or whose
    tracked reset time plus 5 seconds is not ahead: the first thing such
    a call does is to send its request. *)
Theorem get_sends_at_once {float64 T} (dec : Unmarshal T) (env : Env) (url : string)
    (out : T) (s : State float64) :
  (forall tok lg fresh, rateLimitRemaining (NewClient tok lg fresh) <> 0)
  /\ (rateLimitRemaining (client s) <> 0
      \/ rateLimitReset (client s) + rateLimitResetBuffer <= now s ->
      newRequestError env url = None ->
      exists r s' evs,
        get env url out s = Some (r, s')
        /\ trace s' = trace s ++ EvRequest (getRequest (client s) url) :: evs
        /\ Forall ioEvent evs).
Proof.
  split; [intros tok lg fresh; simpl; lia|].
  intros Hstate Hurl.
  assert (Hno : waitsPreemptively (client s) (now s) = false).
  { unfold waitsPreemptively. destruct Hstate as [Hrem|Hpast].
    - apply Z.eqb_neq in Hrem. by rewrite Hrem.
    - apply andb_false_iff. right. apply Z.ltb_ge.
      unfold preemptiveDelay, time.Until, time.Sub, int64.add, rateLimitResetBuffer,
        time.Second, int64.max, int64.min in *.
      rewrite wrap_small; [lia|].
      unfold int64.in_range, int64.min, int64.max. lia. }
  destruct (getLoop_first_request env url out (afterWait s) Hurl)
    as (r & s' & evs & Hrun & Htr & Hio).
  exists r, s', evs. unfold get, bind. rewrite preemptiveWait_run.
  split; [exact Hrun|]. split; [|exact Hio].
  rewrite Htr. unfold afterWait, preemptiveEvents. cbn [trace client].
  rewrite Hno. by rewrite app_nil_r.
Qed.

Lemma get_sends_at_once_witness :
  (rateLimitRemaining (client Scenario.state0) <> 0
   \/ rateLimitReset (client Scenario.state0) + rateLimitResetBuffer <= now Scenario.state0)
  /\ newRequestError Scenario.always429 Scenario.url1 = None
  /\ exists r s' evs,
       @get Z Scenario.always429 _ Scenario.seatsDecoder Scenario.url1 zeroSeatsResponse
            Scenario.state0 = Some (r, s')
       /\ trace s' =
            trace Scenario.state0
            ++ EvRequest (getRequest (client Scenario.state0) Scenario.url1) :: evs
       /\ Forall ioEvent evs.
Proof.
  assert (Hfresh : rateLimitRemaining (client Scenario.state0) <> 0 \/
                   rateLimitReset (client Scenario.state0) + rateLimitResetBuffer
                   <= now Scenario.state0) by (left; discriminate).
  split; [exact Hfresh|]. split; [reflexivity|].
  exact (proj2 (get_sends_at_once Scenario.seatsDecoder Scenario.always429 Scenario.url1
                  zeroSeatsResponse Scenario.state0) Hfresh eq_refl).
Defined.

(** X13. A client that tracks a remaining count of 0 and a reset time
    whose 5-second buffer is still ahead, by no more than the largest
    duration of 9223372036854775807 nanoseconds, logs, sleeps exactly
    until the reset time plus 5 seconds, and only then sends its first
    request. *)
Theorem get_waits_for_reset {float64 T} (dec : Unmarshal T) (env : Env) (url : string)
    (out : T) (s : State float64) :
  rateLimitRemaining (client s) = 0 ->
  0 < rateLimitReset (client s) + rateLimitResetBuffer - now s <= int64.max ->
  newRequestError env url = None ->
  exists r s' evs,
    get env url out s = Some (r, s')
    /\ trace s' =
         trace s
         ++ [EvLog Info "preemptively waiting for github rate limit reset";
             EvSleep (rateLimitReset (client s) + rateLimitResetBuffer - now s);
             EvRequest (getRequest (client s) url)]
         ++ evs
    /\ Forall ioEvent evs
    /\ rateLimitReset (client s) + rateLimitResetBuffer <= now s'.
Proof.
  intros Hrem Hrange Hurl.
  assert (Hd : preemptiveDelay (client s) (now s)
               = rateLimitReset (client s) + rateLimitResetBuffer - now s).
  { unfold preemptiveDelay, time.Until, time.Sub, int64.add, rateLimitResetBuffer,
      time.Second, int64.max, int64.min in *.
    rewrite wrap_small; [lia|].
    unfold int64.in_range, int64.min, int64.max. lia. }
  assert (Hyes : waitsPreemptively (client s) (now s) = true).
  { unfold waitsPreemptively. rewrite Hrem, Hd. simpl. apply Z.ltb_lt. lia. }
  destruct (getLoop_first_request env url out (afterWait s) Hurl)
    as (r & s' & evs & Hrun & Htr & Hio).
  assert (Hmono : now (afterWait s) <= now s').
  { destruct (getLoop_cases env (range maxRetries) url out (afterWait s) eq_refl)
      as (r0 & s0 & Hrun0 & Hext & _).
    rewrite Hrun in Hrun0. injection Hrun0 as _ <-. apply Hext. }
  exists r, s', evs. unfold get, bind. rewrite preemptiveWait_run.
  split; [exact Hrun|]. split; [|split; [exact Hio|]].
  - rewrite Htr. unfold afterWait, preemptiveEvents. cbn [trace client].
    rewrite Hyes, Hd, <- app_assoc. reflexivity.
  - revert Hmono. unfold afterWait. cbn [now]. rewrite Hyes, Hd. lia.
Qed.

Lemma get_waits_for_reset_witness :
  rateLimitRemaining (client Scenario.stateExhausted) = 0
  /\ 0 < rateLimitReset (client Scenario.stateExhausted) + rateLimitResetBuffer
         - now Scenario.stateExhausted <= int64.max
  /\ newRequestError Scenario.threePages Scenario.url1 = None
  /\ exists r s' evs,
       @get Z Scenario.threePages _ Scenario.seatsDecoder Scenario.url1 zeroSeatsResponse
            Scenario.stateExhausted = Some (r, s')
       /\ trace s' =
            [EvLog Info "preemptively waiting for github rate limit reset";
             EvSleep (15 * time.Second);
             EvRequest (getRequest (client Scenario.stateExhausted) Scenario.url1)]
            ++ evs.
Proof.
  assert (Hrange : 0 < rateLimitReset (client Scenario.stateExhausted)
                       + rateLimitResetBuffer - now Scenario.stateExhausted
                   <= int64.max)
    by (vm_compute; split; [reflexivity | discriminate]).
  split; [reflexivity|]. split; [exact Hrange|]. split; [reflexivity|].
  destruct (get_waits_for_reset Scenario.seatsDecoder Scenario.threePages Scenario.url1
              zeroSeatsResponse Scenario.stateExhausted eq_refl Hrange eq_refl)
    as (r & s' & evs & Hrun & Htr & _).
  exists r, s', evs. split; [exact Hrun | exact Htr].
Defined.

(** * Further properties of the seat listing *)

Lemma get_failsAtOnce {float64 T} `{Unmarshal T} (env : Env) (url : string) (out : T)
    (s : State float64) (e : error) :
  newRequestError env url = None ->
  failsAtOnce out env (sent s) (getRequest (client s) url) url e ->
  exists out' s',
    get env url out s = Some ((out', Some e), s')
    /\ requestsOf (trace s') = requestsOf (trace s) ++ [getRequest (client s) url]
    /\ token (client s') = token (client s)
    /\ extends s s'.
Proof.
  intros Hurl Hfail.
  assert (Hext : forall r s', get env url out s = Some (r, s') -> extends s s').
  { intros r s' Hrun. destruct (get_cases env url out s) as (r0 & s0 & Hrun0 & Hext & _).
    congruence. }
  destruct Hfail as [(msg & Hrt & ->)|[(resp & Hrt & Hst & Hlim & ->)|(resp & msg & Hrt & Hst & Hdec & ->)]].
  - eexists _, _. split; [by apply get_transport|].
    split; [apply afterWait_trace_requests|]. split; [reflexivity|].
    eapply Hext. by apply get_transport.
  - eexists _, _. split; [by apply get_unexpected|].
    split; [apply afterWait_trace_requests|]. split; [reflexivity|].
    eapply Hext. by apply get_unexpected.
  - pose proof (get_200 env url out s resp Hurl Hrt Hst) as Hget.
    rewrite Hdec in Hget. eexists _, _. split; [exact Hget|].
    split; [|split].
    + cbn [trace]. by rewrite requestsOf_app, afterWait_requests.
    + apply updateRateLimit_frame.
    + eapply Hext. exact Hget.
Qed.

Section MorePagination.

Context {float64 : Type} `{Unmarshal SeatsResponse}.
Variable env : Env.
Implicit Types (s : State float64) (full : list SeatsResponse).

Lemma listSeatsLoop_page_failure full : forall fuel enterprise page logins s e,
  servesPages env (client s) enterprise (sent s) page full ->
  Forall (fun p => perPage <= Z.of_nat (length (Seats p))) full ->
  int64.min <= page -> page + Z.of_nat (length full) <= int64.max ->
  (length full < fuel)%nat ->
  newRequestError env (seatsURL enterprise (page + Z.of_nat (length full))) = None ->
  failsAtOnce zeroSeatsResponse env (sent s + length full)
    (getRequest (client s) (seatsURL enterprise (page + Z.of_nat (length full))))
    (seatsURL enterprise (page + Z.of_nat (length full))) e ->
  exists s',
    listSeatsLoop env fuel enterprise page logins s =
      Some (inr (ErrListingSeatsPage (page + Z.of_nat (length full)) e), s')
    /\ length (requestsOf (trace s')) = S (length (requestsOf (trace s)) + length full).
Proof.
  induction full as [|p full IH];
    intros fuel enterprise page logins s e Hs Hfull Hlo Hhi Hfuel Hurl Hfail;
    (destruct fuel as [|fuel]; [simpl in Hfuel; lia|]).
  - simpl in *. rewrite Z.add_0_r, Nat.add_0_r in *.
    destruct (get_failsAtOnce env _ zeroSeatsResponse s e Hurl Hfail)
      as (out' & s' & Hget & Hreq & _).
    exists s'. simpl. unfold bind. rewrite Hget. simpl.
    split; [reflexivity|]. rewrite Hreq, length_app. simpl. lia.
  - destruct (get_page env enterprise page p full s Hs)
      as (s1 & Hget & Htok & Hsent & Hreq & Hext).
    inversion Hfull as [|? ? Hp Hrest]; subst.
    destruct (IH fuel enterprise (page + 1) (logins ++ loginsOf p) s1 e)
      as (s' & Hloop & Hlen); try done.
    { rewrite Hsent. eapply servesPages_tail; [|exact Hs]. by symmetry. }
    { lia. }
    { simpl in Hhi. lia. }
    { simpl in Hfuel. lia. }
    { replace (page + 1 + Z.of_nat (length full))
        with (page + Z.of_nat (length (p :: full))) by (simpl; lia). exact Hurl. }
    { replace (page + 1 + Z.of_nat (length full))
        with (page + Z.of_nat (length (p :: full))) by (simpl; lia).
      rewrite (getRequest_token (client s1) (client s)) by exact Htok.
      rewrite Hsent. replace (S (sent s) + length full)%nat
        with (sent s + length (p :: full))%nat by (simpl; lia).
      exact Hfail. }
    exists s'. split.
    + simpl. unfold bind. rewrite Hget. simpl.
      destruct (Z.ltb_spec (Z.of_nat (length (Seats p))) perPage); [lia|].
      unfold int64.add. rewrite wrap_small.
      2:{ unfold int64.in_range. simpl in Hhi. lia. }
      fold (loginsOf p). rewrite Hloop.
      replace (page + 1 + Z.of_nat (length full))
        with (page + Z.of_nat (length (p :: full))) by (simpl; lia).
      reflexivity.
    + rewrite Hlen. unfold sent in Hsent. rewrite Hsent. simpl. lia.
Qed.

Lemma listSeatsLoop_alwaysFull :
  alwaysFull env ->
  forall fuel enterprise page logins s,
    listSeatsLoop env fuel enterprise page logins s = None.
Proof.
  intros [Hurl Hfull]. induction fuel as [|fuel IH]; intros enterprise page logins s;
    [reflexivity|].
  destruct (Hfull (sent s) (getRequest (client s) (seatsURL enterprise page)))
    as (resp & p & Hrt & Hst & Hdec & Hlen).
  simpl. unfold bind.
  rewrite (get_200 env _ zeroSeatsResponse s resp (Hurl _) Hrt Hst), Hdec. simpl.
  destruct (Z.ltb_spec (Z.of_nat (length (Seats p))) perPage); [lia|].
  apply IH.
Qed.

End MorePagination.

(** X14. When the pages before it are full and the next page cannot be
    fetched, because the transport fails, the status is unexpected or
    the body does not decode, [ListCopilotSeats] returns no login at
    all: it returns the error of that fetch wrapped with the number of
    the failing page, after one request per page. *)
Theorem ListCopilotSeats_page_failure {float64} (dec : Unmarshal SeatsResponse)
    (env : Env) (enterprise : string) (s : State float64) (fuel : nat)
    (full : list SeatsResponse) (e : error) :
  servesPages env (client s) enterprise (sent s) 1 full ->
  Forall (fun p => perPage <= Z.of_nat (length (Seats p))) full ->
  1 + Z.of_nat (length full) <= int64.max ->
  (length full < fuel)%nat ->
  newRequestError env (seatsURL enterprise (1 + Z.of_nat (length full))) = None ->
  failsAtOnce zeroSeatsResponse env (sent s + length full)
    (getRequest (client s) (seatsURL enterprise (1 + Z.of_nat (length full))))
    (seatsURL enterprise (1 + Z.of_nat (length full))) e ->
  exists s',
    ListCopilotSeats env fuel enterprise s =
      Some (inr (ErrListingSeatsPage (1 + Z.of_nat (length full)) e), s')
    /\ length (requestsOf (trace s')) = S (length (requestsOf (trace s)) + length full)
    /\ Error (ErrListingSeatsPage (1 + Z.of_nat (length full)) e) =
         ("listing copilot seats page " ++ strconv.Itoa (1 + Z.of_nat (length full))
          ++ ": " ++ Error e)%string.
Proof.
  intros Hs Hfull Hhi Hfuel Hurl Hfail.
  destruct (listSeatsLoop_page_failure env full fuel enterprise 1 [] s e)
    as (s' & Hrun & Hlen); try done.
  exists s'. split; [exact Hrun|]. split; [exact Hlen | reflexivity].
Qed.

Lemma ListCopilotSeats_page_failure_witness :
  @servesPages Scenario.seatsDecoder Cases.pageThen500 (client Scenario.state0) "acme"
     (sent Scenario.state0) 1 [Scenario.page1]
  /\ @failsAtOnce _ Scenario.seatsDecoder zeroSeatsResponse Cases.pageThen500
       (sent Scenario.state0 + 1)
       (getRequest (client Scenario.state0) (seatsURL "acme" 2)) (seatsURL "acme" 2)
       (ErrUnexpectedStatus 500 (seatsURL "acme" 2))
  /\ exists s',
       @ListCopilotSeats Z Cases.pageThen500 Scenario.seatsDecoder 5 "acme" Scenario.state0
       = Some (inr (ErrListingSeatsPage 2 (ErrUnexpectedStatus 500 (seatsURL "acme" 2))), s')
       /\ length (requestsOf (trace s')) = 2%nat.
Proof.
  assert (Hs : @servesPages Scenario.seatsDecoder Cases.pageThen500
                 (client Scenario.state0) "acme" (sent Scenario.state0) 1 [Scenario.page1]).
  { intros k p Hk. destruct k as [|k]; simpl in Hk; [|discriminate].
    injection Hk as <-.
    split; [reflexivity|]. eexists. split; [reflexivity|].
    split; vm_compute; reflexivity. }
  assert (Hfail : @failsAtOnce _ Scenario.seatsDecoder zeroSeatsResponse
                    Cases.pageThen500 (sent Scenario.state0 + 1)
                    (getRequest (client Scenario.state0) (seatsURL "acme" 2))
                    (seatsURL "acme" 2) (ErrUnexpectedStatus 500 (seatsURL "acme" 2))).
  { right. left. exists Cases.serverError.
    split; [reflexivity|]. split; [discriminate|]. split; reflexivity. }
  split; [exact Hs|]. split; [exact Hfail|].
  destruct (ListCopilotSeats_page_failure Scenario.seatsDecoder Cases.pageThen500 "acme"
              Scenario.state0 5 [Scenario.page1]
              (ErrUnexpectedStatus 500 (seatsURL "acme" 2)) Hs)
    as (s' & Hrun & Hlen & _);
    [ repeat constructor; vm_compute; discriminate
    | vm_compute; discriminate
    | simpl; lia
    | reflexivity
    | exact Hfail
    | ].
  exists s'. split; [exact Hrun | exact Hlen].
Defined.

(** X15. The listing has no page limit of its own: against a server
    that answers every request with a page of 100 seats or more,
    [ListCopilotSeats] does not return, however many pages it is given
    the time to fetch. *)
Theorem ListCopilotSeats_never_returns {float64} (dec : Unmarshal SeatsResponse)
    (env : Env) (enterprise : string) (s : State float64) :
  alwaysFull env ->
  forall fuel, ListCopilotSeats env fuel enterprise s = None.
Proof.
  intros Hfull fuel. by apply listSeatsLoop_alwaysFull.
Qed.

Lemma ListCopilotSeats_never_returns_witness :
  @alwaysFull Scenario.seatsDecoder Cases.alwaysFullPage
  /\ @ListCopilotSeats Z Cases.alwaysFullPage Scenario.seatsDecoder 1000 "acme"
       Scenario.state0 = None.
Proof.
  assert (Hfull : @alwaysFull Scenario.seatsDecoder Cases.alwaysFullPage).
  { split; [reflexivity|]. intros n req.
    exists Scenario.plainOK, Scenario.page1.
    split; [reflexivity|]. split; [reflexivity|].
    split; vm_compute; [reflexivity | discriminate]. }
  split; [exact Hfull|].
  exact (ListCopilotSeats_never_returns Scenario.seatsDecoder Cases.alwaysFullPage "acme"
           Scenario.state0 Hfull 1000%nat).
Defined.

(** * Further properties of the collection cycle *)

(** ** What publishing leaves in the gauges *)

(** X16. Publishing replaces and does not merge: the gauge state after
    the operations of one publication depends on the published entries
    alone, not on what was exposed before, so publishing the same
    snapshot twice in a row leaves the gauges as after the first time,
    and publishing an empty snapshot leaves all three series empty. *)
Theorem publish_replaces {float64} (entries : list (metricEntry float64))
    (G G' : Gauges float64) :
  fold_left (fun G op => applyOp op G) (publishOps entries) G
  = fold_left (fun G op => applyOp op G) (publishOps entries) G'
  /\ fold_left (fun G op => applyOp op G) (publishOps entries)
       (fold_left (fun G op => applyOp op G) (publishOps entries) G)
     = fold_left (fun G op => applyOp op G) (publishOps entries) G
  /\ fold_left (fun G op => applyOp op G) (publishOps []) G = mkGauges ∅ ∅ ∅.
Proof.
  rewrite !publishOps_published. repeat split.
Qed.

(** X17. After a publication each of the three series holds, under every
    label set, the value of the last entry of the snapshot that carries
    this label set, so a later entry overrides an earlier one with the
    same labels; a label set that no entry carries is absent from all
    three series, whatever was exposed under it before. The three
    series therefore always have the same label sets. *)
Theorem published_lookup {float64} (entries : list (metricEntry float64))
    (k : string * string * string * string) :
  (gRequestAmount (published entries) !! k = grossQuantity <$> observed k entries
   /\ gRequestCostGross (published entries) !! k = grossAmount <$> observed k entries
   /\ gRequestCostDiscount (published entries) !! k = discountAmount <$> observed k entries)
  /\ ((forall e, In e entries -> labelValues (labels e) <> k) ->
      gRequestAmount (published entries) !! k = None
      /\ gRequestCostGross (published entries) !! k = None
      /\ gRequestCostDiscount (published entries) !! k = None)
  /\ (is_Some (gRequestAmount (published entries) !! k)
      <-> is_Some (gRequestCostGross (published entries) !! k))
  /\ (is_Some (gRequestAmount (published entries) !! k)
      <-> is_Some (gRequestCostDiscount (published entries) !! k)).
Proof.
  destruct (published_lookup_all entries k) as (H1 & H2 & H3).
  split; [by rewrite H1, H2, H3|]. split.
  - intros Hnone.
    by rewrite H1, H2, H3, (observed_none entries k Hnone).
  - rewrite H1, H2, H3, !fmap_is_Some. done.
Qed.

Lemma published_lookup_witness :
  (forall e, In e Scenario.newEntries ->
             labelValues (labels e) <> ("B", "copilot_premium_request", "gpt-5", "acme")%string)
  /\ gRequestAmount (published Scenario.newEntries)
       !! ("B", "copilot_premium_request", "gpt-5", "acme")%string = None.
Proof.
  assert (Hnone : forall e, In e Scenario.newEntries ->
            labelValues (labels e) <> ("B", "copilot_premium_request", "gpt-5", "acme")%string).
  { intros e [<-|[<-|[<-|[]]]]; discriminate. }
  split; [exact Hnone|].
  exact (proj1 (proj1 (proj2 (published_lookup Scenario.newEntries
                                ("B", "copilot_premium_request", "gpt-5", "acme")%string))
                  Hnone)).
Defined.

(** ** The lock and the network *)

(** X18. [collect] never holds the lock while it talks to the network or
    sleeps. A cycle that fails has taken no lock. A cycle that succeeds
    has first done all its requests, sleeps and log lines, has then
    taken the lock once, applied the gauge operations of one
    publication and nothing else, and released the lock as its last
    step. *)
Theorem collect_lock_discipline {float64} (decS : Unmarshal SeatsResponse)
    (decU : Unmarshal (UsageResponse float64)) (env : Env) (fuel : nat)
    (enterprise : string) (s : State float64) (r : option error) (s' : State float64) :
  collect env fuel enterprise s = Some (r, s') ->
  match r with
  | Some _ =>
      exists io, trace s' = trace s ++ io /\ Forall ioEvent io
  | None =>
      exists io entries,
        trace s' = trace s ++ io ++ [EvLock] ++ map EvGauge (publishOps entries)
                           ++ [EvUnlock]
        /\ Forall ioEvent io
        /\ gauges s' = published entries
  end.
Proof.
  intros Hrun.
  destruct (ListCopilotSeats env fuel enterprise s) as [[[logins|err] s1]|] eqn:Hlist.
  - destruct (Fetched_total env enterprise logins
                (logged Info "found copilot seat holders" s1))
      as (outcomes & s2 & Hfetch & Hext2).
    rewrite (collect_run env fuel enterprise s logins s1 outcomes s2 Hlist Hfetch) in Hrun.
    destruct (existsb withPanics _); [discriminate|].
    injection Hrun as <- <-.
    pose proof (ListCopilotSeats_extends env _ _ _ _ _ Hlist) as Hext1.
    pose proof (extends_trans _ _ _ Hext1
                  (extends_trans _ _ _ (logged_extends _ _ s1) Hext2))
      as [[io [Htr Hio]] _ _ _ _ _].
    exists io, (snapshotOf enterprise outcomes).
    split; [|split; [exact Hio | reflexivity]].
    unfold afterPublish. cbn [trace]. rewrite Htr, <- !app_assoc. reflexivity.
  - unfold collect, bind in Hrun. rewrite Hlist in Hrun.
    injection Hrun as <- <-.
    exact (ext_trace _ _ (ListCopilotSeats_extends env _ _ _ _ _ Hlist)).
  - unfold collect, bind in Hrun. rewrite Hlist in Hrun. discriminate.
Qed.

Lemma collect_lock_discipline_witness :
  exists s',
    @collect Z Scenario.usageOfBFails Scenario.seatsDecoder Scenario.usageDecoder
             5 "acme" Scenario.state0 = Some (None, s')
    /\ exists io entries,
         trace s' = trace Scenario.state0 ++ io ++ [EvLock]
                      ++ map EvGauge (publishOps entries) ++ [EvUnlock]
         /\ Forall ioEvent io.
Proof.
  assert (Hok : fst <$> @collect Z Scenario.usageOfBFails Scenario.seatsDecoder
                          Scenario.usageDecoder 5 "acme" Scenario.state0
                = Some None) by (vm_compute; reflexivity).
  destruct (@collect Z Scenario.usageOfBFails Scenario.seatsDecoder Scenario.usageDecoder
              5 "acme" Scenario.state0) as [[r s']|] eqn:Hrun; [|discriminate].
  simpl in Hok. injection Hok as ->.
  exists s'. split; [reflexivity|].
  destruct (collect_lock_discipline Scenario.seatsDecoder Scenario.usageDecoder
              Scenario.usageOfBFails 5 "acme" Scenario.state0 None s' Hrun)
    as (io & entries & Htr & Hio & _).
  by exists io, entries.
Defined.

(** ** A cycle without usage *)

Section NoUsage.

Context {float64 : Type}.
Context `{!Unmarshal SeatsResponse} `{!Unmarshal (UsageResponse float64)}.
Variable env : Env.
Implicit Types (s : State float64).

(** Every request from number [n0] on fails at once. *)
Lemma Fetched_all_fail enterprise logins : forall s (n0 : nat),
  (n0 <= sent s)%nat ->
  (forall login, In login logins -> newRequestError env (usageURL enterprise login) = None) ->
  (forall n req url, (n0 <= n)%nat ->
     exists e, failsAtOnce (@zeroUsageResponse float64) env n req url e) ->
  exists outcomes s',
    Fetched env enterprise logins s outcomes s'
    /\ snapshotOf enterprise outcomes = []
    /\ sent s' = (sent s + length logins)%nat.
Proof.
  induction logins as [|login rest IH]; intros s n0 Hn0 Hurl Hfail.
  - exists [], s. split; [constructor|]. split; [reflexivity | simpl; lia].
  - destruct (Hfail (sent s) (getRequest (client s) (usageURL enterprise login))
                (usageURL enterprise login) Hn0) as (e & He).
    destruct (get_failsAtOnce env (usageURL enterprise login) zeroUsageResponse s e
                (Hurl login (or_introl eq_refl)) He)
      as (out' & s1 & Hget & Hreq & _ & _).
    assert (Hsent1 : sent (logged Warn "failed to get usage for user" s1) = S (sent s)).
    { unfold sent, logged. cbn [trace]. rewrite requestsOf_app, Hreq, !length_app.
      simpl. lia. }
    destruct (IH (logged Warn "failed to get usage for user" s1) n0)
      as (outcomes & s2 & Hrest & Hsnap & Hsent2).
    { rewrite Hsent1. lia. }
    { intros l Hl. apply Hurl. by right. }
    { exact Hfail. }
    exists ((login, inr (ErrGettingUsage login e)) :: outcomes), s2.
    split; [|split].
    + eapply Fetched_failed; [|exact Hrest].
      unfold GetUserPremiumUsage, bind. by rewrite Hget.
    + exact Hsnap.
    + rewrite Hsent2, Hsent1. simpl. lia.
Qed.

End NoUsage.

(** X19. A cycle in which no usage can be fetched still succeeds and
    wipes the metrics: when the seats are listed but every usage
    request fails at once (and also when there is no seat at all),
    [collect] sends one usage request per seat, returns no error and
    leaves all three gauge series empty. *)
Theorem collect_without_usage {float64} (decS : Unmarshal SeatsResponse)
    (decU : Unmarshal (UsageResponse float64)) (env : Env) (fuel : nat)
    (enterprise : string) (s : State float64) (logins : list string)
    (s1 : State float64) :
  ListCopilotSeats env fuel enterprise s = Some (inl logins, s1) ->
  (forall login, In login logins -> newRequestError env (usageURL enterprise login) = None) ->
  (forall n req url, (sent s1 <= n)%nat ->
     exists e, failsAtOnce (@zeroUsageResponse float64) env n req url e) ->
  exists s',
    collect env fuel enterprise s = Some (None, s')
    /\ gauges s' = mkGauges ∅ ∅ ∅
    /\ sent s' = (sent s1 + length logins)%nat.
Proof.
  intros Hlist Hurl Hfail.
  destruct (Fetched_all_fail env enterprise logins
              (logged Info "found copilot seat holders" s1) (sent s1))
    as (outcomes & s2 & Hfetch & Hsnap & Hsent); try done.
  { unfold sent, logged. cbn [trace]. rewrite requestsOf_app. simpl.
    rewrite app_nil_r. lia. }
  exists (afterPublish (snapshotOf enterprise outcomes) s2).
  split.
  { rewrite (collect_run env fuel enterprise s logins s1 outcomes s2 Hlist Hfetch).
    by rewrite Hsnap. }
  rewrite Hsnap. split; [reflexivity|].
  unfold sent, afterPublish. cbn [trace].
  change (EvLock :: map EvGauge (publishOps []) ++ [EvUnlock])
    with ([@EvLock float64] ++ map EvGauge (publishOps []) ++ [@EvUnlock float64]).
  rewrite !requestsOf_app. simpl. rewrite app_nil_r.
  fold (sent s2). rewrite Hsent.
  unfold sent, logged. cbn [trace]. rewrite requestsOf_app. simpl.
  by rewrite app_nil_r.
Qed.

Lemma collect_without_usage_witness :
  fst <$> @ListCopilotSeats Z Cases.noUsage Scenario.seatsDecoder 5 "acme" Scenario.state0
  = Some (inl ["A"; "B"; "C"]%string)
  /\ exists s',
       @collect Z Cases.noUsage Scenario.seatsDecoder Scenario.usageDecoder 5 "acme"
                Scenario.state0 = Some (None, s')
       /\ gauges s' = mkGauges ∅ ∅ ∅.
Proof.
  assert (Hlist : fst <$> @ListCopilotSeats Z Cases.noUsage Scenario.seatsDecoder 5 "acme"
                            Scenario.state0 = Some (inl ["A"; "B"; "C"]%string))
    by (vm_compute; reflexivity).
  split; [exact Hlist|].
  destruct (@ListCopilotSeats Z Cases.noUsage Scenario.seatsDecoder 5 "acme"
              Scenario.state0) as [[r s1]|] eqn:Hrun; [|discriminate].
  simpl in Hlist. injection Hlist as ->.
  destruct (collect_without_usage Scenario.seatsDecoder Scenario.usageDecoder
              Cases.noUsage 5 "acme" Scenario.state0 _ s1 Hrun)
    as (s' & Hcollect & Hg & _).
  { reflexivity. }
  { intros n req url _. unfold failsAtOnce, Cases.noUsage, Scenario.routeEnv.
    cbn [roundTrip].
    destruct (String.eqb (http.URL req) (seatsURL "acme" 1)).
    - eexists. right. right. eexists _, _.
      split; [reflexivity|]. split; [reflexivity|]. split; reflexivity.
    - eexists. right. left. exists Cases.serverError.
      split; [reflexivity|]. split; [discriminate|]. split; reflexivity. }
  exists s'. split; [exact Hcollect | exact Hg].
Defined.

(** * The cycle before the lock *)

Section Akin.

Context {float64 : Type}.
Variable env : Env.
Implicit Types (s t : State float64).

Lemma akin_refl s : akin s s.
Proof. by repeat split. Qed.

Lemma akin_sent s t : akin s t -> sent s = sent t.
Proof. intros (_ & _ & Hr & _). unfold sent. by rewrite Hr. Qed.

Lemma akin_grow s t c' n' evs :
  akin s t ->
  akin (mkState c' n' (trace s ++ evs) (gauges s))
       (mkState c' n' (trace t ++ evs) (gauges t)).
Proof.
  intros (_ & _ & Hr & Hs). repeat split; cbn [trace].
  - by rewrite !requestsOf_app, Hr.
  - by rewrite !sleepsOf_app, Hs.
Qed.

(** Gauge operations, locks and their events are invisible to the
    client. *)
Lemma akin_quiet s c' n' evs G :
  requestsOf evs = [] -> sleepsOf evs = [] ->
  akin (mkState c' n' (trace s) (gauges s)) (mkState c' n' (trace s ++ evs) G).
Proof.
  intros Hr Hs. repeat split; cbn [trace].
  - by rewrite requestsOf_app, Hr, app_nil_r.
  - by rewrite sleepsOf_app, Hs, app_nil_r.
Qed.

Lemma akin_trans s t u : akin s t -> akin t u -> akin s u.
Proof. intros (?&?&?&?) (?&?&?&?). repeat split; congruence. Qed.

Lemma akin_sym s t : akin s t -> akin t s.
Proof. intros (?&?&?&?). by repeat split. Qed.

Lemma state_eta s : mkState (client s) (now s) (trace s) (gauges s) = s.
Proof. by destruct s. Qed.

Lemma uniform_getAttempt {T} `{Unmarshal T} attempt url (out : T) :
  @uniform float64 _ (getAttempt env attempt url out).
Proof.
  intros s t Hakin. pose proof (akin_sent s t Hakin) as Hsent.
  destruct Hakin as (Hc & Hn & _ & _).
  destruct (newRequestError env url) as [msg|] eqn:Hurl.
  { exists (Some (out, Some (External msg))), (client s), (now s), [].
    rewrite !(getAttempt_badURL env attempt url out _ msg Hurl), !app_nil_r.
    rewrite state_eta. rewrite Hc, Hn, state_eta. by repeat split. }
  destruct (roundTrip env (sent s) (getRequest (client s) url)) as [resp|msg] eqn:Hrt.
  2:{ eexists _, (client s), (now s), [EvRequest (getRequest (client s) url)].
      rewrite (getAttempt_transport env attempt url out s msg Hurl Hrt).
      rewrite (getAttempt_transport env attempt url out t msg Hurl)
        by (by rewrite <- Hsent, <- Hc).
      unfold afterRequest. rewrite <- Hc, <- Hn. repeat split. repeat constructor. }
  destruct (Z.eq_dec (http.StatusCode resp) http.StatusOK) as [E200|E200].
  { eexists _, (updateRateLimit (client s) resp), (now s),
      [EvRequest (getRequest (client s) url)].
    rewrite (getAttempt_200 env attempt url out s resp Hurl Hrt E200).
    rewrite (getAttempt_200 env attempt url out t resp Hurl)
      by (by rewrite <- ?Hsent, <- ?Hc).
    rewrite <- Hc, <- Hn. repeat split. repeat constructor. }
  destruct (isRateLimit resp) eqn:Hlim.
  - eexists _, (client s), (now s + Z.max 0 (limitDelay (now s) resp)),
      (EvRequest (getRequest (client s) url) :: limitEvents (now s) resp).
    rewrite (getAttempt_limit env attempt url out s resp Hurl Hrt Hlim).
    rewrite (getAttempt_limit env attempt url out t resp Hurl)
      by (by rewrite <- ?Hsent, <- ?Hc).
    unfold afterLimit. rewrite <- Hc, <- Hn. repeat split. repeat constructor.
  - eexists _, (client s), (now s), [EvRequest (getRequest (client s) url)].
    rewrite (getAttempt_unexpected env attempt url out s resp Hurl Hrt E200 Hlim).
    rewrite (getAttempt_unexpected env attempt url out t resp Hurl)
      by (by rewrite <- ?Hsent, <- ?Hc).
    unfold afterRequest. rewrite <- Hc, <- Hn. repeat split. repeat constructor.
Qed.

Lemma uniform_bind {A B} (m : M float64 A) (k : A -> M float64 B) :
  uniform m -> (forall a, uniform (k a)) -> uniform (bind m k).
Proof.
  intros Hm Hk s t Hakin.
  destruct (Hm s t Hakin) as (a & c1 & n1 & evs1 & Hs & Ht & Hio1).
  destruct (Hk a _ _ (akin_grow s t c1 n1 evs1 Hakin))
    as (b & c2 & n2 & evs2 & Hs2 & Ht2 & Hio2).
  exists b, c2, n2, (evs1 ++ evs2). unfold bind. rewrite Hs, Ht, Hs2, Ht2.
  cbn [trace gauges]. rewrite <- !app_assoc. repeat split. by apply Forall_app.
Qed.

Lemma uniform_ret {A} (a : A) : uniform (@ret float64 A a).
Proof.
  intros s t (Hc & Hn & _). exists a, (client s), (now s), [].
  unfold ret. rewrite !app_nil_r, state_eta, Hc, Hn, state_eta. by repeat split.
Qed.

Lemma uniform_getLoop {T} `{Unmarshal T} attempts url (out : T) :
  @uniform float64 _ (getLoop env attempts url out).
Proof.
  induction attempts as [|a rest IH]; [apply uniform_ret|].
  cbn [getLoop]. apply uniform_bind; [apply uniform_getAttempt|].
  intros [res|]; [apply uniform_ret | exact IH].
Qed.

Lemma uniform_preemptiveWait : uniform (@preemptiveWait float64).
Proof.
  intros s t (Hc & Hn & _).
  exists tt, (client s),
    (if waitsPreemptively (client s) (now s)
     then now s + Z.max 0 (preemptiveDelay (client s) (now s)) else now s),
    (preemptiveEvents (client s) (now s)).
  rewrite !preemptiveWait_run. unfold afterWait. rewrite <- Hc, <- Hn.
  repeat split. unfold preemptiveEvents.
  destruct (waitsPreemptively _ _); repeat constructor.
Qed.

Lemma uniform_get {T} `{Unmarshal T} url (out : T) : @uniform float64 _ (get env url out).
Proof.
  unfold get. apply uniform_bind; [apply uniform_preemptiveWait|].
  intros _. apply uniform_getLoop.
Qed.

Lemma uniform_GetUserPremiumUsage `{Unmarshal (UsageResponse float64)} enterprise user :
  @uniform float64 _ (GetUserPremiumUsage env enterprise user).
Proof.
  unfold GetUserPremiumUsage. apply uniform_bind; [apply uniform_get|].
  intros [resp [err|]]; apply uniform_ret.
Qed.

End Akin.

Section UnlockedFacts.

Context {float64 : Type}.
Variable env : Env.
Context `{!Unmarshal SeatsResponse} `{!Unmarshal (UsageResponse float64)}.
Implicit Types (s t : State float64).

Lemma setItems_run enterprise login items : forall t,
  Unlocked.setItems enterprise login items t =
  if existsb withPanics (flat_map setOps (map (entryOf enterprise login) items))
  then None
  else Some (tt, mkState (client t) (now t)
                         (trace t ++ map EvGauge
                            (flat_map setOps (map (entryOf enterprise login) items)))
                         (fold_left (fun G op => applyOp op G)
                            (flat_map setOps (map (entryOf enterprise login) items))
                            (gauges t))).
Proof.
  induction items as [|item rest IH]; intros t.
  - simpl. rewrite app_nil_r. by destruct t.
  - cbn [Unlocked.setItems map flat_map]. rewrite setOps_panics.
    unfold bind, gaugeOp. cbn [withPanics entryOf labels].
    destruct (validLabels _); [|reflexivity].
    cbn [negb orb client now trace gauges].
    rewrite IH.
    destruct (existsb withPanics (flat_map setOps (map (entryOf enterprise login) rest)));
      [reflexivity|].
    cbn [client now trace gauges]. rewrite fold_left_app, map_app.
    simpl. by rewrite <- !app_assoc.
Qed.

Lemma requestsOf_gauge (ops : list (GaugeOp float64)) :
  requestsOf (map EvGauge ops) = [].
Proof. induction ops as [|op ops IH]; [done|]. exact IH. Qed.

Lemma sleepsOf_gauge (ops : list (GaugeOp float64)) :
  sleepsOf (map EvGauge ops) = [].
Proof. induction ops as [|op ops IH]; [done|]. exact IH. Qed.

(** The earlier loop fetches what the later one fetches, and has set the
    gauges of every fetched user by the time it ends; it panics when a
    write of what is fetched panics. *)
Lemma collectLoop_Fetched enterprise logins s outcomes s' :
  Fetched env enterprise logins s outcomes s' ->
  forall t, akin s t ->
    if existsb withPanics (flat_map setOps (snapshotOf enterprise outcomes))
    then Unlocked.collectLoop env enterprise logins t = None
    else
      exists t',
        Unlocked.collectLoop env enterprise logins t = Some (tt, t')
        /\ akin s' t'
        /\ gauges t' = fold_left (fun G op => applyOp op G)
                         (flat_map setOps (snapshotOf enterprise outcomes)) (gauges t)
        /\ gaugeOpsOf (trace t') =
             gaugeOpsOf (trace t) ++ flat_map setOps (snapshotOf enterprise outcomes).
Proof.
  induction 1 as [s|login rest s usage s1 outcomes s2 Hrun _ IH
                 |login rest s err s1 outcomes s2 Hrun _ IH]; intros t Hakin.
  - unfold snapshotOf. cbn [flat_map existsb]. exists t. simpl. rewrite app_nil_r.
    split; [reflexivity|]. split; [exact Hakin|]. by split.
  - destruct (uniform_GetUserPremiumUsage env enterprise login s t Hakin)
      as (r & c1 & n1 & evs & Hs & Ht & Hio).
    rewrite Hrun in Hs. injection Hs as <- ->.
    set (ops := flat_map setOps (map (entryOf enterprise login) (UsageItems usage))).
    assert (Heq : Unlocked.collectLoop env enterprise (login :: rest) t =
                  if existsb withPanics ops then None
                  else Unlocked.collectLoop env enterprise rest
                         (mkState c1 n1 ((trace t ++ evs) ++ map EvGauge ops)
                            (fold_left (fun G op => applyOp op G) ops (gauges t)))).
    { cbn [Unlocked.collectLoop]. unfold bind at 1. rewrite Ht.
      unfold bind at 1. rewrite setItems_run. fold ops.
      by destruct (existsb withPanics ops). }
    rewrite Heq. clear Heq.
    unfold snapshotOf. cbn [flat_map observationsOf]. fold (snapshotOf enterprise outcomes).
    rewrite flat_map_app, existsb_app. fold ops.
    destruct (existsb withPanics ops); [reflexivity|]. cbn [orb].
    specialize (IH (mkState c1 n1 ((trace t ++ evs) ++ map EvGauge ops)
                      (fold_left (fun G op => applyOp op G) ops (gauges t)))).
    assert (Hakin2 : akin (mkState c1 n1 (trace s ++ evs) (gauges s))
                          (mkState c1 n1 ((trace t ++ evs) ++ map EvGauge ops)
                             (fold_left (fun G op => applyOp op G) ops (gauges t)))).
    { eapply akin_trans; [apply (akin_grow s t c1 n1 evs Hakin)|].
      apply (akin_quiet (mkState c1 n1 (trace t ++ evs) (gauges t)) c1 n1
               (map EvGauge ops));
        [apply requestsOf_gauge | apply sleepsOf_gauge]. }
    specialize (IH Hakin2).
    destruct (existsb withPanics (flat_map setOps (snapshotOf enterprise outcomes)));
      [exact IH|].
    destruct IH as (t' & Hloop & Hakin' & Hg & Hops).
    exists t'. split; [exact Hloop|]. split; [exact Hakin'|].
    cbn [gauges trace] in Hg, Hops.
    rewrite fold_left_app. split; [exact Hg|].
    rewrite Hops, !gaugeOpsOf_app, (gaugeOpsOf_io evs Hio), gaugeOpsOf_map_EvGauge.
    by rewrite app_nil_r, <- app_assoc.
  - destruct (uniform_GetUserPremiumUsage env enterprise login s t Hakin)
      as (r & c1 & n1 & evs & Hs & Ht & Hio).
    rewrite Hrun in Hs. injection Hs as <- ->.
    assert (Heq : Unlocked.collectLoop env enterprise (login :: rest) t =
                  Unlocked.collectLoop env enterprise rest
                    (mkState c1 n1 ((trace t ++ evs)
                                      ++ [EvLog Warn "failed to get usage for user"])
                       (gauges t))).
    { cbn [Unlocked.collectLoop]. unfold bind at 1. rewrite Ht. reflexivity. }
    rewrite Heq. clear Heq.
    specialize (IH (mkState c1 n1 ((trace t ++ evs)
                                     ++ [EvLog Warn "failed to get usage for user"])
                      (gauges t))).
    assert (Hakin2 : akin (logged Warn "failed to get usage for user"
                             (mkState c1 n1 (trace s ++ evs) (gauges s)))
                          (mkState c1 n1 ((trace t ++ evs)
                                            ++ [EvLog Warn "failed to get usage for user"])
                             (gauges t))).
    { unfold logged. cbn [client now trace gauges].
      apply (akin_grow (mkState c1 n1 (trace s ++ evs) (gauges s))
                       (mkState c1 n1 (trace t ++ evs) (gauges t)) c1 n1
                       [EvLog Warn "failed to get usage for user"]).
      apply (akin_grow s t c1 n1 evs Hakin). }
    specialize (IH Hakin2).
    unfold snapshotOf. cbn [flat_map observationsOf app].
    fold (snapshotOf enterprise outcomes).
    destruct (existsb withPanics (flat_map setOps (snapshotOf enterprise outcomes)));
      [exact IH|].
    destruct IH as (t' & Hloop & Hakin' & Hg & Hops).
    exists t'. split; [exact Hloop|]. split; [exact Hakin'|].
    cbn [gauges trace] in Hg, Hops.
    split; [exact Hg|].
    rewrite Hops, !gaugeOpsOf_app, (gaugeOpsOf_io evs Hio).
    by rewrite !app_nil_r.
Qed.

(** A call with a valid URL sends at least one request. *)
Lemma get_sends {T} `{Unmarshal T} url (out : T) t :
  newRequestError env url = None ->
  exists r t' evs,
    get env url out t = Some (r, t')
    /\ trace t' = trace t ++ evs
    /\ (1 <= length (requestsOf evs))%nat.
Proof.
  intros Hurl.
  destruct (getLoop_first_request env url out (afterWait t) Hurl)
    as (r & t' & evs & Hrun & Htr & _).
  exists r, t', (preemptiveEvents (client t) (now t)
                 ++ EvRequest (getRequest (client (afterWait t)) url) :: evs).
  unfold get, bind. rewrite preemptiveWait_run. split; [exact Hrun|].
  split; [rewrite Htr; unfold afterWait; cbn [trace]; by rewrite <- app_assoc|].
  rewrite requestsOf_app, length_app.
  change (EvRequest (getRequest (client (afterWait t)) url) :: evs)
    with ([@EvRequest float64 (getRequest (client (afterWait t)) url)] ++ evs).
  rewrite requestsOf_app, length_app. simpl. lia.
Qed.

Lemma collectLoop_sends enterprise logins :
  (forall login, newRequestError env (usageURL enterprise login) = None) ->
  forall t t',
    Unlocked.collectLoop env enterprise logins t = Some (tt, t') ->
    exists evs,
      trace t' = trace t ++ evs
      /\ (length logins <= length (requestsOf evs))%nat.
Proof.
  intros Hurl. induction logins as [|login rest IH]; intros t t' Hloop.
  - simpl in Hloop. injection Hloop as <-. exists []. rewrite app_nil_r.
    split; [reflexivity | simpl; lia].
  - destruct (get_sends (usageURL enterprise login) (@zeroUsageResponse float64) t
                (Hurl login)) as ([resp err] & t1 & evs1 & Hget & Htr1 & Hn1).
    cbn [Unlocked.collectLoop] in Hloop.
    unfold bind at 1, GetUserPremiumUsage, bind at 1 in Hloop.
    rewrite Hget in Hloop. destruct err as [err|]; unfold ret in Hloop.
    + unfold bind at 1, logWarn, emit in Hloop.
      destruct (IH _ _ Hloop) as (evs & Htr & Hn).
      exists (evs1 ++ [EvLog Warn "failed to get usage for user"] ++ evs).
      cbn [trace] in Htr.
      split; [rewrite Htr, Htr1; by rewrite <- !app_assoc|].
      rewrite !requestsOf_app, !length_app. simpl. lia.
    + unfold bind at 1 in Hloop. rewrite setItems_run in Hloop.
      set (ops := flat_map setOps (map (entryOf enterprise login) (UsageItems resp)))
        in Hloop.
      destruct (existsb withPanics ops); [discriminate|].
      destruct (IH _ _ Hloop) as (evs & Htr & Hn).
      exists (evs1 ++ map EvGauge ops ++ evs).
      cbn [trace] in Htr.
      split; [rewrite Htr, Htr1; by rewrite <- !app_assoc|].
      rewrite !requestsOf_app, !length_app. simpl. lia.
Qed.

End UnlockedFacts.

(** X20. Taking the lock changed when the gauges are written and nothing
    else. From the same state and against the same server the cycle
    with the lock and the cycle before it return together or not at
    all; they return the same result, leave the same client and the
    same clock, have sent the same requests and slept the same sleeps,
    have applied the same gauge operations in the same order, and
    leave the same gauges. *)
Theorem collect_same_as_unlocked {float64} (decS : Unmarshal SeatsResponse)
    (decU : Unmarshal (UsageResponse float64)) (env : Env) (fuel : nat)
    (enterprise : string) (s : State float64) :
  (collect env fuel enterprise s = None
   /\ Unlocked.collect env fuel enterprise s = None)
  \/ exists r s' t',
       collect env fuel enterprise s = Some (r, s')
       /\ Unlocked.collect env fuel enterprise s = Some (r, t')
       /\ akin s' t'
       /\ gaugeOpsOf (trace s') = gaugeOpsOf (trace t')
       /\ gauges s' = gauges t'.
Proof.
  destruct (ListCopilotSeats env fuel enterprise s) as [[[logins|err] s1]|] eqn:Hlist.
  - destruct (Fetched_total env enterprise logins
                (logged Info "found copilot seat holders" s1))
      as (outcomes & s2 & Hfetch & Hext2).
    set (t0 := mkState (client s1) (now s1)
                 ((((trace s1 ++ [EvLog Info "found copilot seat holders"])
                      ++ [EvGauge (Reset RequestAmount)])
                     ++ [EvGauge (Reset RequestCostGross)])
                    ++ [EvGauge (Reset RequestCostDiscount)])
                 (applyOp (Reset RequestCostDiscount)
                    (applyOp (Reset RequestCostGross)
                       (applyOp (Reset RequestAmount) (gauges s1))))).
    assert (Hakin0 : akin (logged Info "found copilot seat holders" s1) t0).
    { unfold logged, t0. repeat split; cbn [client now trace gauges]; try done.
      - rewrite !requestsOf_app. simpl. by rewrite !app_nil_r.
      - rewrite !sleepsOf_app. simpl. by rewrite !app_nil_r. }
    pose proof (collectLoop_Fetched env enterprise logins _ outcomes s2 Hfetch t0 Hakin0)
      as Hold.
    pose proof (collect_run env fuel enterprise s logins s1 outcomes s2 Hlist Hfetch)
      as Hnew.
    assert (Hunfold : Unlocked.collect env fuel enterprise s =
                      match Unlocked.collectLoop env enterprise logins t0 with
                      | Some (_, t1) => Some (@None error, t1)
                      | None => None
                      end).
    { unfold Unlocked.collect, bind at 1. rewrite Hlist. reflexivity. }
    destruct (existsb withPanics (flat_map setOps (snapshotOf enterprise outcomes))).
    { left. split; [exact Hnew|]. by rewrite Hunfold, Hold. }
    right. destruct Hold as (t' & Hloop & Hakin & Hg & Hops).
    exists None, (afterPublish (snapshotOf enterprise outcomes) s2), t'.
    split; [exact Hnew|].
    split; [by rewrite Hunfold, Hloop|].
    split.
    { destruct Hakin as (Hc & Hn & Hr & Hs). unfold afterPublish.
      repeat split; cbn [client now trace gauges]; try done.
      - rewrite requestsOf_app, Hr.
        change (EvLock :: map EvGauge (publishOps (snapshotOf enterprise outcomes))
                  ++ [EvUnlock])
          with ([@EvLock float64]
                  ++ map EvGauge (publishOps (snapshotOf enterprise outcomes))
                  ++ [EvUnlock]).
        rewrite !requestsOf_app, requestsOf_gauge. simpl. by rewrite app_nil_r.
      - rewrite sleepsOf_app, Hs.
        change (EvLock :: map EvGauge (publishOps (snapshotOf enterprise outcomes))
                  ++ [EvUnlock])
          with ([@EvLock float64]
                  ++ map EvGauge (publishOps (snapshotOf enterprise outcomes))
                  ++ [EvUnlock]).
        rewrite !sleepsOf_app, sleepsOf_gauge. simpl. by rewrite app_nil_r. }
    split.
    + rewrite Hops. unfold afterPublish, t0. cbn [trace].
      change (EvLock :: map EvGauge (publishOps (snapshotOf enterprise outcomes))
                ++ [EvUnlock])
        with ([@EvLock float64]
                ++ map EvGauge (publishOps (snapshotOf enterprise outcomes))
                ++ [EvUnlock]).
      rewrite !gaugeOpsOf_app, gaugeOpsOf_map_EvGauge.
      rewrite (gaugeOpsOf_extends _ _ Hext2). unfold logged. cbn [trace].
      rewrite !gaugeOpsOf_app. simpl. unfold publishOps.
      by rewrite !app_nil_r, <- !app_assoc.
    + rewrite Hg. unfold afterPublish, t0. cbn [gauges]. reflexivity.
  - right. exists (Some (ErrListingSeats err)), s1, s1.
    unfold collect, Unlocked.collect, bind. rewrite Hlist.
    repeat split; reflexivity.
  - left. unfold collect, Unlocked.collect, bind. by rewrite Hlist.
Qed.

(** X21. Before the lock the old values are gone while the cycle is
    still fetching. A cycle of that version that has listed the seats
    and returns has returned no error, and what it did after the
    listing began with the log line of the seat count and the three
    resets; the usage requests, at least one for every seat holder,
    all came after them. *)
Theorem unlocked_resets_before_fetching {float64} (decS : Unmarshal SeatsResponse)
    (decU : Unmarshal (UsageResponse float64)) (env : Env) (fuel : nat)
    (enterprise : string) (s s1 s' : State float64) (logins : list string)
    (r : option error) :
  ListCopilotSeats env fuel enterprise s = Some (inl logins, s1) ->
  (forall login, newRequestError env (usageURL enterprise login) = None) ->
  Unlocked.collect env fuel enterprise s = Some (r, s') ->
  r = None
  /\ exists evs,
       trace s' = trace s1
                    ++ [EvLog Info "found copilot seat holders";
                        EvGauge (Reset RequestAmount);
                        EvGauge (Reset RequestCostGross);
                        EvGauge (Reset RequestCostDiscount)]
                    ++ evs
       /\ (length logins <= length (requestsOf evs))%nat.
Proof.
  intros Hlist Hurl Hrun.
  set (t0 := mkState (client s1) (now s1)
               ((((trace s1 ++ [EvLog Info "found copilot seat holders"])
                    ++ [EvGauge (Reset RequestAmount)])
                   ++ [EvGauge (Reset RequestCostGross)])
                  ++ [EvGauge (Reset RequestCostDiscount)])
               (applyOp (Reset RequestCostDiscount)
                  (applyOp (Reset RequestCostGross)
                     (applyOp (Reset RequestAmount) (gauges s1))))).
  assert (Hunfold : Unlocked.collect env fuel enterprise s =
                    match Unlocked.collectLoop env enterprise logins t0 with
                    | Some (_, t1) => Some (@None error, t1)
                    | None => None
                    end).
  { unfold Unlocked.collect, bind at 1. rewrite Hlist. reflexivity. }
  rewrite Hunfold in Hrun.
  destruct (Unlocked.collectLoop env enterprise logins t0) as [[[] t']|] eqn:Hloop;
    [|discriminate].
  injection Hrun as <- <-. split; [reflexivity|].
  destruct (collectLoop_sends env enterprise logins Hurl t0 t' Hloop) as (evs & Htr & Hn).
  exists evs. split; [|exact Hn].
  rewrite Htr. unfold t0. cbn [trace]. by rewrite <- !app_assoc.
Qed.

Lemma unlocked_resets_before_fetching_witness :
  exists s1 s' evs,
    @ListCopilotSeats Z Scenario.usageOfBFails Scenario.seatsDecoder 5 "acme"
                      Scenario.state0 = Some (inl ["A"; "B"; "C"]%string, s1)
    /\ @Unlocked.collect Z Scenario.usageOfBFails Scenario.seatsDecoder
                         Scenario.usageDecoder 5 "acme" Scenario.state0
       = Some (None, s')
    /\ trace s' = trace s1
                    ++ [EvLog Info "found copilot seat holders";
                        EvGauge (Reset RequestAmount);
                        EvGauge (Reset RequestCostGross);
                        EvGauge (Reset RequestCostDiscount)]
                    ++ evs
    /\ (3 <= length (requestsOf evs))%nat.
Proof.
  assert (Hl : fst <$> @ListCopilotSeats Z Scenario.usageOfBFails Scenario.seatsDecoder
                         5 "acme" Scenario.state0
               = Some (inl ["A"; "B"; "C"]%string)) by (vm_compute; reflexivity).
  destruct (@ListCopilotSeats Z Scenario.usageOfBFails Scenario.seatsDecoder 5 "acme"
              Scenario.state0) as [[r1 s1]|] eqn:Hlist; [|discriminate].
  simpl in Hl. injection Hl as ->.
  assert (Hsome : match @Unlocked.collect Z Scenario.usageOfBFails Scenario.seatsDecoder
                          Scenario.usageDecoder 5 "acme" Scenario.state0 with
                  | Some _ => true
                  | None => false
                  end = true) by (vm_compute; reflexivity).
  destruct (@Unlocked.collect Z Scenario.usageOfBFails Scenario.seatsDecoder
              Scenario.usageDecoder 5 "acme" Scenario.state0) as [[r s']|] eqn:Hrun;
    [|discriminate].
  destruct (unlocked_resets_before_fetching Scenario.seatsDecoder Scenario.usageDecoder
              Scenario.usageOfBFails 5 "acme" Scenario.state0 s1 s'
              ["A"; "B"; "C"]%string r Hlist (fun _ => eq_refl) Hrun)
    as (-> & evs & Htr & Hn).
  exists s1, s', evs.
  split; [reflexivity|]. split; [reflexivity|]. split; [exact Htr | exact Hn].
Defined.

(** * The worker loop *)

Section WorkerFacts.

Context {float64 : Type}.
Variable env : Env.
Context `{!Unmarshal SeatsResponse} `{!Unmarshal (UsageResponse float64)}.
Implicit Types (s : State float64) (errors : list (string * error)).

(** A cycle only adds to the trace and never turns the clock back. *)
Lemma collect_clock fuel enterprise s r s' :
  collect env fuel enterprise s = Some (r, s') ->
  now s <= now s'
  /\ token (client s') = token (client s)
  /\ exists evs, trace s' = trace s ++ evs.
Proof.
  intros Hrun.
  destruct (ListCopilotSeats env fuel enterprise s) as [[[logins|err] s1]|] eqn:Hlist.
  - destruct (Fetched_total env enterprise logins
                (logged Info "found copilot seat holders" s1))
      as (outcomes & s2 & Hfetch & Hext2).
    rewrite (collect_run env fuel enterprise s logins s1 outcomes s2 Hlist Hfetch) in Hrun.
    destruct (existsb withPanics _); [discriminate|].
    injection Hrun as <- <-.
    pose proof (ListCopilotSeats_extends env _ _ _ _ _ Hlist) as Hext1.
    pose proof (extends_trans _ _ _ Hext1
                  (extends_trans _ _ _ (logged_extends _ _ s1) Hext2))
      as [[io [Htr Hio]] _ Htok _ _ Hnow].
    unfold afterPublish. cbn [client now trace].
    split; [exact Hnow|]. split; [exact Htok|].
    eexists. rewrite Htr, <- app_assoc. reflexivity.
  - unfold collect, bind in Hrun. rewrite Hlist in Hrun. injection Hrun as <- <-.
    destruct (ListCopilotSeats_extends env _ _ _ _ _ Hlist)
      as [[io [Htr Hio]] _ Htok _ _ Hnow].
    split; [exact Hnow|]. split; [exact Htok|]. by exists io.
  - unfold collect, bind in Hrun. rewrite Hlist in Hrun. discriminate.
Qed.

Lemma workerCycle_spec fuel conf s errors s' errors' :
  workerCycle env fuel conf (s, errors) = Some (s', errors') ->
  now s + Z.max 0 (sleepInterval conf) <= now s'
  /\ token (client s') = token (client s)
  /\ (exists evs, trace s' = trace s ++ evs ++ [EvSleep (sleepInterval conf)])
  /\ (errors' = errors
      \/ exists err, errors' = errors ++ [("failed to collect metrics"%string, err)]).
Proof.
  unfold workerCycle. unfold bind at 1, logInfo, emit.
  set (s0 := mkState (client s) (now s)
               (trace s ++ [EvLog Info "collecting copilot premium usage metrics"])
               (gauges s)).
  destruct (collect env fuel (config.Enterprise (config.Github conf)) s0)
    as [[[err|] s1]|] eqn:Hcollect; [| |discriminate];
    destruct (collect_clock _ _ _ _ _ Hcollect) as (Hnow & Htok & evs & Htr);
    unfold s0 in Hnow, Htok, Htr; cbn [client now trace] in Hnow, Htok, Htr.
  - unfold Sleep. intros [= <- <-]. cbn [client now trace].
    split; [clear -Hnow; lia|]. split; [exact Htok|].
    split; [|right; by exists err].
    exists ([EvLog Info "collecting copilot premium usage metrics"] ++ evs).
    rewrite Htr. by rewrite <- !app_assoc.
  - unfold bind, Sleep, emit. intros [= <- <-]. cbn [client now trace].
    split; [clear -Hnow; lia|]. split; [exact Htok|]. split; [|by left].
    exists ([EvLog Info "collecting copilot premium usage metrics"] ++ evs
              ++ [EvLog Info "metrics published"]).
    rewrite Htr. by rewrite <- !app_assoc.
Qed.

Lemma workerLoop_spec fuel conf cycles : forall s errors s' errors',
  workerLoop env fuel conf cycles (s, errors) = Some (s', errors') ->
  now s + Z.of_nat cycles * Z.max 0 (sleepInterval conf) <= now s'
  /\ token (client s') = token (client s)
  /\ (exists evs,
        trace s' = trace s ++ evs
        /\ (cycles <= count_occ Z.eq_dec (sleepsOf evs) (sleepInterval conf))%nat)
  /\ (exists more,
        errors' = errors ++ more
        /\ (length more <= cycles)%nat
        /\ Forall (fun e => fst e = "failed to collect metrics"%string) more).
Proof.
  induction cycles as [|cycles IH]; intros s errors s' errors' Hrun.
  - simpl in Hrun. injection Hrun as <- <-.
    split; [clear; lia|]. split; [reflexivity|].
    split; [exists []; rewrite app_nil_r; split; [reflexivity | simpl; lia]|].
    exists []. rewrite app_nil_r. by repeat split.
  - cbn [workerLoop] in Hrun.
    destruct (workerCycle env fuel conf (s, errors)) as [[s1 errors1]|] eqn:Hcycle;
      [|discriminate].
    destruct (workerCycle_spec _ _ _ _ _ _ Hcycle) as (Hnow1 & Htok1 & [evs1 Htr1] & Herr1).
    destruct (IH _ _ _ _ Hrun) as (Hnow & Htok & (evs & Htr & Hcount) & more & -> & Hlen & Hmsg).
    split; [clear -Hnow1 Hnow; lia|]. split; [congruence|]. split.
    + exists ((evs1 ++ [EvSleep (sleepInterval conf)]) ++ evs).
      split; [rewrite Htr, Htr1; by rewrite <- !app_assoc|].
      rewrite !sleepsOf_app, !count_occ_app. simpl.
      destruct (Z.eq_dec (sleepInterval conf) (sleepInterval conf)); [|done].
      simpl. lia.
    + destruct Herr1 as [->|[err ->]].
      * exists more. split; [reflexivity|]. split; [lia | exact Hmsg].
      * exists (("failed to collect metrics"%string, err) :: more).
        split; [by rewrite <- app_assoc|]. split; [simpl; lia|].
        by constructor.
Qed.

(** During an outage a client that does not wait sends one request and
    gets its error back. *)
Lemma get_outage {T} `{Unmarshal T} url (out : T) s :
  outage env ->
  rateLimitRemaining (client s) <> 0 ->
  exists e,
    get env url out s =
    Some ((out, Some e), afterRequest (getRequest (client s) url) s).
Proof.
  intros [Hurl Hout] Hrem.
  assert (Hwait : afterWait s = s).
  { unfold afterWait, preemptiveEvents, waitsPreemptively.
    apply Z.eqb_neq in Hrem. rewrite Hrem. simpl. rewrite app_nil_r. by destruct s. }
  destruct (Hout (sent s) (getRequest (client s) url))
    as [(msg & Hrt)|(resp & Hrt & Hst & Hlim)].
  - exists (External msg). rewrite (get_transport env url out s msg (Hurl _) Hrt).
    by rewrite Hwait.
  - exists (ErrUnexpectedStatus (http.StatusCode resp) url).
    rewrite (get_unexpected env url out s resp (Hurl _) Hrt Hst Hlim).
    by rewrite Hwait.
Qed.

Lemma workerLoop_outage fuel conf cycles :
  outage env ->
  forall s errors,
    rateLimitRemaining (client s) <> 0 ->
    exists s' more,
      workerLoop env (S fuel) conf cycles (s, errors) = Some (s', errors ++ more)
      /\ length more = cycles
      /\ Forall (fun e => fst e = "failed to collect metrics"%string
                          /\ exists cause,
                               snd e = ErrListingSeats (ErrListingSeatsPage 1 cause))
                more
      /\ client s' = client s
      /\ gauges s' = gauges s
      /\ now s' = now s + Z.of_nat cycles * Z.max 0 (sleepInterval conf)
      /\ requestsOf (trace s') =
           requestsOf (trace s)
           ++ replicate cycles
                (getRequest (client s)
                   (seatsURL (config.Enterprise (config.Github conf)) 1))
      /\ sleepsOf (trace s') =
           sleepsOf (trace s) ++ replicate cycles (sleepInterval conf).
Proof.
  intros Hout. induction cycles as [|cycles IH]; intros s errors Hrem.
  - exists s, []. simpl. rewrite !app_nil_r. repeat split; try done. clear; lia.
  - set (s0 := mkState (client s) (now s)
                 (trace s ++ [EvLog Info "collecting copilot premium usage metrics"])
                 (gauges s)).
    destruct (get_outage (seatsURL (config.Enterprise (config.Github conf)) 1)
                zeroSeatsResponse s0 Hout Hrem) as (cause & Hget).
    set (req := getRequest (client s)
                  (seatsURL (config.Enterprise (config.Github conf)) 1)) in *.
    set (s2 := mkState (client s) (now s + Z.max 0 (sleepInterval conf))
                 (((trace s ++ [EvLog Info "collecting copilot premium usage metrics"])
                     ++ [EvRequest req]) ++ [EvSleep (sleepInterval conf)])
                 (gauges s)).
    assert (Hcycle : workerCycle env (S fuel) conf (s, errors) =
                     Some (s2, errors ++ [("failed to collect metrics"%string,
                                           ErrListingSeats (ErrListingSeatsPage 1 cause))])).
    { unfold workerCycle. unfold bind at 1, logInfo, emit. fold s0.
      unfold collect, bind at 1, ListCopilotSeats. cbn [listSeatsLoop].
      unfold bind at 1. rewrite Hget. reflexivity. }
    destruct (IH s2 (errors ++ [("failed to collect metrics"%string,
                                 ErrListingSeats (ErrListingSeatsPage 1 cause))]) Hrem)
      as (s' & more & Hloop & Hlen & Hmore & Hc & Hg & Hnow & Hreq & Hsl).
    exists s', (("failed to collect metrics"%string,
                 ErrListingSeats (ErrListingSeatsPage 1 cause)) :: more).
    cbn [workerLoop]. rewrite Hcycle, Hloop.
    split; [by rewrite <- app_assoc|].
    split; [simpl; by rewrite Hlen|].
    split; [constructor; [split; [reflexivity | by exists cause] | exact Hmore]|].
    split; [exact Hc|]. split; [exact Hg|].
    split; [rewrite Hnow; unfold s2; cbn [now]; clear; lia|].
    unfold s2 in Hreq, Hsl. cbn [client trace] in Hreq, Hsl.
    split.
    + rewrite Hreq, !requestsOf_app. simpl. by rewrite !app_nil_r, <- app_assoc.
    + rewrite Hsl, !sleepsOf_app. simpl. by rewrite !app_nil_r, <- app_assoc.
Qed.

End WorkerFacts.

(** X22. The cycles of the worker do not overlap and are at least the
    configured interval apart. Whatever the server does, once the
    worker has gone through a number of cycles, the clock has advanced
    by at least that many intervals, the worker has slept the interval
    at least once per cycle, it has logged at most one error per cycle,
    each as a failed collection, and the client still holds the
    configured token. *)
Theorem worker_cycles {float64} (decS : Unmarshal SeatsResponse)
    (decU : Unmarshal (UsageResponse float64)) (env : Env) (fuel : nat)
    (conf : config.Config) (lg fresh cycles : nat) (s s' : State float64)
    (errors : list (string * error)) :
  worker env fuel conf lg fresh cycles s = Some (s', errors) ->
  now s + Z.of_nat cycles * Z.max 0 (sleepInterval conf) <= now s'
  /\ (exists evs,
        trace s' = trace s ++ evs
        /\ (cycles <= count_occ Z.eq_dec (sleepsOf evs) (sleepInterval conf))%nat)
  /\ (length errors <= cycles)%nat
  /\ Forall (fun e => fst e = "failed to collect metrics"%string) errors
  /\ token (client s') = config.Token (config.Github conf).
Proof.
  unfold worker. intros Hrun.
  destruct (workerLoop_spec env fuel conf cycles _ _ _ _ Hrun)
    as (Hnow & Htok & Htr & more & Herr & Hlen & Hmsg).
  cbn [now trace client] in Hnow, Htr, Htok. simpl in Herr. subst errors.
  repeat split; try done.
Qed.

Lemma worker_cycles_witness :
  exists s' errors,
    @worker Z Scenario.usageOfBFails Scenario.seatsDecoder Scenario.usageDecoder 5
            (config.mkConfig "info" false 3600 (config.mkGithubConfig "secret" "acme"))
            1 2 2 Scenario.state0 = Some (s', errors)
    /\ now Scenario.state0 + 2 * 3600000000000 <= now s'
    /\ (length errors <= 2)%nat.
Proof.
  destruct (@worker Z Scenario.usageOfBFails Scenario.seatsDecoder Scenario.usageDecoder 5
              (config.mkConfig "info" false 3600 (config.mkGithubConfig "secret" "acme"))
              1 2 2 Scenario.state0) as [[s' errors]|] eqn:Hrun.
  - exists s', errors. split; [reflexivity|].
    destruct (worker_cycles Scenario.seatsDecoder Scenario.usageDecoder
                Scenario.usageOfBFails 5 _ 1 2 2 Scenario.state0 s' errors Hrun)
      as (Hnow & _ & Hlen & _).
    split; [exact Hnow | exact Hlen].
  - exfalso.
    assert (Hsome : match @worker Z Scenario.usageOfBFails Scenario.seatsDecoder
                            Scenario.usageDecoder 5
                            (config.mkConfig "info" false 3600
                               (config.mkGithubConfig "secret" "acme"))
                            1 2 2 Scenario.state0 with
                    | Some _ => true
                    | None => false
                    end = true) by (vm_compute; reflexivity).
    rewrite Hrun in Hsome. discriminate.
Defined.

(** X23. The worker lives through an outage of the API. While every
    request fails in the transport or is answered by a status that is
    neither 200 nor a rate-limit answer, every cycle sends one request,
    for the first page of seats, logs the error of the seat listing,
    leaves the gauges as they were and sleeps the interval; the worker
    goes on to the next cycle, for ever. *)
Theorem worker_during_outage {float64} (decS : Unmarshal SeatsResponse)
    (decU : Unmarshal (UsageResponse float64)) (env : Env) (fuel : nat)
    (conf : config.Config) (lg fresh cycles : nat) (s : State float64) :
  outage env ->
  (0 < fuel)%nat ->
  exists s' errors,
    worker env fuel conf lg fresh cycles s = Some (s', errors)
    /\ length errors = cycles
    /\ Forall (fun e => fst e = "failed to collect metrics"%string
                        /\ exists cause,
                             snd e = ErrListingSeats (ErrListingSeatsPage 1 cause))
              errors
    /\ gauges s' = gauges s
    /\ now s' = now s + Z.of_nat cycles * Z.max 0 (sleepInterval conf)
    /\ requestsOf (trace s') =
         requestsOf (trace s)
         ++ replicate cycles
              (getRequest (NewClient (config.Token (config.Github conf)) lg fresh)
                 (seatsURL (config.Enterprise (config.Github conf)) 1))
    /\ sleepsOf (trace s') = sleepsOf (trace s) ++ replicate cycles (sleepInterval conf).
Proof.
  intros Hout Hfuel. destruct fuel as [|fuel]; [lia|].
  destruct (workerLoop_outage env fuel conf cycles Hout
              (mkState (NewClient (config.Token (config.Github conf)) lg fresh)
                       (now s) (trace s) (gauges s)) [])
    as (s' & more & Hloop & Hlen & Hmore & Hc & Hg & Hnow & Hreq & Hsl).
  { simpl. lia. }
  exists s', more. unfold worker. by rewrite Hloop.
Qed.

Lemma worker_during_outage_witness :
  exists s' errors,
    @worker Z Cases.always500 Scenario.seatsDecoder Scenario.usageDecoder 1
            (config.mkConfig "info" false 3600 (config.mkGithubConfig "secret" "acme"))
            1 2 3 Scenario.state0 = Some (s', errors)
    /\ length errors = 3%nat
    /\ gauges s' = gauges Scenario.state0
    /\ now s' = now Scenario.state0 + 3 * 3600000000000
    /\ length (requestsOf (trace s')) = 3%nat.
Proof.
  assert (Hout : outage Cases.always500).
  { split; [reflexivity|]. intros n req. right. exists Cases.serverError.
    split; [reflexivity|]. split; [discriminate | reflexivity]. }
  destruct (worker_during_outage Scenario.seatsDecoder Scenario.usageDecoder
              Cases.always500 1
              (config.mkConfig "info" false 3600 (config.mkGithubConfig "secret" "acme"))
              1 2 3 Scenario.state0 Hout (Nat.lt_0_succ 0))
    as (s' & errors & Hrun & Hlen & _ & Hg & Hnow & Hreq & _).
  exists s', errors. split; [exact Hrun|]. split; [exact Hlen|].
  split; [exact Hg|]. split; [exact Hnow|].
  rewrite Hreq. reflexivity.
Defined.

(** * The interval of the worker *)

(** X24. The pause between two cycles, from the environment to the
    duration slept, for the intervals from -9223372036 to 18446744073
    seconds. When the environment gives no interval or gives 0, the
    worker sleeps one hour; an interval of 1 to 9223372036 seconds is
    slept as given; an interval of -9223372036 to -1 seconds gives a
    negative duration, and so does, by overflow of the multiplication,
    an interval of 9223372037 to 18446744073 seconds. Within these
    bounds the duration is positive exactly when the interval is
    between 0 and 9223372036. *)
Theorem Load_sleepInterval (Process : config.Processor) (w : Z) :
  config.WorkerInterval (fst (Process config.appConfPrefix config.zero)) = w ->
  -9223372036 <= w <= 18446744073 ->
  sleepInterval (fst (config.Load Process)) =
    (if w =? 0 then 3600 * time.Second
     else if w <=? 9223372036 then w * time.Second
     else w * time.Second - 2 ^ 64)
  /\ (0 < sleepInterval (fst (config.Load Process)) <-> 0 <= w <= 9223372036).
Proof.
  intros Hw Hrange.
  destruct (Load_spec Process) as (_ & Hload & _).
  unfold sleepInterval. rewrite Hload, Hw. clear Hload Hw.
  unfold int64.mul, int64.wrap, time.Second.
  destruct (Z.eqb_spec w 0) as [->|Hnz].
  { split; [reflexivity|]. split; [lia|reflexivity]. }
  destruct (Z.leb_spec w 9223372036) as [Hle|Hgt].
  - rewrite Z.mod_small by lia. split; lia.
  - assert (Hmod : (w * 1000000000 + 2 ^ 63) mod 2 ^ 64
                   = w * 1000000000 + 2 ^ 63 - 2 ^ 64).
    { symmetry. apply (Z.mod_unique _ _ 1); lia. }
    rewrite Hmod. split; lia.
Qed.

Lemma Load_sleepInterval_witness :
  sleepInterval
    (fst (config.Load (envconfig.Process {[ "CPUE_WORKERINTERVAL"%string := "900"%string ]})))
  = 900 * time.Second.
Proof.
  destruct (Load_sleepInterval
              (envconfig.Process {[ "CPUE_WORKERINTERVAL"%string := "900"%string ]}) 900)
    as [Hd _]; [vm_compute; reflexivity | lia | exact Hd].
Defined.

(** * The client before rate limiting *)

Section PlainFacts.

Context {float64 : Type}.
Variable env : Env.
Implicit Types (s : State float64) (resp : http.Response).

Lemma Plain_get_badURL {T} `{Unmarshal T} url (out : T) s msg :
  newRequestError env url = Some msg ->
  Plain.get env url out s = Some ((out, Some (External msg)), s).
Proof. intros Hurl. unfold Plain.get. by rewrite Hurl. Qed.

Lemma Plain_get_transport {T} `{Unmarshal T} url (out : T) s msg :
  newRequestError env url = None ->
  roundTrip env (sent s) (getRequest (client s) url) = inr msg ->
  Plain.get env url out s =
  Some ((out, Some (External msg)), afterRequest (getRequest (client s) url) s).
Proof.
  intros Hurl Hrt. unfold Plain.get. rewrite Hurl.
  unfold bind, getClient, Do. fold (getRequest (client s) url). fold (sent s).
  by rewrite Hrt.
Qed.

Lemma Plain_get_response {T} `{Unmarshal T} url (out : T) s resp :
  newRequestError env url = None ->
  roundTrip env (sent s) (getRequest (client s) url) = inl resp ->
  Plain.get env url out s =
  Some (if http.StatusCode resp =? http.StatusOK
        then (fst (Decode (http.Body resp) out),
              External <$> snd (Decode (http.Body resp) out))
        else (out, Some (ErrUnexpectedStatus (http.StatusCode resp) url)),
        afterRequest (getRequest (client s) url) s).
Proof.
  intros Hurl Hrt. unfold Plain.get. rewrite Hurl.
  unfold bind, getClient, Do. fold (getRequest (client s) url). fold (sent s).
  rewrite Hrt. destruct (http.StatusCode resp =? http.StatusOK); simpl; [|reflexivity].
  by destruct (Decode (http.Body resp) out).
Qed.

Lemma afterWait_idle s :
  waitsPreemptively (client s) (now s) = false -> afterWait s = s.
Proof.
  intros Hno. unfold afterWait, preemptiveEvents. rewrite Hno, app_nil_r.
  by destruct s.
Qed.

End PlainFacts.

(** X25. Rate limiting aside, the client answers as it did before it
    knew about rate limits. When the client has no reason to wait
    before the request and the answer to the request is no rate-limit
    answer, [get] and the earlier [get] return the same result after
    the same single request, without a sleep or a log line; the one
    difference is that [get] tracks the rate-limit headers of a 200. *)
Theorem get_agrees_with_plain {float64 T} (dec : Unmarshal T) (env : Env) (url : string)
    (out : T) (s : State float64) :
  waitsPreemptively (client s) (now s) = false ->
  (forall resp,
     roundTrip env (sent s) (getRequest (client s) url) = inl resp ->
     isRateLimit resp = false) ->
  exists r s' t',
    get env url out s = Some (r, s')
    /\ Plain.get env url out s = Some (r, t')
    /\ trace s' = trace t'
    /\ now s' = now t'
    /\ gauges s' = gauges t'
    /\ client t' = client s
    /\ clientAfter (client s) (client s').
Proof.
  intros Hno Hlim. pose proof (afterWait_idle s Hno) as Hidle.
  destruct (newRequestError env url) as [msg|] eqn:Hurl.
  { exists (out, Some (External msg)), s, s.
    rewrite (get_badURL env url out s msg Hurl), Hidle.
    rewrite (Plain_get_badURL env url out s msg Hurl).
    repeat split. by left. }
  destruct (roundTrip env (sent s) (getRequest (client s) url)) as [resp|msg] eqn:Hrt.
  2:{ eexists _, _, _.
      rewrite (get_transport env url out s msg Hurl Hrt), Hidle.
      rewrite (Plain_get_transport env url out s msg Hurl Hrt).
      repeat split. by left. }
  rewrite (Plain_get_response env url out s resp Hurl Hrt).
  destruct (Z.eqb_spec (http.StatusCode resp) http.StatusOK) as [E200|E200].
  - eexists _, _, _.
    rewrite (get_200 env url out s resp Hurl Hrt E200), Hidle.
    repeat split. right. by exists resp.
  - eexists _, _, _.
    rewrite (get_unexpected env url out s resp Hurl Hrt E200 (Hlim resp eq_refl)), Hidle.
    repeat split. by left.
Qed.

Lemma get_agrees_with_plain_witness :
  exists r s' t',
    @get Z Cases.always500 SeatsResponse Scenario.seatsDecoder Scenario.url1
         zeroSeatsResponse Scenario.state0 = Some (r, s')
    /\ @Plain.get Z Cases.always500 SeatsResponse Scenario.seatsDecoder Scenario.url1
                  zeroSeatsResponse Scenario.state0 = Some (r, t')
    /\ trace s' = trace t'.
Proof.
  destruct (get_agrees_with_plain Scenario.seatsDecoder Cases.always500 Scenario.url1
              zeroSeatsResponse Scenario.state0 eq_refl)
    as (r & s' & t' & Hget & Hplain & Htr & _).
  { intros resp [= <-]. reflexivity. }
  by exists r, s', t'.
Defined.

(** X26. The earlier [get] knows no waiting and no second try: it
    returns after at most one request, without a sleep or a log line,
    and leaves the client, the clock and the gauges as they were. A
    rate-limit answer, a 429 or a 403 with no quota left, is to it an
    unexpected status like any other. *)
Theorem plain_get_one_shot {float64 T} (dec : Unmarshal T) (env : Env) (url : string)
    (out : T) (s : State float64) :
  exists r evs,
    Plain.get env url out s =
      Some (r, mkState (client s) (now s) (trace s ++ evs) (gauges s))
    /\ (evs = [] \/ evs = [EvRequest (getRequest (client s) url)])
    /\ (forall resp,
          newRequestError env url = None ->
          roundTrip env (sent s) (getRequest (client s) url) = inl resp ->
          isRateLimit resp = true ->
          r = (out, Some (ErrUnexpectedStatus (http.StatusCode resp) url))).
Proof.
  destruct (newRequestError env url) as [msg|] eqn:Hurl.
  { exists (out, Some (External msg)), [].
    rewrite (Plain_get_badURL env url out s msg Hurl), app_nil_r.
    split; [by destruct s|]. split; [by left | discriminate]. }
  destruct (roundTrip env (sent s) (getRequest (client s) url)) as [resp|msg] eqn:Hrt.
  2:{ exists (out, Some (External msg)), [EvRequest (getRequest (client s) url)].
      rewrite (Plain_get_transport env url out s msg Hurl Hrt).
      split; [reflexivity|]. split; [by right | discriminate]. }
  eexists _, [EvRequest (getRequest (client s) url)].
  rewrite (Plain_get_response env url out s resp Hurl Hrt).
  split; [reflexivity|]. split; [by right|].
  intros resp' _ [= <-] Hlim.
  destruct (Z.eqb_spec (http.StatusCode resp) http.StatusOK) as [E200|E200];
    [|reflexivity].
  unfold isRateLimit, isSecondaryLimit, isPrimaryLimit in Hlim. rewrite E200 in Hlim.
  discriminate.
Qed.

(** * Progress of the lock discipline *)

Section Progress.

Context {float64 : Type}.
Implicit Types (l : list (Scraper float64)) (sc : Scraper float64)
  (s : System float64) (entries : list (metricEntry float64)).

Lemma steps_insert l : forall i sc sc',
  l !! i = Some sc ->
  (sum_list (scraperSteps <$> <[i := sc']> l) + scraperSteps sc
   = sum_list (scraperSteps <$> l) + scraperSteps sc')%nat.
Proof.
  induction l as [|x l IH]; intros i sc sc' Hi; [discriminate|].
  destruct i as [|i]; simpl in *.
  - injection Hi as ->. lia.
  - specialize (IH i sc sc' Hi). unfold fmap in *. lia.
Qed.

Lemma find_reading l :
  (exists i obs, l !! i = Some (SReading obs)) \/ reading l = 0%nat.
Proof.
  induction l as [|x l IH]; [by right|].
  destruct x as [|obs|seen].
  - destruct IH as [(i & obs & Hi)|Hq]; [left; by exists (S i), obs | by right].
  - left. by exists 0%nat, obs.
  - destruct IH as [(i & obs & Hi)|Hq]; [left; by exists (S i), obs | by right].
Qed.

Lemma find_idle l :
  reading l = 0%nat ->
  (exists i, l !! i = Some SIdle)
  \/ Forall (fun sc => exists seen, sc = SDone seen) l.
Proof.
  induction l as [|x l IH]; intros Hq; [right; constructor|].
  destruct x as [|obs|seen].
  - left. by exists 0%nat.
  - discriminate.
  - destruct (IH Hq) as [(i & Hi)|Hall]; [left; by exists (S i)|].
    right. constructor; [by exists seen | exact Hall].
Qed.

(** Unless everything is over, some thread can take a step, and that
    step brings the end nearer. *)
Lemma progress entries (old : Gauges float64) s :
  consistent entries old s ->
  calm s ->
  finished s
  \/ exists a s',
       step entries a s = Some s'
       /\ (stepsLeft entries s' < stepsLeft entries s)%nat.
Proof.
  intros (Hcount & Hpub & _) Hcalm.
  destruct s as [[w r] G pub scs]. unfold finished, stepsLeft, calm in *.
  cbn [collectMu readers writer scrapers exposed publisher] in *.
  destruct (find_reading scs) as [(i & [a b c] & Hi)|Hquiet].
  - right. pose proof (steps_insert scs i (SReading (mkPartial a b c))) as Hsum.
    assert (Hread : forall g,
              match g with
              | RequestAmount => unread a
              | RequestCostGross => unread b
              | RequestCostDiscount => unread c
              end = 1%nat ->
              exists s',
                step entries (ARead i g) (mkSystem (mkRWMutex w r) G pub scs) = Some s'
                /\ (publisherSteps entries (publisher s')
                    + sum_list (scraperSteps <$> scrapers s')
                    < publisherSteps entries pub + sum_list (scraperSteps <$> scs))%nat).
    { intros g Hg. eexists. unfold step.
      cbn [collectMu readers writer scrapers exposed publisher]. rewrite Hi.
      split; [reflexivity|]. cbn [scrapers publisher].
      specialize (Hsum (SReading (readSeries g G (mkPartial a b c))) Hi).
      destruct g, a, b, c; simpl in Hg; try discriminate;
        simpl in Hsum |- *; unfold fmap in *; lia. }
    destruct a as [a|]; [|exists (ARead i RequestAmount); by apply Hread].
    destruct b as [b|]; [|exists (ARead i RequestCostGross); by apply Hread].
    destruct c as [c|]; [|exists (ARead i RequestCostDiscount); by apply Hread].
    exists (ARUnlock i). eexists. unfold step.
    cbn [collectMu readers writer scrapers exposed publisher]. rewrite Hi.
    cbn [complete pRequestAmount pRequestCostGross pRequestCostDiscount].
    split; [reflexivity|]. cbn [scrapers publisher].
    specialize (Hsum (SDone (mkGauges a b c)) Hi).
    simpl in Hsum |- *. unfold fmap in *. lia.
  - rewrite Hquiet in Hcount. subst r.
    destruct pub as [|[|op todo]| |]; [| | | |done].
    + right. destruct Hpub as [-> _]. exists ALock. eexists.
      split; [reflexivity|]. simpl. lia.
    + right. exists AUnlock. eexists. split; [reflexivity|]. simpl. lia.
    + right. exists AOp. eexists. cbn [existsb] in Hcalm.
      apply orb_false_iff in Hcalm as [Hop _].
      cbn [step publisher collectMu exposed scrapers]. rewrite Hop.
      split; [reflexivity|]. simpl. lia.
    + destruct Hpub as [-> _].
      destruct (find_idle scs Hquiet) as [(i & Hi)|Hall]; [|by left].
      right. exists (ARLock i). eexists. unfold step.
      cbn [collectMu readers writer scrapers exposed publisher]. rewrite Hi.
      split; [reflexivity|]. cbn [scrapers publisher negb].
      pose proof (steps_insert scs i SIdle (SReading (mkPartial None None None)) Hi)
        as Hsum.
      simpl in Hsum |- *. unfold fmap in *. lia.
Qed.

Lemma can_finish entries (old : Gauges float64) :
  Forall validEntry entries ->
  forall n s,
    (stepsLeft entries s <= n)%nat ->
    consistent entries old s ->
    calm s ->
    exists rest s',
      run entries rest s = Some s' /\ finished s' /\ (length rest <= n)%nat.
Proof.
  intros Hvalid. induction n as [|n IH]; intros s Hn Hinv Hcalm.
  - destruct (progress entries old s Hinv Hcalm) as [Hfin|(a & s1 & _ & Hless)]; [|lia].
    exists [], s. split; [reflexivity|]. split; [exact Hfin | simpl; lia].
  - destruct (progress entries old s Hinv Hcalm) as [Hfin|(a & s1 & Hstep & Hless)].
    + exists [], s. split; [reflexivity|]. split; [exact Hfin | simpl; lia].
    + pose proof (calm_step entries a s s1 Hvalid Hcalm Hstep) as Hcalm1.
      destruct (IH s1) as (rest & s' & Hrun & Hfin & Hlen); [lia| |exact Hcalm1|].
      { destruct (consistent_step _ _ _ _ _ Hinv Hstep) as [Hinv1|Hp]; [exact Hinv1|].
        unfold calm in Hcalm1. by rewrite Hp in Hcalm1. }
      exists (a :: rest), s'. simpl. rewrite Hstep.
      split; [exact Hrun|]. split; [exact Hfin | lia].
Qed.

Lemma step_scrapers entries a s s' :
  step entries a s = Some s' -> length (scrapers s') = length (scrapers s).
Proof.
  destruct a as [| | |i|i g|i]; unfold step.
  - destruct (publisher s); try discriminate.
    destruct (negb _ && _); [|discriminate]. by intros [= <-].
  - destruct (publisher s) as [|[|op todo]| |]; try discriminate.
    destruct (withPanics op); by intros [= <-].
  - destruct (publisher s) as [|[|op todo]| |]; try discriminate. by intros [= <-].
  - destruct (scrapers s !! i) as [[|obs|seen]|]; try discriminate.
    destruct (negb _); [|discriminate]. intros [= <-]. simpl.
    by rewrite length_insert.
  - destruct (scrapers s !! i) as [[|obs|seen]|]; try discriminate.
    intros [= <-]. simpl. by rewrite length_insert.
  - destruct (scrapers s !! i) as [[|obs|seen]|]; try discriminate.
    destruct (complete obs); [|discriminate]. intros [= <-]. simpl.
    by rewrite length_insert.
Qed.

Lemma run_scrapers entries schedule : forall s s',
  run entries schedule s = Some s' -> length (scrapers s') = length (scrapers s).
Proof.
  induction schedule as [|a rest IH]; intros s s' Hrun; simpl in Hrun.
  - by injection Hrun as <-.
  - destruct (step entries a s) as [s1|] eqn:Hstep; [|discriminate].
    rewrite (IH _ _ Hrun). by eapply step_scrapers.
Qed.

Lemma run_app entries schedule rest : forall s s1,
  run entries schedule s = Some s1 ->
  run entries (schedule ++ rest) s = run entries rest s1.
Proof.
  induction schedule as [|a schedule IH]; intros s s1 Hrun; simpl in *.
  - by injection Hrun as <-.
  - destruct (step entries a s) as [s2|]; [|discriminate]. by apply IH.
Qed.

End Progress.

(** X27. For a snapshot whose label values are all valid UTF-8 the
    lock cannot deadlock. However far the cycle and the scrapes have
    got, in whatever order, they can all still finish: from every
    state the threads can reach there is a way on, of no more steps
    than the threads have left in their programs, at the end of which
    the cycle has published and released the lock, the new snapshot is
    exposed, and every one of the scrapes has been served. *)
Theorem publication_and_scrapes_can_finish {float64}
    (entries : list (metricEntry float64)) (old : Gauges float64) (n : nat)
    (schedule : list Action) (s : System float64) :
  Forall validEntry entries ->
  run entries schedule (initial old n) = Some s ->
  exists rest s',
    run entries (schedule ++ rest) (initial old n) = Some s'
    /\ (length rest <= stepsLeft entries s)%nat
    /\ publisher s' = PDone
    /\ writer (collectMu s') = false
    /\ exposed s' = published entries
    /\ length (scrapers s') = n
    /\ Forall (fun sc => exists seen, sc = SDone seen) (scrapers s').
Proof.
  intros Hvalid Hrun.
  pose proof (calm_run entries schedule (initial old n) s Hvalid I Hrun) as Hcalm.
  assert (Hinv : consistent entries old s).
  { destruct (consistent_run entries old schedule _ _
                (consistent_initial entries old n) Hrun) as [Hinv|Hp]; [exact Hinv|].
    unfold calm in Hcalm. by rewrite Hp in Hcalm. }
  destruct (can_finish entries old Hvalid (stepsLeft entries s) s (Nat.le_refl _)
              Hinv Hcalm)
    as (rest & s' & Hrest & [Hdone Hall] & Hlen).
  exists rest, s'. rewrite (run_app entries schedule rest _ _ Hrun).
  split; [exact Hrest|]. split; [exact Hlen|]. split; [exact Hdone|].
  destruct (consistent_run entries old rest _ _ Hinv Hrest) as [(_ & Hpub & _)|Hp];
    [|congruence].
  rewrite Hdone in Hpub. destruct Hpub as [Hw Hexp].
  split; [exact Hw|]. split; [exact Hexp|]. split; [|exact Hall].
  rewrite (run_scrapers entries rest _ _ Hrest), (run_scrapers entries schedule _ _ Hrun).
  simpl. apply length_replicate.
Qed.

Lemma publication_and_scrapes_can_finish_witness :
  exists rest s',
    run Scenario.newEntries ([ARLock 0; ARead 0 RequestAmount; ARLock 1] ++ rest)
        (initial Scenario.oldGauges 2) = Some s'
    /\ publisher s' = PDone
    /\ length (scrapers s') = 2%nat
    /\ Forall (fun sc => exists seen, sc = SDone seen) (scrapers s').
Proof.
  assert (Hvalid : Forall validEntry Scenario.newEntries) by (repeat constructor).
  assert (Hsome : match run Scenario.newEntries [ARLock 0; ARead 0 RequestAmount; ARLock 1]
                          (initial Scenario.oldGauges 2) with
                  | Some _ => true
                  | None => false
                  end = true) by (vm_compute; reflexivity).
  destruct (run Scenario.newEntries [ARLock 0; ARead 0 RequestAmount; ARLock 1]
              (initial Scenario.oldGauges 2)) as [s|] eqn:Hrun; [|discriminate].
  destruct (publication_and_scrapes_can_finish Scenario.newEntries Scenario.oldGauges 2
              [ARLock 0; ARead 0 RequestAmount; ARLock 1] s Hvalid Hrun)
    as (rest & s' & Hrest & _ & Hdone & _ & _ & Hlen & Hall).
  exists rest, s'.
  split; [exact Hrest|]. split; [exact Hdone|]. split; [exact Hlen | exact Hall].
Defined.

(** * Scrapes before the lock *)

Section UnlockedScrapes.

Context {float64 : Type}.
Implicit Types (entries : list (metricEntry float64)) (G old : Gauges float64).

(** The publisher applies all it has left, undisturbed. *)
Lemma unlocked_run_ops entries todo rest : forall mu G scs,
  Unlocked.run entries (replicate (length todo) AOp ++ rest)
    (mkSystem mu G (PLocked todo) scs)
  = Unlocked.run entries rest
      (mkSystem mu (fold_left (fun G op => applyOp op G) todo G) (PLocked []) scs).
Proof.
  induction todo as [|op todo IH]; intros mu G scs; [reflexivity|].
  simpl. apply IH.
Qed.

(** A snapshot with an entry exposes a series. *)
Lemma published_not_empty entries :
  entries <> [] -> published entries <> mkGauges ∅ ∅ ∅.
Proof.
  intros Hne Heq.
  destruct entries as [|e0 entries0] using rev_ind; [done|]. clear IHentries0.
  destruct (published_lookup_all (entries0 ++ [e0]) (labelValues (labels e0)))
    as (Hlook & _).
  rewrite observed_snoc, Heq in Hlook.
  destruct (decide (labelValues (labels e0) = labelValues (labels e0))); [|done].
  discriminate.
Qed.

End UnlockedScrapes.

(** X28. Before the lock a scrape could be served the gauges of no
    snapshot at all. With nothing but the order of the steps to hold
    them apart, a scrape that falls between the resets and the first
    [Set] of a cycle sees all three series empty, which is neither what
    was exposed before the cycle nor what the cycle publishes. *)
Theorem unlocked_scrape_sees_reset {float64} (entries : list (metricEntry float64))
    (old : Gauges float64) :
  old <> mkGauges ∅ ∅ ∅ ->
  entries <> [] ->
  exists schedule s seen,
    Unlocked.run entries schedule (initial old 1) = Some s
    /\ scrapers s !! 0%nat = Some (SDone seen)
    /\ seen = mkGauges ∅ ∅ ∅
    /\ seen <> old
    /\ seen <> published entries.
Proof.
  intros Hold Hnew.
  exists [ALock; AOp; AOp; AOp; ARLock 0; ARead 0 RequestAmount;
          ARead 0 RequestCostGross; ARead 0 RequestCostDiscount; ARUnlock 0].
  exists (mkSystem (mkRWMutex false 0) (mkGauges ∅ ∅ ∅)
            (PLocked (flat_map setOps entries)) [SDone (mkGauges ∅ ∅ ∅)]).
  exists (mkGauges ∅ ∅ ∅).
  split.
  { unfold initial, publishOps.
    cbn [app Unlocked.run Unlocked.step replicate scrapers publisher collectMu exposed
         lookup list_lookup insert list_insert readSeries pRequestAmount
         pRequestCostGross pRequestCostDiscount complete applyOp setSeries
         gRequestAmount gRequestCostGross gRequestCostDiscount].
    reflexivity. }
  split; [reflexivity|]. split; [reflexivity|].
  split; [congruence|].
  intros Heq. by apply (published_not_empty entries Hnew).
Qed.

Lemma unlocked_scrape_sees_reset_witness :
  exists schedule s,
    Unlocked.run Scenario.newEntries schedule (initial Scenario.oldGauges 1) = Some s
    /\ scrapers s !! 0%nat = Some (SDone (mkGauges ∅ ∅ ∅)).
Proof.
  destruct (unlocked_scrape_sees_reset Scenario.newEntries Scenario.oldGauges)
    as (schedule & s & seen & Hrun & Hseen & -> & _).
  - intros Heq.
    assert (Hlook : gRequestAmount Scenario.oldGauges
                      !! ("A", "copilot_premium_request", "gpt-5", "acme")%string
                    = Some 10) by (vm_compute; reflexivity).
    rewrite Heq in Hlook. discriminate.
  - discriminate.
  - by exists schedule, s.
Defined.

(** X29. Before the lock a scrape could be served a mix of two
    snapshots. A scrape that has read the first series when the cycle
    starts to write, and reads the other two when the cycle is through,
    returns the request amounts of the old snapshot with the costs of
    the new one; when the two snapshots differ in both, that is neither
    of them. *)
Theorem unlocked_scrape_mixes_snapshots {float64} (entries : list (metricEntry float64))
    (old : Gauges float64) :
  gRequestAmount old <> gRequestAmount (published entries) ->
  gRequestCostGross old <> gRequestCostGross (published entries) ->
  exists schedule s seen,
    Unlocked.run entries schedule (initial old 1) = Some s
    /\ scrapers s !! 0%nat = Some (SDone seen)
    /\ gRequestAmount seen = gRequestAmount old
    /\ gRequestCostGross seen = gRequestCostGross (published entries)
    /\ gRequestCostDiscount seen = gRequestCostDiscount (published entries)
    /\ seen <> old
    /\ seen <> published entries.
Proof.
  intros Hamount Hcost.
  exists ([ARLock 0; ARead 0 RequestAmount; ALock]
          ++ replicate (length (publishOps entries)) AOp
          ++ [AUnlock; ARead 0 RequestCostGross; ARead 0 RequestCostDiscount;
              ARUnlock 0]).
  exists (mkSystem (mkRWMutex false 0) (published entries) PDone
            [SDone (mkGauges (gRequestAmount old)
                             (gRequestCostGross (published entries))
                             (gRequestCostDiscount (published entries)))]).
  exists (mkGauges (gRequestAmount old)
                   (gRequestCostGross (published entries))
                   (gRequestCostDiscount (published entries))).
  split.
  { cbn [app Unlocked.run]. unfold initial.
    cbn [Unlocked.step replicate scrapers publisher collectMu exposed lookup
         list_lookup insert list_insert readSeries pRequestAmount pRequestCostGross
         pRequestCostDiscount].
    rewrite unlocked_run_ops, publishOps_published. reflexivity. }
  split; [reflexivity|]. split; [reflexivity|]. split; [reflexivity|].
  split; [reflexivity|]. split.
  - intros Heq. apply Hcost. by rewrite <- Heq.
  - intros Heq. apply Hamount. by rewrite <- Heq.
Qed.

Lemma unlocked_scrape_mixes_snapshots_witness :
  exists schedule s seen,
    Unlocked.run Scenario.newEntries schedule (initial Scenario.oldGauges 1) = Some s
    /\ scrapers s !! 0%nat = Some (SDone seen)
    /\ seen <> Scenario.oldGauges
    /\ seen <> published Scenario.newEntries.
Proof.
  destruct (unlocked_scrape_mixes_snapshots Scenario.newEntries Scenario.oldGauges)
    as (schedule & s & seen & Hrun & Hseen & _ & _ & _ & Hold & Hnew).
  - intros Heq.
    assert (Hlook : gRequestAmount Scenario.oldGauges
                      !! ("A", "copilot_premium_request", "gpt-5", "acme")%string
                    <> gRequestAmount (published Scenario.newEntries)
                         !! ("A", "copilot_premium_request", "gpt-5", "acme")%string)
      by (vm_compute; discriminate).
    apply Hlook. by rewrite Heq.
  - intros Heq.
    assert (Hlook : gRequestCostGross Scenario.oldGauges
                      !! ("A", "copilot_premium_request", "gpt-5", "acme")%string
                    <> gRequestCostGross (published Scenario.newEntries)
                         !! ("A", "copilot_premium_request", "gpt-5", "acme")%string)
      by (vm_compute; discriminate).
    apply Hlook. by rewrite Heq.
  - by exists schedule, s, seen.
Defined.
